(** * UrlShortner: short-code generation, expiry and the create / resolve paths

    A shallow embedding of [commons/url_utils.py], [commons/lambda_utils.py],
    [commons/dynamodb_utils.py] and of the two handlers
    [getOrCreateShortURL.py] and [redirectURL.py], followed by the properties
    of the natural-language specification that were checked against it and
    by further properties of the code: round trips of the dates it writes,
    what the store operations and the two handlers keep and change, what the
    validators let through, and the path from a creation to the requests
    that follow it.

    Conventions.
    - A Python [str] is a Rocq [string]; the texts the code inspects (ISO
      instants, suffixes, URLs) are ASCII, and a [string] is hashed as its
      bytes.
    - Exceptions are values of [exn]; code that can raise runs in the monad
      [M], which threads the [World] (clock, table, scripted store faults,
      call trace, metrics).
    - Python library functions ([datetime], [re], [hashlib], [base64]) are
      modelled in the modules [PyStr], [Re], [Datetime], [Hashlib] and
      [Base64]; everything after them follows the repository line by line.
    - Log lines have no effect on what the code answers and are left out;
      the metrics it emits are kept. *)

From Stdlib Require Import ZArith Ascii String List Lia.
From stdpp Require Import base option strings list gmap.

Open Scope Z_scope.

(* ===================================================================== *)
(** ** Python strings *)
(* ===================================================================== *)

Module PyStr.

Definition chars (s : string) : list ascii := list_ascii_of_string s.
Definition str (l : list ascii) : string := string_of_list_ascii l.

Definition code (c : ascii) : Z := Z.of_N (N_of_ascii c).

(** [bool(s)]: a string is truthy when it is not empty. *)
Definition truthy (s : string) : bool :=
  match s with EmptyString => false | String _ _ => true end.

(** [bool(o)] for an [Optional[str]]: [None] and [''] are falsy. *)
Definition truthy_opt (o : option string) : bool :=
  match o with None => false | Some s => truthy s end.

(** [c in s]. *)
Definition contains (c : ascii) (s : string) : bool :=
  existsb (Ascii.eqb c) (chars s).

(** [s.endswith(c)] for a one-character [c]. *)
Definition endswith (c : ascii) (s : string) : bool :=
  match last (chars s) with
  | Some d => Ascii.eqb c d
  | None => false
  end.

(** [s[:-1]]. *)
Definition drop_last (s : string) : string :=
  str (removelast (chars s)).

(** [s[:n]]. *)
Definition prefix (n : nat) (s : string) : string := str (take n (chars s)).

(** [s.replace(c, '')]. *)
Definition remove_char (c : ascii) (s : string) : string :=
  str (List.filter (fun d => negb (Ascii.eqb c d)) (chars s)).

(** [s.replace(c, t)] for a one-character [c]. *)
Definition replace_char (c : ascii) (t : string) (s : string) : string :=
  String.concat "" (List.map (fun d => if Ascii.eqb c d then t else String d "") (chars s)).

Definition is_digit (c : ascii) : bool := (48 <=? code c) && (code c <=? 57).
Definition is_upper (c : ascii) : bool := (65 <=? code c) && (code c <=? 90).
Definition is_lower (c : ascii) : bool := (97 <=? code c) && (code c <=? 122).

(** Decimal rendering of a natural number, most significant digit first,
    on exactly [width] digits (the number is below [10 ^ width] wherever
    this is used). *)
Fixpoint pad_digits (width : nat) (n : Z) : list ascii :=
  match width with
  | O => []
  | S w => pad_digits w (n / 10) ++ [ascii_of_N (Z.to_N (48 + n mod 10))]
  end.

(** Drop the zeros a digit list starts with. *)
Fixpoint strip_zeros (l : list ascii) : list ascii :=
  match l with
  | c :: t => if Ascii.eqb c "0" then strip_zeros t else l
  | [] => []
  end.

(** Decimal rendering without leading zeros ([str(n)] for [0 <= n]). *)
Definition decimal (n : Z) : string :=
  match strip_zeros (pad_digits 20 n) with
  | [] => "0"
  | l => str l
  end.

(** [s.split(c)] for a one-character [c]: the runs between the occurrences
    of [c], the empty ones included. *)
Fixpoint split_chars (sep : ascii) (l : list ascii) : list (list ascii) :=
  match l with
  | [] => [[]]
  | c :: t =>
      if Ascii.eqb sep c then [] :: split_chars sep t
      else match split_chars sep t with
           | h :: r => (c :: h) :: r
           | [] => [[c]]
           end
  end.

Definition split (sep : ascii) (s : string) : list string :=
  str <$> split_chars sep (chars s).

End PyStr.

(* ===================================================================== *)
(** ** [datetime]: instants, [fromisoformat], [isoformat], [timestamp] *)
(* ===================================================================== *)

Module Datetime.
Import PyStr.

(** A [datetime] value is modelled by what its calendar fields denote:
    [wall] is the number of microseconds from 0001-01-01T00:00:00 to the
    fields (year, month, day, hour, minute, second, microsecond) read on
    the value's own clock, and [utcoffset] is [None] for a naive value and
    the offset east of UTC, in microseconds, for an aware one. *)
Record datetime := mk_datetime { wall : Z; utcoffset : option Z }.

Definition US_PER_SECOND : Z := 1000000.
Definition US_PER_DAY : Z := 86400 * US_PER_SECOND.

Definition MINYEAR : Z := 1.
Definition MAXYEAR : Z := 9999.

Definition is_leap (year : Z) : bool :=
  (year mod 4 =? 0) && (negb (year mod 100 =? 0) || (year mod 400 =? 0)).

Definition days_in_month (year month : Z) : Z :=
  if month =? 2 then (if is_leap year then 29 else 28)
  else if (month =? 4) || (month =? 6) || (month =? 9) || (month =? 11) then 30
  else 31.

(** Days in the year before the first day of [month]. *)
Definition days_before_month (year month : Z) : Z :=
  let base :=
    nth (Z.to_nat month)
        [0; 0; 31; 59; 90; 120; 151; 181; 212; 243; 273; 304; 334]%Z 0 in
  base + (if (2 <? month) && is_leap year then 1 else 0).

(** Days before January 1st of [year] (year 1 starts at 0). *)
Definition days_before_year (year : Z) : Z :=
  let y := year - 1 in
  y * 365 + y / 4 - y / 100 + y / 400.

(** Proleptic Gregorian ordinal; 0001-01-01 is day 1. *)
Definition ymd2ord (year month day : Z) : Z :=
  days_before_year year + days_before_month year month + day.

Definition DI400Y : Z := days_before_year 401.
Definition DI100Y : Z := days_before_year 101.
Definition DI4Y : Z := days_before_year 5.

(** The inverse of [ymd2ord], as in CPython's [_ord2ymd]. *)
Definition ord2ymd (ordinal : Z) : Z * Z * Z :=
  let n := ordinal - 1 in
  let n400 := n / DI400Y in let n := n mod DI400Y in
  let n100 := n / DI100Y in let n := n mod DI100Y in
  let n4 := n / DI4Y in let n := n mod DI4Y in
  let n1 := n / 365 in let n := n mod 365 in
  let year := n400 * 400 + 1 + n100 * 100 + n4 * 4 + n1 in
  if (n1 =? 4) || (n100 =? 4) then (year - 1, 12, 31)
  else
    let leapyear := (n1 =? 3) && (negb (n4 =? 24) || (n100 =? 3)) in
    let month := Z.shiftr (n + 50) 5 in
    let preceding :=
      days_before_month 1 month + (if (2 <? month) && leapyear then 1 else 0) in
    if n <? preceding then
      let month' := month - 1 in
      let preceding' :=
        preceding - (days_in_month 1 month'
                     + (if (month' =? 2) && leapyear then 1 else 0)) in
      (year, month', n - preceding' + 1)
    else (year, month, n - preceding + 1).

(** The value of the constructor [datetime(year, ..., microsecond)], which
    raises [ValueError] when a field is out of range. *)
Definition of_fields (year month day hour minute second us : Z) : option Z :=
  if (MINYEAR <=? year) && (year <=? MAXYEAR)
     && (1 <=? month) && (month <=? 12)
     && (1 <=? day) && (day <=? days_in_month year month)
     && (0 <=? hour) && (hour <=? 23)
     && (0 <=? minute) && (minute <=? 59)
     && (0 <=? second) && (second <=? 59)
     && (0 <=? us) && (us <=? 999999)
  then Some (((ymd2ord year month day - 1) * 86400
              + hour * 3600 + minute * 60 + second) * US_PER_SECOND + us)
  else None.

(** *** Parsing *)

Definition digit_value (c : ascii) : option Z :=
  if is_digit c then Some (code c - 48) else None.

(** Exactly [n] decimal digits, then the rest of the text. *)
Fixpoint parse_digits (n : nat) (acc : Z) (l : list ascii)
  : option (Z * list ascii) :=
  match n with
  | O => Some (acc, l)
  | S n' =>
      match l with
      | c :: t => d ← digit_value c; parse_digits n' (acc * 10 + d) t
      | [] => None
      end
  end.

Definition expect (c : ascii) (l : list ascii) : option (list ascii) :=
  match l with
  | d :: t => if Ascii.eqb c d then Some t else None
  | [] => None
  end.

(** [HH[:MM[:SS[.fff[fff]]]]], the whole of [l]. *)
Definition parse_hh_mm_ss_ff (l : list ascii) : option (Z * Z * Z * Z) :=
  '(hh, l) ← parse_digits 2 0 l;
  match l with
  | [] => Some (hh, 0, 0, 0)
  | _ =>
      l ← expect ":" l;
      '(mm, l) ← parse_digits 2 0 l;
      match l with
      | [] => Some (hh, mm, 0, 0)
      | _ =>
          l ← expect ":" l;
          '(ss, l) ← parse_digits 2 0 l;
          match l with
          | [] => Some (hh, mm, ss, 0)
          | _ =>
              l ← expect "." l;
              match length l with
              | 3%nat =>
                  '(ff, _) ← parse_digits 3 0 l; Some (hh, mm, ss, ff * 1000)
              | 6%nat =>
                  '(ff, _) ← parse_digits 6 0 l; Some (hh, mm, ss, ff)
              | _ => None
              end
          end
      end
  end.

Definition is_sign (c : ascii) : bool := Ascii.eqb c "+" || Ascii.eqb c "-".

(** Split the time text at its first ['+'] or ['-']. *)
Fixpoint split_tz (l : list ascii) : list ascii * list ascii :=
  match l with
  | [] => ([], [])
  | c :: t =>
      if is_sign c then ([], l)
      else let '(a, b) := split_tz t in (c :: a, b)
  end.

(** [HH[:MM[:SS[.fff[fff]]]][+HH:MM[:SS[.ffffff]]]]: the time of day in
    microseconds and the offset, if one is written.  An offset must keep
    strictly within a day, as [timezone] demands. *)
Definition parse_isoformat_time (l : list ascii)
  : option (Z * Z * Z * Z * option Z) :=
  let '(timestr, tzstr) := split_tz l in
  '(hh, mm, ss, ff) ← parse_hh_mm_ss_ff timestr;
  match tzstr with
  | [] => Some (hh, mm, ss, ff, None)
  | sign :: tz =>
      if bool_decide (length tz = 5%nat) || bool_decide (length tz = 8%nat)
         || bool_decide (length tz = 15%nat)
      then
        '(th, tm, ts, tf) ← parse_hh_mm_ss_ff tz;
        let off := (th * 3600 + tm * 60 + ts) * US_PER_SECOND + tf in
        let off := if Ascii.eqb sign "-" then - off else off in
        if (- US_PER_DAY <? off) && (off <? US_PER_DAY)
        then Some (hh, mm, ss, ff, Some off) else None
      else None
  end.

(** [datetime.fromisoformat], on the grammar the library documents for the
    texts [isoformat] emits:
    [YYYY-MM-DD[*HH[:MM[:SS[.fff[fff]]]][+HH:MM[:SS[.ffffff]]]]], where [*]
    is any one character.  [None] stands for [ValueError].  (Python 3.11
    and later read further ISO 8601 forms as well; every text that is
    evaluated below is read alike by all versions.) *)
Definition fromisoformat (s : string) : option datetime :=
  let l := chars s in
  '(year, l) ← parse_digits 4 0 l;
  l ← expect "-" l;
  '(month, l) ← parse_digits 2 0 l;
  l ← expect "-" l;
  '(day, l) ← parse_digits 2 0 l;
  match l with
  | [] => w ← of_fields year month day 0 0 0 0; Some (mk_datetime w None)
  | _sep :: t =>
      '(hh, mm, ss, ff, tz) ← parse_isoformat_time t;
      w ← of_fields year month day hh mm ss ff;
      Some (mk_datetime w tz)
  end.

(** *** Values *)

(** The instant an aware value denotes, in microseconds of UTC. *)
Definition utc_instant (d : datetime) : Z := wall d - default 0 (utcoffset d).

(** [d.replace(tzinfo=timezone.utc)]. *)
Definition replace_tzinfo_utc (d : datetime) : datetime :=
  mk_datetime (wall d) (Some 0).

(** [a > b] for two aware values. *)
Definition gt (a b : datetime) : bool := utc_instant b <? utc_instant a.

(** 1970-01-01T00:00:00+00:00. *)
Definition EPOCH : Z := (ymd2ord 1970 1 1 - 1) * US_PER_DAY.

(** [int(d.timestamp())] for an aware [d]: whole seconds since the epoch,
    truncated towards zero.  ([timestamp()] is a float; at microsecond
    resolution it is exact for the dates a mapping lives through.) *)
Definition int_timestamp (d : datetime) : Z :=
  Z.quot (utc_instant d - EPOCH) US_PER_SECOND.

(** [str(d.timestamp())]: seconds, a point, and the microseconds without
    trailing zeros (at least one digit). *)
Definition str_timestamp (d : datetime) : string :=
  let t := utc_instant d - EPOCH in
  let a := Z.abs t in
  let frac := rev (strip_zeros (rev (pad_digits 6 (a mod US_PER_SECOND)))) in
  ((if t <? 0 then "-" else "") +:+ decimal (a / US_PER_SECOND) +:+ "."
   +:+ (match frac with [] => "0" | _ => str frac end)).

(** [d + timedelta(days=n)]; [OverflowError] ([None]) beyond year 9999. *)
Definition add_days (d : datetime) (n : Z) : option datetime :=
  let w := wall d + n * US_PER_DAY in
  if (0 <=? w) && (w <? days_before_year (MAXYEAR + 1) * US_PER_DAY)
  then Some (mk_datetime w (utcoffset d)) else None.

Definition isoformat_offset (off : Z) : string :=
  let a := Z.abs off in
  let secs := a / US_PER_SECOND in
  let us := a mod US_PER_SECOND in
  ((if off <? 0 then "-" else "+")
   +:+ str (pad_digits 2 (secs / 3600)) +:+ ":"
   +:+ str (pad_digits 2 (secs / 60 mod 60))
   +:+ (if (secs mod 60 =? 0) && (us =? 0) then ""
        else ":" +:+ str (pad_digits 2 (secs mod 60))
             +:+ (if us =? 0 then "" else "." +:+ str (pad_digits 6 us)))).

(** [d.isoformat()]: [YYYY-MM-DDTHH:MM:SS[.ffffff][+HH:MM]]. *)
Definition isoformat (d : datetime) : string :=
  let days := wall d / US_PER_DAY in
  let rest := wall d mod US_PER_DAY in
  let '(year, month, day) := ord2ymd (days + 1) in
  let secs := rest / US_PER_SECOND in
  let us := rest mod US_PER_SECOND in
  (str (pad_digits 4 year) +:+ "-" +:+ str (pad_digits 2 month) +:+ "-"
   +:+ str (pad_digits 2 day) +:+ "T"
   +:+ str (pad_digits 2 (secs / 3600)) +:+ ":"
   +:+ str (pad_digits 2 (secs / 60 mod 60)) +:+ ":"
   +:+ str (pad_digits 2 (secs mod 60))
   +:+ (if us =? 0 then "" else "." +:+ str (pad_digits 6 us))
   +:+ (match utcoffset d with
        | None => ""
        | Some off => isoformat_offset off
        end)).

End Datetime.

(* ===================================================================== *)
(** ** [re]: the patterns of the repository *)
(* ===================================================================== *)

Module Re.
Import PyStr.

(** Regular expressions over character classes.  The patterns of the
    repository use no back-reference and no look-around, so whether
    [pattern.match] finds a match is a question about the regular language,
    decided here with derivatives. *)
Inductive re :=
| Void
| Eps
| Class (p : ascii -> bool)
| Cat (a b : re)
| Alt (a b : re)
| Star (a : re).

Fixpoint nullable (r : re) : bool :=
  match r with
  | Void => false
  | Eps => true
  | Class _ => false
  | Cat a b => nullable a && nullable b
  | Alt a b => nullable a || nullable b
  | Star _ => true
  end.

Fixpoint deriv (c : ascii) (r : re) : re :=
  match r with
  | Void => Void
  | Eps => Void
  | Class p => if p c then Eps else Void
  | Cat a b =>
      if nullable a then Alt (Cat (deriv c a) b) (deriv c b)
      else Cat (deriv c a) b
  | Alt a b => Alt (deriv c a) (deriv c b)
  | Star a => Cat (deriv c a) (Star a)
  end.

(** Smart constructors keep the derivatives small. *)
Fixpoint simp (r : re) : re :=
  match r with
  | Cat a b =>
      match simp a, simp b with
      | Void, _ => Void
      | _, Void => Void
      | Eps, b' => b'
      | a', Eps => a'
      | a', b' => Cat a' b'
      end
  | Alt a b =>
      match simp a, simp b with
      | Void, b' => b'
      | a', Void => a'
      | a', b' => Alt a' b'
      end
  | _ => r
  end.

Fixpoint accepts (r : re) (l : list ascii) : bool :=
  match l with
  | [] => nullable r
  | c :: t => accepts (simp (deriv c r)) t
  end.

Definition Plus (a : re) : re := Cat a (Star a).
Definition Opt (a : re) : re := Alt a Eps.
Definition Chr (c : ascii) : re := Class (Ascii.eqb c).
Definition Any : re := Class (fun _ => true).

(** [a{n}] and [a{n,m}] (with [m = n + extra]). *)
Fixpoint Times (n : nat) (a : re) : re :=
  match n with O => Eps | S k => Cat a (Times k a) end.
Fixpoint UpTo (n : nat) (a : re) : re :=
  match n with O => Eps | S k => Opt (Cat a (UpTo k a)) end.
Definition Range (n extra : nat) (a : re) : re := Cat (Times n a) (UpTo extra a).

(** [re.compile('^' r '$').match(s)]: the whole of [s], or the whole of
    [s] but a final newline, which ['$'] lets through. *)
Definition match_to_end (r : re) (s : string) : bool :=
  accepts r (chars s)
  || match last (chars s) with
     | Some c => Ascii.eqb c "010" && accepts r (removelast (chars s))
     | None => false
     end.

(** [re.compile('^' r).match(s)]: some prefix of [s]. *)
Definition match_prefix (r : re) (s : string) : bool :=
  accepts (Cat r (Star Any)) (chars s).

(** Character classes. *)
Definition alnum (c : ascii) : bool := is_digit c || is_upper c || is_lower c.
Definition letter (c : ascii) : bool := is_upper c || is_lower c.
Definition between (lo hi : ascii) (c : ascii) : bool :=
  (code lo <=? code c) && (code c <=? code hi).
(** [\S] on ASCII text: anything but space, tab, newline, return, form
    feed, vertical tab and the four separators 0x1c-0x1f. *)
Definition non_space (c : ascii) : bool :=
  negb ((code c =? 32) || ((9 <=? code c) && (code c <=? 13))
        || ((28 <=? code c) && (code c <=? 31))).

End Re.

(* ===================================================================== *)
(** ** [hashlib.sha256], [bytes.fromhex], [base64.urlsafe_b64encode] *)
(* ===================================================================== *)

(** Bytes are integers in [0, 256). *)
Module Hashlib.
Import PyStr.

Definition w32 (x : Z) : Z := x mod 2 ^ 32.
Definition add32 (x y : Z) : Z := w32 (x + y).
Definition rotr (n x : Z) : Z := Z.lor (Z.shiftr x n) (w32 (Z.shiftl x (32 - n))).
Definition ch (x y z : Z) : Z := Z.lxor (Z.land x y) (Z.land (w32 (Z.lnot x)) z).
Definition maj (x y z : Z) : Z :=
  Z.lxor (Z.lxor (Z.land x y) (Z.land x z)) (Z.land y z).
Definition bsig0 (x : Z) : Z := Z.lxor (Z.lxor (rotr 2 x) (rotr 13 x)) (rotr 22 x).
Definition bsig1 (x : Z) : Z := Z.lxor (Z.lxor (rotr 6 x) (rotr 11 x)) (rotr 25 x).
Definition ssig0 (x : Z) : Z := Z.lxor (Z.lxor (rotr 7 x) (rotr 18 x)) (Z.shiftr x 3).
Definition ssig1 (x : Z) : Z := Z.lxor (Z.lxor (rotr 17 x) (rotr 19 x)) (Z.shiftr x 10).

(** The round constants and the initial state are read off the first
    primes: the first thirty-two bits of the fractional parts of their cube
    roots and of their square roots. *)
Definition is_prime (n : Z) : bool :=
  (1 <? n)
  && forallb (fun d => (n <? d * d) || negb (n mod d =? 0))
             (List.map Z.of_nat (seq 2 (Z.to_nat n - 2))).

Definition primes : list Z :=
  List.filter is_prime (List.map Z.of_nat (seq 2 310)).

(** The integer cube root, found bit by bit from bit [bits - 1] down. *)
Fixpoint cube_root (bits : nat) (n r : Z) : Z :=
  match bits with
  | O => r
  | S b =>
      let r' := r + 2 ^ Z.of_nat b in
      cube_root b n (if r' * r' * r' <=? n then r' else r)
  end.

Definition K : list Z :=
  List.map (fun p => w32 (cube_root 48 (p * 2 ^ 96) 0)) (take 64 primes).

(** The eight working words. *)
Definition state : Type := Z * Z * Z * Z * Z * Z * Z * Z.

Definition H0 : state :=
  match List.map (fun p => w32 (Z.sqrt (p * 2 ^ 64))) (take 8 primes) with
  | [a; b; c; d; e; f; g; h] => (a, b, c, d, e, f, g, h)
  | _ => (0, 0, 0, 0, 0, 0, 0, 0)
  end.

(** Message padding: a one bit, zeros up to 56 modulo 64, and the bit
    length on eight bytes. *)
Definition be_bytes (width : nat) (x : Z) : list Z :=
  List.map (fun i => Z.shiftr x (8 * Z.of_nat i) mod 256) (rev (seq 0 width)).

Definition pad (msg : list Z) : list Z :=
  let len := Z.of_nat (length msg) in
  let zeros := Z.to_nat ((55 - len) mod 64) in
  msg ++ [128] ++ repeat 0 zeros ++ be_bytes 8 (8 * len).

Fixpoint words (l : list Z) : list Z :=
  match l with
  | a :: b :: c :: d :: t =>
      (Z.shiftl a 24 + Z.shiftl b 16 + Z.shiftl c 8 + d) :: words t
  | _ => []
  end.

(** Extend the sixteen words of a block to the sixty-four of the schedule. *)
Fixpoint schedule (n : nat) (w : list Z) : list Z :=
  match n with
  | O => w
  | S n' =>
      let t := length w in
      let at_ (k : nat) := nth (t - k) w 0 in
      schedule n' (w ++ [w32 (ssig1 (at_ 2%nat) + at_ 7%nat
                             + ssig0 (at_ 15%nat) + at_ 16%nat)])
  end.

Definition round (s : state) (kw : Z * Z) : state :=
  let '(a, b, c, d, e, f, g, h) := s in
  let t1 := w32 (h + bsig1 e + ch e f g + fst kw + snd kw) in
  let t2 := w32 (bsig0 a + maj a b c) in
  (add32 t1 t2, a, b, c, add32 d t1, e, f, g).

Definition compress (s : state) (block : list Z) : state :=
  let '(a, b, c, d, e, f, g, h) := s in
  let '(a', b', c', d', e', f', g', h') :=
    fold_left round (combine K (schedule 48 (words block))) s in
  (add32 a a', add32 b b', add32 c c', add32 d d',
   add32 e e', add32 f f', add32 g g', add32 h h').

Fixpoint blocks (n : nat) (l : list Z) : list (list Z) :=
  match n with
  | O => []
  | S n' => take 64 l :: blocks n' (drop 64 l)
  end.

(** [hashlib.sha256(msg).digest()]: thirty-two bytes. *)
Definition sha256 (msg : list Z) : list Z :=
  let p := pad msg in
  let '(a, b, c, d, e, f, g, h) :=
    fold_left compress (blocks (length p / 64) p) H0 in
  be_bytes 4 a ++ be_bytes 4 b ++ be_bytes 4 c ++ be_bytes 4 d
  ++ be_bytes 4 e ++ be_bytes 4 f ++ be_bytes 4 g ++ be_bytes 4 h.

Definition hex_digit (n : Z) : ascii :=
  nth (Z.to_nat n) (chars "0123456789abcdef") "0"%char.

(** [.hexdigest()]: two lower-case hexadecimal digits per byte. *)
Definition hex (l : list Z) : string :=
  str (flat_map (fun b => [hex_digit (b / 16); hex_digit (b mod 16)]) l).

Definition hexdigest (msg : list Z) : string := hex (sha256 msg).

Definition hex_value (c : ascii) : option Z :=
  if is_digit c then Some (code c - 48)
  else if (97 <=? code c) && (code c <=? 102) then Some (code c - 87)
  else if (65 <=? code c) && (code c <=? 70) then Some (code c - 55)
  else None.

Fixpoint fromhex_chars (l : list ascii) : option (list Z) :=
  match l with
  | [] => Some []
  | a :: b :: t =>
      hi ← hex_value a; lo ← hex_value b;
      r ← fromhex_chars t; Some ((hi * 16 + lo) :: r)
  | [_] => None
  end.

(** [bytes.fromhex(s)] on a text without blanks; [None] is [ValueError]. *)
Definition fromhex (s : string) : option (list Z) := fromhex_chars (chars s).

(** [s.encode('utf-8')] on ASCII text. *)
Definition encode (s : string) : list Z := List.map code (chars s).

End Hashlib.

Module Base64.
Import PyStr.

Definition alphabet : list ascii :=
  chars "ABCDEFGHIJKLMNOPQRSTUVWXYZabcdefghijklmnopqrstuvwxyz0123456789-_".

Definition enc (n : Z) : ascii := nth (Z.to_nat n) alphabet "A"%char.

(** [base64.urlsafe_b64encode(l).decode('utf-8')]. *)
Fixpoint urlsafe_b64encode_chars (l : list Z) : list ascii :=
  match l with
  | a :: b :: c :: t =>
      [ enc (Z.shiftr a 2);
        enc (Z.lor (Z.shiftl (Z.land a 3) 4) (Z.shiftr b 4));
        enc (Z.lor (Z.shiftl (Z.land b 15) 2) (Z.shiftr c 6));
        enc (Z.land c 63) ] ++ urlsafe_b64encode_chars t
  | [a; b] =>
      [ enc (Z.shiftr a 2);
        enc (Z.lor (Z.shiftl (Z.land a 3) 4) (Z.shiftr b 4));
        enc (Z.shiftl (Z.land b 15) 2);
        "="%char ]
  | [a] =>
      [ enc (Z.shiftr a 2); enc (Z.shiftl (Z.land a 3) 4); "="%char; "="%char ]
  | [] => []
  end.

Definition urlsafe_b64encode (l : list Z) : string :=
  str (urlsafe_b64encode_chars l).

End Base64.

(* ===================================================================== *)
(** ** Exceptions, the world and the monad of effects *)
(* ===================================================================== *)

Module Env.
Import PyStr Datetime.

(** A [botocore] [ClientError]: [response['Error']['Code']],
    [response['Error']['Message']] (either may be missing) and [str(error)]. *)
Record ClientError := mk_ClientError {
  Code : option string;
  Message : option string;
  text : string
}.

(** The exceptions the code raises or meets.  [ValidationError],
    [NotFoundError], [ConflictError] and [DatabaseError] are the subclasses
    of [LambdaError]; [DatabaseError] keeps the constructor's argument and
    the error it wraps. *)
Inductive exn :=
| ValueError (msg : string)
| TypeError (msg : string)
| OverflowError (msg : string)
| KeyError (key : string)
| JSONDecodeError (msg : string)
| BotoClientError (e : ClientError)
| ValidationError (msg : string)
| NotFoundError (msg : string)
| ConflictError (msg : string)
| DatabaseError (msg : string) (original_error : option ClientError).

(** The class of an exception, which is what an [except] clause tests. *)
Inductive exn_class :=
| CValueError | CTypeError | COverflowError | CKeyError | CJSONDecodeError
| CClientError
| CValidationError | CNotFoundError | CConflictError | CDatabaseError.

Definition class_of (e : exn) : exn_class :=
  match e with
  | ValueError _ => CValueError
  | TypeError _ => CTypeError
  | OverflowError _ => COverflowError
  | KeyError _ => CKeyError
  | JSONDecodeError _ => CJSONDecodeError
  | BotoClientError _ => CClientError
  | ValidationError _ => CValidationError
  | NotFoundError _ => CNotFoundError
  | ConflictError _ => CConflictError
  | DatabaseError _ _ => CDatabaseError
  end.

(** A stored mapping: the key and the attributes the code reads, each of
    which an item may lack. *)
Record Item := mk_Item {
  shortId : string;
  longUrl : option string;
  createdAt : option string;
  expiryDate : option string;
  ttlTimestamp : option Z;
  clickCount : option Z;
  lastAccessedAt : option string
}.

(** The calls made to the table, and how the table answered. *)
Inductive StoreCall :=
| GetItem (key : string)
| Query (long_url : string) (now_seconds : Z)
| PutItem (item : Item)
| UpdateItem (key : string) (timestamp : string).

Record StoreEvent := mk_StoreEvent {
  call : StoreCall;
  answer : option ClientError
}.

(** What a request runs against.
    - [clock]: the successive readings of the UTC clock, in microseconds
      from 0001-01-01T00:00:00, and [ticks], how many were made;
    - [table_configured]: whether [DYNAMODB_TABLE_NAME] named a table;
    - [table]: the items, by [shortId];
    - [faults]: what the store does with the calls to come: [Some e] makes
      the next call raise [e] (throttling, outage, a writer that took the
      key first), [None] serves it from [table];
    - [trace]: the store calls made, oldest first;
    - [metrics]: the metric names emitted, oldest first. *)
Record World := mk_World {
  clock : nat -> Z;
  ticks : nat;
  table_configured : bool;
  table : gmap string Item;
  faults : list (option ClientError);
  trace : list StoreEvent;
  metrics : list string
}.

Inductive result (A : Type) :=
| Ok (a : A)
| Raise (e : exn).
Arguments Ok {A} a.
Arguments Raise {A} e.

Definition M (A : Type) : Type := World -> result A * World.

Definition ret {A} (a : A) : M A := fun w => (Ok a, w).
Definition raise {A} (e : exn) : M A := fun w => (Raise e, w).
Definition bind {A B} (m : M A) (k : A -> M B) : M B :=
  fun w => match m w with
           | (Ok a, w') => k a w'
           | (Raise e, w') => (Raise e, w')
           end.

#[global] Instance M_ret : MRet M := @ret.
#[global] Instance M_bind : MBind M := fun A B k m => bind m k.

(** [try: m  except <classes handled by h>: ...]; [h e = None] lets [e]
    through. *)
Definition try_except {A} (m : M A) (h : exn -> option (M A)) : M A :=
  fun w => match m w with
           | (Ok a, w') => (Ok a, w')
           | (Raise e, w') =>
               match h e with
               | Some k => k w'
               | None => (Raise e, w')
               end
           end.

(** The five ways a request changes the world. *)
Definition tick (w : World) : World :=
  mk_World (clock w) (S (ticks w)) (table_configured w) (table w)
           (faults w) (trace w) (metrics w).
Definition with_table (t : gmap string Item) (w : World) : World :=
  mk_World (clock w) (ticks w) (table_configured w) t
           (faults w) (trace w) (metrics w).
Definition pop_fault (w : World) : World :=
  mk_World (clock w) (ticks w) (table_configured w) (table w)
           (tail (faults w)) (trace w) (metrics w).
Definition log_call (ev : StoreEvent) (w : World) : World :=
  mk_World (clock w) (ticks w) (table_configured w) (table w)
           (faults w) (trace w ++ [ev]) (metrics w).
Definition log_metric (name : string) (w : World) : World :=
  mk_World (clock w) (ticks w) (table_configured w) (table w)
           (faults w) (trace w) (metrics w ++ [name]).

(** The reading the clock gives next. *)
Definition now_of (w : World) : datetime :=
  mk_datetime (clock w (ticks w)) (Some 0).

(** [datetime.now(timezone.utc)]. *)
Definition datetime_now : M datetime := fun w => (Ok (now_of w), tick w).

(** [metrics.add_metric(name=..., unit=MetricUnit.Count, value=1)]. *)
Definition add_metric (name : string) : M unit :=
  fun w => (Ok tt, log_metric name w).

Definition get_table : M (gmap string Item) := fun w => (Ok (table w), w).

Definition set_table (t : gmap string Item) : M unit :=
  fun w => (Ok tt, with_table t w).

Definition is_configured : M bool := fun w => (Ok (table_configured w), w).

(** The fault, if any, that the store has in stock for the call at hand. *)
Definition next_fault : M (option ClientError) :=
  fun w => (Ok (mjoin (head (faults w))), pop_fault w).

Definition record_call (c : StoreCall) (a : option ClientError) : M unit :=
  fun w => (Ok tt, log_call (mk_StoreEvent c a) w).

(** [o] when present, else raise [e]. *)
Definition or_raise {A} (o : option A) (e : exn) : M A :=
  match o with Some a => ret a | None => raise e end.

End Env.

(* ===================================================================== *)
(** ** [commons/lambda_utils.py] *)
(* ===================================================================== *)

Module lambda_utils.
Import PyStr Datetime Env.

Definition HTTP_STATUS_OK : Z := 200.
Definition HTTP_STATUS_CREATED : Z := 201.
Definition HTTP_STATUS_BAD_REQUEST : Z := 400.
Definition HTTP_STATUS_NOT_FOUND : Z := 404.
Definition HTTP_STATUS_CONFLICT : Z := 409.
Definition HTTP_STATUS_GONE : Z := 410.
Definition HTTP_STATUS_INTERNAL_ERROR : Z := 500.

(** [e.status_code], for the subclasses of [LambdaError]. *)
Definition status_code (e : exn) : option Z :=
  match e with
  | ValidationError _ => Some HTTP_STATUS_BAD_REQUEST
  | NotFoundError _ => Some HTTP_STATUS_NOT_FOUND
  | ConflictError _ => Some HTTP_STATUS_CONFLICT
  | DatabaseError _ _ => Some 500
  | _ => None
  end.

(** [e.message], for the subclasses of [LambdaError]. *)
Definition message (e : exn) : option string :=
  match e with
  | ValidationError m | NotFoundError m | ConflictError m => Some m
  | DatabaseError m _ => Some ("Database error: " +:+ m)
  | _ => None
  end.

(** JSON values of the response bodies. *)
Inductive json :=
| JStr (s : string)
| JBool (b : bool)
| JNull.

Definition JOpt (o : option string) : json :=
  match o with Some s => JStr s | None => JNull end.

(** A Lambda response: the status, the [Location] header when there is
    one, and the members of the JSON body (none for a redirect, whose body
    is empty). *)
Record Response := mk_Response {
  statusCode : Z;
  location : option string;
  body : list (string * json)
}.

(** [extract_path_parameters], on [event.get('pathParameters', {})]: the
    path parameters API Gateway hands over, a dict from names to texts.
    The answer is [(short_id, stage, tenant)]. *)
Definition extract_path_parameters (path_params : gmap string string)
  : option string * option string * option string :=
  let short_id := path_params !! "shortId" in
  match path_params !! "proxy" with
  | Some proxy_path =>
      let path_parts := List.filter truthy (split "/" proxy_path) in
      if (4 <=? length path_parts)%nat then
        if String.eqb (nth 0 path_parts "") "stage"
           && String.eqb (nth 2 path_parts "") "tenant"
        then
          let stage := Some (nth 1 path_parts "") in
          let tenant := Some (nth 3 path_parts "") in
          if (4 <? length path_parts)%nat then
            let final := default "" (last path_parts) in
            (if negb (String.eqb final "shorten") then Some final else None,
             stage, tenant)
          else (short_id, stage, tenant)
        else (short_id, None, None)
      else if (length path_parts =? 1)%nat then
        (Some (nth 0 path_parts ""), None, None)
      else (short_id, None, None)
  | None => (short_id, None, None)
  end.

Definition create_json_response (status : Z) (b : list (string * json))
  : Response :=
  mk_Response status None b.

Definition create_redirect_response (loc : string) : Response :=
  mk_Response 302 (Some loc) [].

Definition create_error_response (status : Z) (error_message : string)
    (metric_name : string) : M Response :=
  add_metric metric_name;;
  mret (create_json_response status [("error", JStr error_message)]).

Definition get_current_timestamp : M string :=
  now ← datetime_now; mret (isoformat now).

End lambda_utils.

(* ===================================================================== *)
(** ** [commons/url_utils.py] *)
(* ===================================================================== *)

Module url_utils.
Import PyStr Datetime Re Env.

Definition SHORT_URL_LENGTH : nat := 6.
Definition DEFAULT_EXPIRY_DAYS : Z := 60.
Definition HASH_TRUNCATE_LENGTH : nat := 16.
Definition EXTENDED_HASH_LENGTH : nat := 24.
Definition CUSTOM_SUFFIX_MAX_LENGTH : nat := 20.
Definition CUSTOM_SUFFIX_MIN_LENGTH : nat := 3.

(** The character class [[a-zA-Z0-9_-]]. *)
Definition suffix_char (c : ascii) : bool :=
  alnum c || Ascii.eqb c "_" || Ascii.eqb c "-".

Definition _is_valid_custom_suffix (suffix : string) : bool :=
  if negb (truthy suffix) then false
  else if (String.length suffix <? CUSTOM_SUFFIX_MIN_LENGTH)%nat
          || (CUSTOM_SUFFIX_MAX_LENGTH <? String.length suffix)%nat
  then false
  else match_to_end (Plus (Class suffix_char)) suffix.

(** [base64.urlsafe_b64encode(bytes.fromhex(hash_hex[:n])).decode('utf-8')
    .replace('=', '')]. *)
Definition clean_b64_of (hash_hex : string) (n : nat) : M string :=
  raw ← or_raise (Hashlib.fromhex (prefix n hash_hex))
                 (ValueError "non-hexadecimal number found in fromhex() arg");
  let hash_b64 := Base64.urlsafe_b64encode raw in
  mret (remove_char "=" hash_b64).

Definition generate_short_url (long_url : string)
    (custom_suffix : option string) : M string :=
  if truthy_opt custom_suffix then
    let suffix := default "" custom_suffix in
    if negb (_is_valid_custom_suffix suffix) then
      raise (ValueError
               ("Custom suffix must be 3-20 alphanumeric characters, got: '"
                +:+ suffix +:+ "'"))
    else mret suffix
  else
    now ← datetime_now;
    let timestamp := str_timestamp now in
    let hash_input := Hashlib.encode (long_url +:+ timestamp) in
    let hash_hex := Hashlib.hexdigest hash_input in
    clean_b64 ← clean_b64_of hash_hex HASH_TRUNCATE_LENGTH;
    clean_b64 ← (if (String.length clean_b64 <? SHORT_URL_LENGTH)%nat
                 then clean_b64_of hash_hex EXTENDED_HASH_LENGTH
                 else mret clean_b64);
    mret (prefix SHORT_URL_LENGTH clean_b64).

(** Case-insensitive literals, for the patterns compiled with
    [re.IGNORECASE]. *)
Definition lower (c : ascii) : Z :=
  if is_upper c then code c + 32 else code c.
Definition ChrI (c : ascii) : re := Class (fun d => lower c =? lower d).
Fixpoint LitI (l : list ascii) : re :=
  match l with
  | [] => Eps
  | c :: t => Cat (ChrI c) (LitI t)
  end.
Definition lit (s : string) : re := LitI (chars s).
Definition digit : re := Class is_digit.
Definition alts (l : list re) : re := fold_right Alt Void l.

(** [^https?://(?:10\.|172\.(?:1[6-9]|2[0-9]|3[01])\.|192\.168\.|127\.
    |169\.254\.|0\.)] *)
Definition private_ip_pattern : re :=
  Cat (lit "http") (Cat (Opt (ChrI "s")) (Cat (lit "://")
    (alts [ lit "10.";
            Cat (lit "172.")
                (Cat (alts [ Cat (Chr "1") (Class (between "6" "9"));
                             Cat (Chr "2") digit;
                             Cat (Chr "3") (Class (between "0" "1")) ])
                     (Chr "."));
            lit "192.168.";
            lit "127.";
            lit "169.254.";
            lit "0." ]))).

(** [25[0-5]|2[0-4][0-9]|[01]?[0-9][0-9]?] *)
Definition octet : re :=
  alts [ Cat (lit "25") (Class (between "0" "5"));
         Cat (Chr "2") (Cat (Class (between "0" "4")) digit);
         Cat (Opt (Class (between "0" "1"))) (Cat digit (Opt digit)) ].

(** [^https?://(?:(?:[A-Z0-9](?:[A-Z0-9-]{0,61}[A-Z0-9])?\.)+[A-Z]{2,6}\.?
    |localhost|(?:octet\.){3}octet)(?::[0-9]+)?(?:/?|[/?]\S+)$] *)
Definition url_pattern : re :=
  let label :=
    Cat (Class alnum)
        (Cat (Opt (Cat (UpTo 61 (Class (fun c => alnum c || Ascii.eqb c "-")))
                       (Class alnum)))
             (Chr ".")) in
  let domain := Cat (Plus label) (Cat (Range 2 4 (Class letter)) (Opt (Chr "."))) in
  let ip := Cat (Times 3 (Cat octet (Chr "."))) octet in
  Cat (lit "http") (Cat (Opt (ChrI "s")) (Cat (lit "://")
    (Cat (alts [domain; lit "localhost"; ip])
         (Cat (Opt (Cat (Chr ":") (Plus digit)))
              (Alt (Opt (Chr "/"))
                   (Cat (Class (fun c => Ascii.eqb c "/" || Ascii.eqb c "?"))
                        (Plus (Class non_space)))))))).

Definition is_valid_url (url : string) : bool :=
  if negb (truthy url) || (2048 <? String.length url)%nat then false
  else if match_prefix private_ip_pattern url then false
  else match_to_end url_pattern url.

Definition calculate_expiry_date (days : Z) : M string :=
  if days <=? 0 then
    raise (ValueError ("Days must be positive, got: "
                       +:+ (if days <? 0 then "-" +:+ decimal (- days)
                            else decimal days)))
  else
    now ← datetime_now;
    expiry_date ← or_raise (add_days now days)
                           (OverflowError "date value out of range");
    mret (isoformat expiry_date).

(** The text [is_expired] hands to [fromisoformat]. *)
Definition normalize_expiry (expiry_date : string) : string :=
  if endswith "Z" expiry_date then drop_last expiry_date +:+ "+00:00"
  else if negb (contains "+" expiry_date) && contains "T" expiry_date
  then expiry_date +:+ "+00:00"
  else expiry_date.

Definition is_expired (expiry_date : option string) : M bool :=
  if negb (truthy_opt expiry_date) then mret true
  else
    let expiry_date := default "" expiry_date in
    try_except
      (let expiry_date := normalize_expiry expiry_date in
       expiry ← or_raise (fromisoformat expiry_date)
                         (ValueError ("Invalid isoformat string: '"
                                      +:+ expiry_date +:+ "'"));
       current_time ← datetime_now;
       let expiry :=
         match utcoffset expiry with
         | None => replace_tzinfo_utc expiry
         | Some _ => expiry
         end in
       mret (gt current_time expiry))
      (fun e =>
         match class_of e with
         | CValueError | CTypeError => Some (mret true)
         | _ => None
         end).

End url_utils.

(* ===================================================================== *)
(** ** The table ([boto3]'s [Table] resource) *)
(* ===================================================================== *)

Module Table.
Import PyStr Env.

Definition conditional_check_failed : ClientError :=
  mk_ClientError
    (Some "ConditionalCheckFailedException")
    (Some "The conditional request failed")
    "An error occurred (ConditionalCheckFailedException) when calling the PutItem operation: The conditional request failed".

(** [table.get_item(Key={'shortId': key}).get('Item')]. *)
Definition get_item (key : string) : M (option Item) :=
  f ← next_fault;
  record_call (GetItem key) f;;
  match f with
  | Some e => raise (BotoClientError e)
  | None => t ← get_table; mret (t !! key)
  end.

(** The items the query on the index [longUrl-index] keeps: those whose
    [longUrl] is [long_url] and whose [ttlTimestamp] exists and is greater
    than [now_seconds]. *)
Definition query_keeps (long_url : string) (now_seconds : Z) (it : Item)
  : bool :=
  bool_decide (longUrl it = Some long_url)
  && match ttlTimestamp it with
     | Some ttl => now_seconds <? ttl
     | None => false
     end.

(** [table.query(IndexName=..., KeyConditionExpression=...,
    FilterExpression=...).get('Items', [])]. *)
Definition query (long_url : string) (now_seconds : Z) : M (list Item) :=
  f ← next_fault;
  record_call (Query long_url now_seconds) f;;
  match f with
  | Some e => raise (BotoClientError e)
  | None =>
      t ← get_table;
      mret (List.filter (query_keeps long_url now_seconds) (map_to_list t).*2)
  end.

(** [table.put_item(Item=item,
    ConditionExpression='attribute_not_exists(shortId)')]. *)
Definition put_item (item : Item) : M unit :=
  f ← next_fault;
  t ← get_table;
  let answer :=
    match f with
    | Some e => Some e
    | None =>
        match t !! shortId item with
        | Some _ => Some conditional_check_failed
        | None => None
        end
    end in
  record_call (PutItem item) answer;;
  match answer with
  | Some e => raise (BotoClientError e)
  | None => set_table (<[shortId item := item]> t)
  end.

(** [table.update_item(Key={'shortId': key}, UpdateExpression='SET
    clickCount = if_not_exists(clickCount, :zero) + :inc, lastAccessedAt =
    :timestamp')]; an update of a missing key creates the item. *)
Definition update_item (key : string) (timestamp : string) : M unit :=
  f ← next_fault;
  record_call (UpdateItem key timestamp) f;;
  match f with
  | Some e => raise (BotoClientError e)
  | None =>
      t ← get_table;
      let old := default (mk_Item key None None None None None None) (t !! key) in
      set_table
        (<[key := mk_Item key (longUrl old) (createdAt old) (expiryDate old)
                          (ttlTimestamp old)
                          (Some (default 0 (clickCount old) + 1))
                          (Some timestamp)]> t)
  end.

End Table.

(* ===================================================================== *)
(** ** [commons/dynamodb_utils.py] *)
(* ===================================================================== *)

Module dynamodb_utils.
Import PyStr Datetime Env lambda_utils url_utils.

Definition _handle_client_error {A} (error : ClientError) (operation : string)
  : M A :=
  let error_code := default "Unknown" (Code error) in
  let error_message := default (text error) (Message error) in
  if String.eqb error_code "ConditionalCheckFailedException" then
    raise (ConflictError "Resource already exists or condition not met")
  else if String.eqb error_code "ResourceNotFoundException" then
    raise (NotFoundError "Resource not found")
  else
    raise (DatabaseError (operation +:+ " failed: " +:+ error_message)
                         (Some error)).

(** [except ClientError as e: _handle_client_error(e, operation)]. *)
Definition on_client_error {A} (operation : string) (e : exn) : option (M A) :=
  match e with
  | BotoClientError err => Some (_handle_client_error err operation)
  | _ => None
  end.

Definition table_not_configured {A} : M A :=
  raise (DatabaseError "DynamoDB table not configured" None).

Definition get_url_by_short_id (short_id : string) : M (option Item) :=
  configured ← is_configured;
  if negb configured then table_not_configured
  else try_except (Table.get_item short_id) (on_client_error "get_item").

(** [for item in items: if not is_expired(item.get('expiryDate', '')):
    return item], then [return None]. *)
Fixpoint first_not_expired (items : list Item) : M (option Item) :=
  match items with
  | [] => mret None
  | item :: rest =>
      expired ← is_expired (Some (default "" (expiryDate item)));
      if negb expired then mret (Some item) else first_not_expired rest
  end.

Definition find_existing_url (long_url : string) : M (option Item) :=
  configured ← is_configured;
  if negb configured then table_not_configured
  else
    try_except
      (now ← datetime_now;
       items ← Table.query long_url (int_timestamp now);
       first_not_expired items)
      (on_client_error "query_existing_url").

Definition create_url_mapping (short_id long_url expiry_date : string)
    (ttl_timestamp : Z) (click_count : Z) : M Item :=
  configured ← is_configured;
  if negb configured then table_not_configured
  else
    created_at ← get_current_timestamp;
    let item :=
      mk_Item short_id (Some long_url) (Some created_at) (Some expiry_date)
              (Some ttl_timestamp) (Some click_count) None in
    try_except
      (Table.put_item item;; mret item)
      (on_client_error "create_url_mapping").

Definition update_click_count (short_id : string) : M bool :=
  configured ← is_configured;
  if negb configured then mret false
  else
    try_except
      (timestamp ← get_current_timestamp;
       Table.update_item short_id timestamp;;
       mret true)
      (fun e =>
         match class_of e with
         | CClientError => Some (mret false)
         | _ => None
         end).

(** The dict [get_url_stats] answers. *)
Record UrlStats := mk_UrlStats {
  stats_shortId : option string;
  stats_longUrl : option string;
  stats_createdAt : option string;
  stats_expiryDate : option string;
  stats_clickCount : Z;
  stats_lastAccessedAt : option string;
  isExpired : bool
}.

Definition get_url_stats (short_id : string) : M (option UrlStats) :=
  item ← get_url_by_short_id short_id;
  match item with
  | None => mret None
  | Some item =>
      expired ← is_expired (Some (default "" (expiryDate item)));
      mret (Some (mk_UrlStats (Some (shortId item)) (longUrl item)
                              (createdAt item) (expiryDate item)
                              (default 0 (clickCount item))
                              (lastAccessedAt item) expired))
  end.

End dynamodb_utils.

(* ===================================================================== *)
(** ** The API Gateway event, as far as the handlers look at it *)
(* ===================================================================== *)

Module Gateway.

(** What [parse_request_body] makes of [event['body']]: nothing to parse,
    text that is not JSON, or an object with its [longUrl] and
    [customSuffix] members. *)
Inductive EventBody :=
| BodyMissing
| BodyNotJson
| BodyObject (body_longUrl body_customSuffix : option string).

(** [path_short_id] is the [short_id] that [extract_path_parameters] finds
    and [base_url] what [get_base_url] answers. *)
Record Event := mk_Event {
  path_short_id : option string;
  event_body : EventBody;
  base_url : string
}.

End Gateway.

(* ===================================================================== *)
(** ** [url_shortener_handlers/getOrCreateShortURL.py] *)
(* ===================================================================== *)

Module getOrCreateShortURL.
Import PyStr Datetime Env Gateway lambda_utils url_utils dynamodb_utils.

Definition DEFAULT_EXPIRY_DAYS : Z := 60.
Definition MAX_COLLISION_RETRIES : nat := 3.

(** The candidate of one attempt: the custom suffix on the first attempt
    when there is one, a generated code otherwise, with extra entropy from
    the second attempt on. *)
Definition next_short_id (attempt : nat) (long_url : string)
    (custom_suffix : option string) : M string :=
  if truthy_opt custom_suffix && (attempt =? 0)%nat then
    generate_short_url long_url custom_suffix
  else
    entropy_suffix ←
      (if (0 <? attempt)%nat then
         ts ← get_current_timestamp;
         mret ("_" +:+ decimal (Z.of_nat attempt) +:+ "_" +:+ ts)
       else mret "");
    generate_short_url (long_url +:+ entropy_suffix) None.

(** One pass of [for attempt in range(MAX_COLLISION_RETRIES)] for each
    member of [attempts]; falling out of the loop raises. *)
Fixpoint attempt_loop (attempts : list nat) (long_url : string)
    (custom_suffix : option string) (expiry_date : string)
    (ttl_timestamp : Z) : M (string * Item) :=
  match attempts with
  | [] => raise (DatabaseError "Unexpected error in short URL creation" None)
  | attempt :: rest =>
      short_id ← next_short_id attempt long_url custom_suffix;
      try_except
        (created_item ←
           create_url_mapping short_id long_url expiry_date ttl_timestamp 0;
         mret (short_id, created_item))
        (fun e =>
           match class_of e with
           | CConflictError =>
               Some
                 (if truthy_opt custom_suffix then raise e
                  else if (attempt =? MAX_COLLISION_RETRIES - 1)%nat then
                    raise (DatabaseError
                             "Unable to generate unique short URL after multiple attempts"
                             None)
                  else
                    add_metric "ShortIdCollision";;
                    attempt_loop rest long_url custom_suffix expiry_date
                                 ttl_timestamp)
           | _ => None
           end)
  end.

Definition create_short_url_with_retry (long_url : string)
    (custom_suffix : option string) : M (string * Item) :=
  expiry_date ← calculate_expiry_date DEFAULT_EXPIRY_DAYS;
  expiry_datetime ←
    (let s := if endswith "Z" expiry_date
              then replace_char "Z" "+00:00" expiry_date
              else expiry_date in
     or_raise (fromisoformat s)
              (ValueError ("Invalid isoformat string: '" +:+ s +:+ "'")));
  let expiry_datetime :=
    match utcoffset expiry_datetime with
    | None => replace_tzinfo_utc expiry_datetime
    | Some _ => expiry_datetime
    end in
  let ttl_timestamp := int_timestamp expiry_datetime in
  attempt_loop (seq 0 MAX_COLLISION_RETRIES) long_url custom_suffix
               expiry_date ttl_timestamp.

Definition parse_request_body (event : Event)
  : M (option string * option string) :=
  match event_body event with
  | BodyMissing => raise (ValueError "Request body is required")
  | BodyNotJson => raise (JSONDecodeError "Invalid JSON in request body")
  | BodyObject l s => mret (l, s)
  end.

(** [item[key]]. *)
Definition subscript {A} (o : option A) (key : string) : M A :=
  or_raise o (KeyError key).

Definition lambda_handler (event : Event) : M Response :=
  try_except
    ('(long_url, custom_suffix) ← parse_request_body event;
     if negb (truthy_opt long_url) then
       raise (ValidationError "Missing required field: longUrl")
     else
       let long_url := default "" long_url in
       if negb (is_valid_url long_url) then
         raise (ValidationError "Invalid URL format")
       else
         existing_item ← find_existing_url long_url;
         match existing_item with
         | Some existing_item =>
             add_metric "ExistingUrlReturned";;
             existing_long ← subscript (longUrl existing_item) "longUrl";
             existing_expiry ← subscript (expiryDate existing_item) "expiryDate";
             mret (create_json_response HTTP_STATUS_OK
                     [ ("shortUrl",
                        JStr (base_url event +:+ "/" +:+ shortId existing_item));
                       ("longUrl", JStr existing_long);
                       ("expiryDate", JStr existing_expiry);
                       ("created", JBool false) ])
         | None =>
             '(short_id, created_item) ←
               create_short_url_with_retry long_url custom_suffix;
             add_metric "NewUrlCreated";;
             created_expiry ← subscript (expiryDate created_item) "expiryDate";
             mret (create_json_response HTTP_STATUS_CREATED
                     [ ("shortUrl", JStr (base_url event +:+ "/" +:+ short_id));
                       ("longUrl", JStr long_url);
                       ("expiryDate", JStr created_expiry);
                       ("created", JBool true) ])
         end)
    (fun e =>
       Some
         match class_of e with
         | CValidationError =>
             create_error_response (default 500 (status_code e))
                                   (default "" (message e)) "ValidationErrors"
         | CConflictError =>
             create_error_response (default 500 (status_code e))
                                   (default "" (message e)) "CustomSuffixConflict"
         | CDatabaseError =>
             create_error_response (default 500 (status_code e))
                                   "Database operation failed" "DatabaseErrors"
         | CJSONDecodeError =>
             create_error_response HTTP_STATUS_BAD_REQUEST
                                   "Invalid JSON format" "JsonParseErrors"
         | _ =>
             create_error_response HTTP_STATUS_INTERNAL_ERROR
                                   "Internal server error" "UnexpectedErrors"
         end).

End getOrCreateShortURL.

(* ===================================================================== *)
(** ** [url_shortener_handlers/redirectURL.py] *)
(* ===================================================================== *)

Module redirectURL.
Import PyStr Datetime Env Gateway lambda_utils url_utils dynamodb_utils.

(** What the handler does with the outcome of the lookup. *)
Definition resolve_item (short_id : string) (item : option Item) : M Response :=
  match item with
  | None =>
      add_metric "UrlNotFound";;
      mret (create_json_response HTTP_STATUS_NOT_FOUND
              [ ("error", JStr "URL not found");
                ("message",
                 JStr "The short URL you're looking for doesn't exist.");
                ("shortId", JStr short_id) ])
  | Some item =>
      let long_url := longUrl item in
      let expiry_date := expiryDate item in
      expired ← is_expired expiry_date;
      if (expired : bool) then
        add_metric "UrlExpired";;
        mret (create_json_response HTTP_STATUS_GONE
                [ ("error", JStr "URL expired");
                  ("message",
                   JStr "This short URL has expired and is no longer valid.");
                  ("shortId", JStr short_id);
                  ("expiredAt", JOpt expiry_date) ])
      else
        click_updated ← update_click_count short_id;
        (* the log line slices [long_url[:50]] *)
        long_url ← or_raise long_url
                            (TypeError "'NoneType' object is not subscriptable");
        add_metric "SuccessfulRedirects";;
        mret (create_redirect_response long_url)
  end.

(** The [except] clauses. *)
Definition on_error (e : exn) : option (M Response) :=
  Some
    match class_of e with
    | CValidationError =>
        create_error_response (default 500 (status_code e))
                              (default "" (message e)) "MissingShortId"
    | CDatabaseError =>
        add_metric "DatabaseErrors";;
        mret (create_json_response HTTP_STATUS_INTERNAL_ERROR
                [ ("error", JStr "Service temporarily unavailable");
                  ("message", JStr "Please try again later.") ])
    | _ =>
        add_metric "UnexpectedErrors";;
        mret (create_json_response HTTP_STATUS_INTERNAL_ERROR
                [ ("error", JStr "Internal server error");
                  ("message", JStr "An unexpected error occurred.") ])
    end.

Definition lambda_handler (event : Event) : M Response :=
  try_except
    (let short_id := path_short_id event in
     if negb (truthy_opt short_id) then
       raise (ValidationError "Missing short URL identifier")
     else
       let short_id := default "" short_id in
       item ← get_url_by_short_id short_id;
       resolve_item short_id item)
    on_error.

End redirectURL.

(* ===================================================================== *)
(** * Verification *)
(* ===================================================================== *)

Import PyStr Datetime Env Gateway lambda_utils url_utils dynamodb_utils.

(** ** Notions used to state the properties *)

Definition is_byte (b : Z) : Prop := 0 <= b < 256.

Definition hex_pair (b : Z) : list ascii :=
  [Hashlib.hex_digit (b / 16); Hashlib.hex_digit (b mod 16)].

(** Membership in [[A-Za-z0-9_-]]. *)
Definition in_charset (c : ascii) : Prop := suffix_char c = true.

(** The text [clean_b64] made from the first [n] bytes of a digest. *)
Definition digest_code (d : list Z) (n : nat) : string :=
  remove_char "=" (Base64.urlsafe_b64encode (take n d)).

(** The code [generate_short_url] derives from [long_url] when the clock
    reads [now]. *)
Definition generated_code (long_url : string) (now : datetime) : string :=
  prefix 6
    (digest_code
       (Hashlib.sha256 (Hashlib.encode (long_url +:+ str_timestamp now))) 8).

(** The instant [is_expired] compares the clock with: none for an absent,
    empty or unparseable text. *)
Definition expiry_instant (expiry_date : option string) : option Z :=
  match expiry_date with
  | None => None
  | Some s =>
      if truthy s then d ← fromisoformat (normalize_expiry s); Some (utc_instant d)
      else None
  end.

Definition expired_at (t : Z) (expiry_date : option string) : bool :=
  match expiry_instant expiry_date with
  | None => true
  | Some x => x <? t
  end.

(** The fault in stock for the next store call. *)
Definition get_answer (w : World) : option ClientError := mjoin (head (faults w)).

(** The answer of the table to a conditional insert of [item]. *)
Definition put_answer (w : World) (item : Item) : option ClientError :=
  match mjoin (head (faults w)) with
  | Some e => Some e
  | None =>
      match table w !! shortId item with
      | Some _ => Some Table.conditional_check_failed
      | None => None
      end
  end.

Definition put_event (it : Item) (a : option ClientError) : StoreEvent :=
  mk_StoreEvent (PutItem it) a.

Definition after_put (w : World) (item : Item) : World :=
  let w' := log_call (put_event item (put_answer w item)) (pop_fault w) in
  match put_answer w item with
  | None => with_table (<[shortId item := item]> (table w)) w'
  | Some _ => w'
  end.

(** What [_handle_client_error] raises. *)
Definition client_error_exn (error : ClientError) (operation : string) : exn :=
  let error_code := default "Unknown" (Code error) in
  if String.eqb error_code "ConditionalCheckFailedException" then
    ConflictError "Resource already exists or condition not met"
  else if String.eqb error_code "ResourceNotFoundException" then
    NotFoundError "Resource not found"
  else DatabaseError (operation +:+ " failed: " +:+ default (text error) (Message error))
                     (Some error).

(** The item [create_url_mapping] builds. *)
Definition new_item (short_id long_url created_at expiry_date : string) (ttl : Z)
  : Item :=
  mk_Item short_id (Some long_url) (Some created_at) (Some expiry_date)
          (Some ttl) (Some 0) None.

(** The store calls made between two worlds of one run. *)
Definition new_calls (w w' : World) : list StoreEvent :=
  drop (length (trace w)) (trace w').

(** Whether [_handle_client_error] reads an error as "already exists". *)
Definition conflict_coded (e : ClientError) : bool :=
  String.eqb (default "Unknown" (Code e)) "ConditionalCheckFailedException".

(** How the store answered a conditional insert. *)
Inductive verdict := Accepted | AlreadyExists | Failed.

Definition verdict_of (a : option ClientError) : verdict :=
  match a with
  | None => Accepted
  | Some e => if conflict_coded e then AlreadyExists else Failed
  end.

(** The answers to the conditional inserts among [evs], in order. *)
Fixpoint put_verdicts (evs : list StoreEvent) : list verdict :=
  match evs with
  | [] => []
  | mk_StoreEvent (PutItem _) a :: t => verdict_of a :: put_verdicts t
  | _ :: t => put_verdicts t
  end.

(** The [k]-th reading of a clock. *)
Definition at_tick (clk : nat -> Z) (k : nat) : datetime :=
  mk_datetime (clk k) (Some 0).

(** The clock readings attempt [a] makes to find its candidate, the
    candidate itself and the item it tries to insert, when the attempt starts
    at reading [k]. *)
Definition candidate_ticks (s : option string) (a : nat) : nat :=
  if truthy_opt s && (a =? 0)%nat then 0%nat
  else if (0 <? a)%nat then 2%nat else 1%nat.

Definition candidate_of (clk : nat -> Z) (l : string) (s : option string)
    (a k : nat) : string :=
  if truthy_opt s && (a =? 0)%nat then default "" s
  else if (0 <? a)%nat then
    generated_code
      (l +:+ "_" +:+ decimal (Z.of_nat a) +:+ "_" +:+ isoformat (at_tick clk k))
      (at_tick clk (S k))
  else generated_code l (at_tick clk k).

Definition attempt_item (clk : nat -> Z) (l : string) (s : option string)
    (e : string) (ttl : Z) (a k : nat) : Item :=
  new_item (candidate_of clk l s a k) l
           (isoformat (at_tick clk (candidate_ticks s a + k))) e ttl.

(** The runs of the attempt loop from attempt [a] on, started at clock
    reading [k]: the store calls they make and how they end. *)
Section Outcome.
Variables (clk : nat -> Z) (l : string) (s : option string) (e : string) (ttl : Z).

Inductive outcome
  : nat -> nat -> list StoreEvent -> result (string * Item) -> Prop :=
| outcome_created a k :
    outcome a k [put_event (attempt_item clk l s e ttl a k) None]
            (Ok (candidate_of clk l s a k, attempt_item clk l s e ttl a k))
| outcome_conflict a k err :
    truthy_opt s = true -> conflict_coded err = true ->
    outcome a k [put_event (attempt_item clk l s e ttl a k) (Some err)]
            (Raise (ConflictError "Resource already exists or condition not met"))
| outcome_exhausted k err :
    truthy_opt s = false -> conflict_coded err = true ->
    outcome 2 k [put_event (attempt_item clk l s e ttl 2 k) (Some err)]
            (Raise (DatabaseError
                      "Unable to generate unique short URL after multiple attempts"
                      None))
| outcome_retry a k err evs r :
    truthy_opt s = false -> conflict_coded err = true -> a <> 2%nat ->
    outcome (S a) (S (candidate_ticks s a + k)) evs r ->
    outcome a k (put_event (attempt_item clk l s e ttl a k) (Some err) :: evs) r
| outcome_failure a k err :
    conflict_coded err = false ->
    outcome a k [put_event (attempt_item clk l s e ttl a k) (Some err)]
            (Raise (client_error_exn err "create_url_mapping"))
| outcome_invalid_suffix k :
    truthy_opt s = true -> _is_valid_custom_suffix (default "" s) = false ->
    outcome 0 k []
            (Raise (ValueError
                      ("Custom suffix must be 3-20 alphanumeric characters, got: '"
                       +:+ default "" s +:+ "'")))
| outcome_not_configured a k :
    outcome a k [] (Raise (DatabaseError "DynamoDB table not configured" None))
| outcome_fell_out k :
    outcome 3 k []
            (Raise (DatabaseError "Unexpected error in short URL creation" None)).
End Outcome.

(** A table that holds the one mapping [m], read at the instant [t]; and what
    the two paths make of [m] there: the deduplication lookup finds it, the
    resolve path redirects to it. *)
Definition single_world (t : Z) (m : Item) : World :=
  mk_World (fun _ => t) 0 true {[shortId m := m]} [] [] [].

Definition dedup_alive (t : Z) (m : Item) : bool :=
  match longUrl m with
  | Some l =>
      match fst (find_existing_url l (single_world t m)) with
      | Ok (Some _) => true
      | _ => false
      end
  | None => false
  end.

Definition resolve_alive (t : Z) (m : Item) : bool :=
  match fst (redirectURL.lambda_handler
               (mk_Event (Some (shortId m)) BodyMissing "") (single_world t m)) with
  | Ok resp => statusCode resp =? 302
  | Raise _ => false
  end.

(** ** Sample worlds and requests *)

(** 2025-11-29T08:00:00 UTC and 2026-01-28T08:00:00.200000 UTC. *)
Definition T0 : Z := 63900000000000000.
Definition T1 : Z := 63905184000200000.

(** A clock that stands at [t], an empty table, no fault in stock. *)
Definition quiet_world (t : Z) : World := mk_World (fun _ => t) 0 true ∅ [] [] [].

(** A clock that advances by a microsecond per reading from [t], an empty
    table and the faults [fs] in stock. *)
Definition scripted_world (t : Z) (fs : list (option ClientError)) : World :=
  mk_World (fun n => t + Z.of_nat n) 0 true ∅ fs [] [].

Definition already_exists : option ClientError :=
  Some Table.conditional_check_failed.

Definition throttled : ClientError :=
  mk_ClientError
    (Some "ProvisionedThroughputExceededException")
    (Some "The level of configured provisioned throughput for the table was exceeded")
    "An error occurred (ProvisionedThroughputExceededException) when calling the PutItem operation".

Definition create_event (long_url : string) (suffix : option string) : Event :=
  mk_Event None (BodyObject (Some long_url) suffix) "https://sho.rt".

(** A mapping created at 2025-11-29T08:00:00.5 for sixty days: its
    [ttlTimestamp] is its expiry instant cut to whole seconds. *)
Definition stale_ttl_mapping : Item :=
  mk_Item "MDco7R" (Some "https://example.com")
          (Some "2025-11-29T08:00:00.500000+00:00")
          (Some "2026-01-28T08:00:00.500000+00:00")
          (Some 1769587200) (Some 0) None.

(** A mapping whose expiry, 2025-03-02, lies before [T0]. *)
Definition lapsed_mapping : Item :=
  mk_Item "MDco7R" (Some "https://example.com")
          (Some "2025-01-01T00:00:00+00:00")
          (Some "2025-03-02T00:00:00+00:00") (Some 1740873600) (Some 3) None.

(** ** Notions for the store calls of the two paths *)

(** The item an update of the click counter leaves under [key]. *)
Definition clicked_item (key timestamp : string) (old : option Item) : Item :=
  let o := default (mk_Item key None None None None None None) old in
  mk_Item key (longUrl o) (createdAt o) (expiryDate o) (ttlTimestamp o)
          (Some (default 0 (clickCount o) + 1)) (Some timestamp).

(** The world after [update_click_count key] on a configured table. *)
Definition after_click (w : World) (key : string) : World :=
  let timestamp := isoformat (now_of w) in
  let w' := log_call (mk_StoreEvent (UpdateItem key timestamp) (get_answer w))
                     (pop_fault (tick w)) in
  match get_answer w with
  | None =>
      with_table (<[key := clicked_item key timestamp (table w !! key)]> (table w)) w'
  | Some _ => w'
  end.

(** The items the query of [find_existing_url long_url] finds in [w], and
    the world after it. *)
Definition query_items (w : World) (long_url : string) : list Item :=
  List.filter (Table.query_keeps long_url (int_timestamp (now_of w)))
              (map_to_list (table w)).*2.

Definition after_query (w : World) (long_url : string) : World :=
  log_call (mk_StoreEvent (Query long_url (int_timestamp (now_of w))) (get_answer w))
           (pop_fault (tick w)).

(** Two worlds that differ in nothing but the number of clock readings
    made. *)
Definition later (w w' : World) : Prop :=
  exists n : nat, w' = Nat.iter n tick w.

(** ** Notions for the answers of the two handlers *)

Definition error_body (error_message : string) : list (string * json) :=
  [("error", JStr error_message)].

(** What the [except] clauses of the create handler make of [e]: the
    response and the metric they count. *)
Definition create_failure (e : exn) : Response * string :=
  match class_of e with
  | CValidationError =>
      (create_json_response (default 500 (status_code e))
                            (error_body (default "" (message e))),
       "ValidationErrors")
  | CConflictError =>
      (create_json_response (default 500 (status_code e))
                            (error_body (default "" (message e))),
       "CustomSuffixConflict")
  | CDatabaseError =>
      (create_json_response (default 500 (status_code e))
                            (error_body "Database operation failed"),
       "DatabaseErrors")
  | CJSONDecodeError =>
      (create_json_response HTTP_STATUS_BAD_REQUEST (error_body "Invalid JSON format"),
       "JsonParseErrors")
  | _ =>
      (create_json_response HTTP_STATUS_INTERNAL_ERROR
                            (error_body "Internal server error"),
       "UnexpectedErrors")
  end.

(** The same for the resolve handler. *)
Definition redirect_failure (e : exn) : Response * string :=
  match class_of e with
  | CValidationError =>
      (create_json_response (default 500 (status_code e))
                            (error_body (default "" (message e))),
       "MissingShortId")
  | CDatabaseError =>
      (create_json_response HTTP_STATUS_INTERNAL_ERROR
         [ ("error", JStr "Service temporarily unavailable");
           ("message", JStr "Please try again later.") ],
       "DatabaseErrors")
  | _ =>
      (create_json_response HTTP_STATUS_INTERNAL_ERROR
         [ ("error", JStr "Internal server error");
           ("message", JStr "An unexpected error occurred.") ],
       "UnexpectedErrors")
  end.

(** The bodies of the two answers of the create handler. *)
Definition created_body (base short_id long_url expiry : string) (created : bool)
  : list (string * json) :=
  [ ("shortUrl", JStr (base +:+ "/" +:+ short_id));
    ("longUrl", JStr long_url);
    ("expiryDate", JStr expiry);
    ("created", JBool created) ].

(** A request to resolve [short_id]. *)
Definition resolve_event (short_id : string) : Event :=
  mk_Event (Some short_id) BodyMissing "".

(** ** Notions for the calendar and for the patterns *)

(** The days a [datetime] can hold are 1 (0001-01-01) to [MAX_ORDINAL]
    (9999-12-31), and its instants the microseconds of those days. *)
Definition MAX_ORDINAL : Z := days_before_year (MAXYEAR + 1).

Definition in_range (t : Z) : Prop := 0 <= t < MAX_ORDINAL * US_PER_DAY.

(** [P] on [fuel] successive integers from [i] on. *)
Fixpoint all_from (fuel : nat) (i : Z) (P : Z -> bool) : bool :=
  match fuel with
  | O => true
  | S f => P i && all_from f (i + 1) P
  end.

(** Day [n] of the first 400 years is split by [ord2ymd] into a date that
    exists, in a year up to 400 (up to 399 before the last year begins), and
    [ymd2ord] leads back to [n]. *)
Definition date_ok (n : Z) : bool :=
  let '(y, m, d) := ord2ymd n in
  (1 <=? y) && (y <=? 400) && ((145731 <? n) || (y <=? 399))
  && (1 <=? m) && (m <=? 12) && (1 <=? d) && (d <=? days_in_month y m)
  && (ymd2ord y m d =? n).

(** The texts a pattern matches in full. *)
Inductive lang : Re.re -> list ascii -> Prop :=
| lang_eps : lang Re.Eps []
| lang_class p c : p c = true -> lang (Re.Class p) [c]
| lang_cat a b l1 l2 : lang a l1 -> lang b l2 -> lang (Re.Cat a b) (l1 ++ l2)
| lang_alt_l a b l : lang a l -> lang (Re.Alt a b) l
| lang_alt_r a b l : lang b l -> lang (Re.Alt a b) l
| lang_star_nil a : lang (Re.Star a) []
| lang_star_cons a l1 l2 :
    lang a l1 -> lang (Re.Star a) l2 -> lang (Re.Star a) (l1 ++ l2).

(** Every character class of [r] lies within [q]. *)
Fixpoint classes_within (q : ascii -> bool) (r : Re.re) : Prop :=
  match r with
  | Re.Void | Re.Eps => True
  | Re.Class p => forall c, p c = true -> q c = true
  | Re.Cat a b | Re.Alt a b => classes_within q a /\ classes_within q b
  | Re.Star a => classes_within q a
  end.



(** The characters of what [isoformat] writes up to a negative offset and
    in it: digits and the marks [-], [:], [T] and [.]. *)
Definition iso_char (c : ascii) : bool :=
  is_digit c || Ascii.eqb c "-" || Ascii.eqb c ":" || Ascii.eqb c "T"
  || Ascii.eqb c ".".

(** A line feed, which ['$'] lets through at the end of a text. *)
Definition LF : string := String "010" "".



(* ===================================================================== *)
(** ** The model against the repository's unit tests *)
(* ===================================================================== *)

(** [test_generate_short_url_with_valid_custom_suffix] and
    [..._with_invalid_custom_suffix]. *)
Example custom_suffix_tests :
  List.map _is_valid_custom_suffix
           ["custom123"; "ab"; "aaaaaaaaaaaaaaaaaaaaa"; "custom@123"; " "]
  = [true; false; false; false; false].
Proof. reflexivity. Qed.

(** [test_is_valid_url_valid_cases] and [test_is_valid_url_invalid_cases]. *)
Example valid_url_tests :
  forallb is_valid_url
          [ "https://example.com"; "http://example.com"; "https://sub.example.com";
            "https://example.com/path"; "https://example.com:8080";
            "http://localhost:3000";
            "https://example.com/path/to/resource?query=value#fragment" ]
  = true.
Proof. vm_compute. reflexivity. Qed.

Example invalid_url_tests :
  existsb is_valid_url
          [ "not-a-url"; "ftp://example.com"; "example.com"; ""; "https://";
            "http://"; "https://999.999.999.999"; "https://256.1.1.1" ]
  = false.
Proof. vm_compute. reflexivity. Qed.

(** [test_is_expired_invalid_formats], and the text with both an offset and
    a [Z] of [test_is_expired_future_date], which the test expects to be
    reported expired. *)
Example is_expired_tests :
  List.map (fun e => fst (is_expired e (quiet_world T0)))
           [ Some "invalid-date"; Some ""; None; Some "2024-13-45T25:70:80";
             Some "not-a-date-at-all"; Some "2025-11-30T08:00:00+00:00Z";
             Some "2025-11-30T08:00:00+00:00"; Some "2025-11-30T08:00:00";
             Some "2025-11-28T08:00:00+00:00" ]
  = [Ok true; Ok true; Ok true; Ok true; Ok true; Ok true;
     Ok false; Ok false; Ok true].
Proof. vm_compute. reflexivity. Qed.

(** At the very instant of expiry a mapping is still alive; a microsecond
    later it is not. *)
Example is_expired_at_the_instant :
  isoformat (now_of (quiet_world T0)) = "2025-11-29T08:00:00+00:00"
  /\ fst (is_expired (Some "2025-11-29T08:00:00+00:00") (quiet_world T0)) = Ok false
  /\ fst (is_expired (Some "2025-11-29T08:00:00+00:00") (quiet_world (T0 + 1)))
     = Ok true.
Proof. vm_compute. repeat split. Qed.

(** [test_calculate_expiry_date_invalid_days] and [..._custom_days]. *)
Example calculate_expiry_date_tests :
  List.map (fun d => fst (calculate_expiry_date d (quiet_world T0))) [0; -1; 30]
  = [ Raise (ValueError "Days must be positive, got: 0");
      Raise (ValueError "Days must be positive, got: -1");
      Ok "2025-12-29T08:00:00+00:00" ].
Proof. vm_compute. reflexivity. Qed.

(* ===================================================================== *)
(** ** Strings, digests and the generated code *)
(* ===================================================================== *)

(** One step of a computation in [M], and as many as there are. *)
Ltac mstep :=
  unfold mbind, M_bind, bind, mret, M_ret, ret, raise, or_raise, try_except,
    datetime_now, get_current_timestamp, add_metric, is_configured, get_table,
    set_table, next_fault, record_call;
  cbv beta iota.
Ltac msimpl := repeat (progress mstep).

Lemma chars_str (l : list ascii) : chars (str l) = l.
Proof. apply list_ascii_of_string_of_list_ascii. Qed.

Lemma str_chars (s : string) : str (chars s) = s.
Proof. apply string_of_list_ascii_of_string. Qed.

Lemma length_str (l : list ascii) : String.length (str l) = length l.
Proof. induction l as [|c l IH]; simpl; [reflexivity | now rewrite IH]. Qed.

Lemma length_chars (s : string) : String.length s = length (chars s).
Proof. now rewrite <- (str_chars s) at 1; rewrite length_str. Qed.

Lemma app_empty_r (s : string) : s +:+ EmptyString = s.
Proof.
  induction s as [|c s IH]; [reflexivity|].
  change (String c (s +:+ EmptyString) = String c s). now rewrite IH.
Qed.

Lemma be_bytes_4 (x : Z) : Forall is_byte (Hashlib.be_bytes 4 x).
Proof.
  unfold Hashlib.be_bytes; simpl.
  repeat constructor; apply Z.mod_pos_bound; lia.
Qed.

Lemma sha256_length (msg : list Z) : length (Hashlib.sha256 msg) = 32%nat.
Proof.
  unfold Hashlib.sha256.
  destruct (fold_left _ _ _) as [[[[[[[a b] c] d] e] f] g] h].
  reflexivity.
Qed.

Lemma sha256_bytes (msg : list Z) : Forall is_byte (Hashlib.sha256 msg).
Proof.
  unfold Hashlib.sha256.
  destruct (fold_left _ _ _) as [[[[[[[a b] c] d] e] f] g] h].
  repeat (apply Forall_app; split); apply be_bytes_4.
Qed.

(** The model against the digests [hashlib] gives. *)
Example sha256_abc :
  Hashlib.hexdigest (Hashlib.encode "abc")
  = "ba7816bf8f01cfea414140de5dae2223b00361a396177a9cb410ff61f20015ad".
Proof. vm_compute. reflexivity. Qed.

Example sha256_two_blocks :
  Hashlib.hexdigest (repeat 97 100)
  = "2816597888e4a0d3a36b82b83316ab32680eb8f00f8cd3b904d681246d285a0e".
Proof. vm_compute. reflexivity. Qed.

Lemma hex_value_digit (n : Z) :
  0 <= n < 16 -> Hashlib.hex_value (Hashlib.hex_digit n) = Some n.
Proof.
  intros Hn.
  replace n with (Z.of_nat (Z.to_nat n)) by lia.
  assert (Hk : (Z.to_nat n < 16)%nat) by lia.
  revert Hk; generalize (Z.to_nat n) as k; intros k Hk.
  do 16 (destruct k as [|k]; [reflexivity|]).
  lia.
Qed.

Lemma fromhex_hex_pairs (l : list Z) :
  Forall is_byte l -> Hashlib.fromhex_chars (flat_map hex_pair l) = Some l.
Proof.
  induction 1 as [|b l Hb Hl IH]; [reflexivity|].
  unfold is_byte in Hb.
  cbn [flat_map hex_pair app Hashlib.fromhex_chars].
  assert (Hhi : 0 <= b / 16 < 16)
    by (split; [apply Z.div_pos | apply Z.div_lt_upper_bound]; lia).
  assert (Hlo : 0 <= b mod 16 < 16) by (apply Z.mod_pos_bound; lia).
  rewrite (hex_value_digit _ Hhi), (hex_value_digit _ Hlo), IH.
  cbn. f_equal. f_equal. rewrite (Z.div_mod b 16) at 3 by lia. lia.
Qed.

Lemma take_hex_pairs (n : nat) (l : list Z) :
  take (2 * n) (flat_map hex_pair l) = flat_map hex_pair (take n l).
Proof.
  revert l; induction n as [|n IH]; intros l; [reflexivity|].
  destruct l as [|b l]; [reflexivity|].
  replace (2 * S n)%nat with (S (S (2 * n))) by lia.
  cbn [flat_map hex_pair app take]. now rewrite IH.
Qed.

Lemma fromhex_prefix (n : nat) (d : list Z) :
  Forall is_byte d ->
  Hashlib.fromhex (prefix (2 * n) (Hashlib.hex d)) = Some (take n d).
Proof.
  intros Hd. unfold Hashlib.fromhex, prefix, Hashlib.hex.
  rewrite !chars_str.
  change (flat_map _ d) with (flat_map hex_pair d).
  rewrite take_hex_pairs. apply fromhex_hex_pairs.
  now apply Forall_take.
Qed.

Lemma enc_charset (n : Z) : in_charset (Base64.enc n).
Proof.
  unfold Base64.enc, in_charset.
  assert (Hall : forallb suffix_char Base64.alphabet = true) by reflexivity.
  rewrite forallb_forall in Hall.
  destruct (nth_in_or_default (Z.to_nat n) Base64.alphabet "A"%char) as [Hin | ->].
  - now apply Hall.
  - reflexivity.
Qed.

Lemma charset_not_pad (c : ascii) :
  in_charset c -> negb (Ascii.eqb "=" c) = true.
Proof.
  unfold in_charset.
  destruct (Ascii.eqb_spec "="%char c) as [<- | Hne]; [|reflexivity].
  vm_compute. discriminate.
Qed.

Lemma remove_pad_chars (body pad : list ascii) :
  Forall in_charset body -> Forall (eq "="%char) pad ->
  chars (remove_char "=" (str (body ++ pad))) = body.
Proof.
  intros Hb Hp. unfold remove_char. rewrite !chars_str.
  rewrite List.filter_app.
  replace (List.filter _ pad) with (@nil ascii).
  - rewrite app_nil_r. induction Hb as [|c l Hc Hl IH]; [reflexivity|].
    cbn [List.filter]. rewrite (charset_not_pad c Hc). now rewrite IH.
  - induction Hp as [|c l <- Hl IH]; [reflexivity|]. cbn. exact IH.
Qed.

(** Eight bytes give eleven characters and one pad. *)
Lemma digest_code_8 (d : list Z) :
  (8 <= length d)%nat ->
  length (chars (digest_code d 8)) = 11%nat
  /\ Forall in_charset (chars (digest_code d 8)).
Proof.
  intros Hlen.
  do 8 (destruct d as [|? d]; [cbn in Hlen; lia|]).
  unfold digest_code, Base64.urlsafe_b64encode.
  cbn [take Base64.urlsafe_b64encode_chars app].
  match goal with
  | |- context [str ?l] => change l with (removelast l ++ ["="%char])
  end.
  rewrite remove_pad_chars.
  - split; [reflexivity|]. cbn [removelast]. repeat constructor; apply enc_charset.
  - cbn [removelast]. repeat constructor; apply enc_charset.
  - repeat constructor.
Qed.

(** Twelve bytes give sixteen characters and no pad. *)
Lemma digest_code_12 (d : list Z) :
  (12 <= length d)%nat ->
  length (chars (digest_code d 12)) = 16%nat
  /\ Forall in_charset (chars (digest_code d 12)).
Proof.
  intros Hlen.
  do 12 (destruct d as [|? d]; [cbn in Hlen; lia|]).
  unfold digest_code, Base64.urlsafe_b64encode.
  cbn [take Base64.urlsafe_b64encode_chars app].
  match goal with
  | |- context [str ?l] => rewrite <- (app_nil_r l)
  end.
  rewrite remove_pad_chars.
  - split; [reflexivity|]. repeat constructor; apply enc_charset.
  - repeat constructor; apply enc_charset.
  - constructor.
Qed.

Lemma clean_b64_of_run (msg : list Z) (n : nat) (w : World) :
  clean_b64_of (Hashlib.hexdigest msg) (2 * n) w
  = (Ok (digest_code (Hashlib.sha256 msg) n), w).
Proof.
  unfold clean_b64_of, Hashlib.hexdigest.
  rewrite (fromhex_prefix n _ (sha256_bytes msg)).
  reflexivity.
Qed.

(** Without a usable suffix, [generate_short_url] reads the clock once and
    answers the generated code. *)
Lemma generate_short_url_generated (long_url : string)
    (custom_suffix : option string) (w : World) :
  truthy_opt custom_suffix = false ->
  generate_short_url long_url custom_suffix w
  = (Ok (generated_code long_url (now_of w)), tick w).
Proof.
  intros Hs. unfold generate_short_url. rewrite Hs.
  unfold mbind, M_bind, bind, datetime_now.
  change HASH_TRUNCATE_LENGTH with (2 * 8)%nat.
  rewrite clean_b64_of_run. cbv beta iota.
  destruct (digest_code_8
              (Hashlib.sha256 (Hashlib.encode (long_url +:+ str_timestamp (now_of w)))))
    as [Hlen _]; [rewrite sha256_length; lia|].
  rewrite length_chars, Hlen.
  reflexivity.
Qed.

Lemma generated_code_shape (long_url : string) (now : datetime) :
  String.length (generated_code long_url now) = 6%nat
  /\ Forall in_charset (chars (generated_code long_url now)).
Proof.
  unfold generated_code, prefix.
  destruct (digest_code_8
              (Hashlib.sha256 (Hashlib.encode (long_url +:+ str_timestamp now))))
    as [Hlen Hcs]; [rewrite sha256_length; lia|].
  rewrite length_str, chars_str. split.
  - rewrite length_take. lia.
  - now apply Forall_take.
Qed.

(** C7: for every long URL and every reading of the clock, the generated
    (non-custom) code has exactly six characters, all from [A-Za-z0-9_-]; it
    is the six-character prefix of the cleaned base64 text of the first
    sixteen hexadecimal digits of the digest, or of the first twenty-four
    should the former be shorter than six, and either text has at least six
    characters (eleven and sixteen), so six are always produced. *)
Theorem generated_code_six_chars (long_url : string) (w : World) :
  let hash_hex :=
    Hashlib.hexdigest (Hashlib.encode (long_url +:+ str_timestamp (now_of w))) in
  exists code clean16 clean24 : string,
    fst (generate_short_url long_url None w) = Ok code
    /\ String.length code = 6%nat
    /\ Forall in_charset (chars code)
    /\ fst (clean_b64_of hash_hex HASH_TRUNCATE_LENGTH (tick w)) = Ok clean16
    /\ fst (clean_b64_of hash_hex EXTENDED_HASH_LENGTH (tick w)) = Ok clean24
    /\ code = prefix SHORT_URL_LENGTH
                (if (String.length clean16 <? SHORT_URL_LENGTH)%nat
                 then clean24 else clean16)
    /\ (SHORT_URL_LENGTH <= String.length clean16)%nat
    /\ (SHORT_URL_LENGTH <= String.length clean24)%nat.
Proof.
  intros hash_hex.
  set (d := Hashlib.sha256 (Hashlib.encode (long_url +:+ str_timestamp (now_of w)))).
  destruct (digest_code_8 d) as [H16 _]; [unfold d; rewrite sha256_length; lia|].
  destruct (digest_code_12 d) as [H24 _]; [unfold d; rewrite sha256_length; lia|].
  destruct (generated_code_shape long_url (now_of w)) as [Hlen Hcs].
  exists (generated_code long_url (now_of w)), (digest_code d 8), (digest_code d 12).
  rewrite generate_short_url_generated by reflexivity.
  change HASH_TRUNCATE_LENGTH with (2 * 8)%nat.
  change EXTENDED_HASH_LENGTH with (2 * 12)%nat.
  unfold hash_hex. rewrite !clean_b64_of_run.
  rewrite !length_chars, H16, H24.
  repeat split; try assumption; try (unfold SHORT_URL_LENGTH; lia).
  rewrite <- length_chars. exact Hlen.
Qed.

(** C10: an empty custom suffix is treated like an absent one: although the
    empty string is not a valid suffix, [generate_short_url] with [""] does
    what it does with [None] and answers a generated six-character code. *)
Theorem empty_suffix_generates (long_url : string) (w : World) :
  _is_valid_custom_suffix "" = false
  /\ generate_short_url long_url (Some "") w = generate_short_url long_url None w
  /\ exists code : string,
       fst (generate_short_url long_url (Some "") w) = Ok code
       /\ String.length code = 6%nat
       /\ Forall in_charset (chars code).
Proof.
  split; [reflexivity|]. split.
  - now rewrite !generate_short_url_generated.
  - exists (generated_code long_url (now_of w)).
    rewrite generate_short_url_generated by reflexivity.
    destruct (generated_code_shape long_url (now_of w)) as [Hlen Hcs].
    now repeat split.
Qed.

(* ===================================================================== *)
(** ** The expiry evaluator *)
(* ===================================================================== *)

Lemma is_expired_run (expiry_date : option string) (w : World) :
  is_expired expiry_date w
  = match expiry_instant expiry_date with
    | None => (Ok true, w)
    | Some t => (Ok (t <? utc_instant (now_of w)), tick w)
    end.
Proof.
  unfold is_expired, expiry_instant.
  destruct expiry_date as [s|]; [|reflexivity].
  cbn [truthy_opt default from_option id].
  destruct (truthy s); [|reflexivity]. cbn [negb].
  unfold try_except, mbind, M_bind, bind, or_raise.
  destruct (fromisoformat (normalize_expiry s)) as [d|]; [|reflexivity].
  cbn. unfold gt. destruct d as [wl [off|]]; reflexivity.
Qed.

Lemma expiry_instant_default (e : option string) :
  expiry_instant (Some (default "" e)) = expiry_instant e.
Proof. destruct e; reflexivity. Qed.

(** C8: [is_expired] answers true for an absent or empty input and for a text
    that, once normalized, [fromisoformat] rejects; for a text it parses it
    answers whether the parsed instant is strictly before the clock's
    reading, so an expiry equal to the reading is not expired. *)
Theorem is_expired_fail_safe_and_strict (expiry_date : option string) (w : World) :
  fst (is_expired expiry_date w)
  = Ok (match expiry_date with
        | None => true
        | Some s =>
            if truthy s then
              match fromisoformat (normalize_expiry s) with
              | None => true
              | Some d => utc_instant d <? utc_instant (now_of w)
              end
            else true
        end).
Proof.
  rewrite is_expired_run. unfold expiry_instant.
  destruct expiry_date as [s|]; [|reflexivity].
  destruct (truthy s); [|reflexivity].
  now destruct (fromisoformat (normalize_expiry s)).
Qed.

(** C1 (the code departs from it): with the clock at 2025-11-29, the text
    [2999-01-01T00:00:00-05:00] denotes a future instant with an explicit
    offset, yet [is_expired] answers true: having no ['+'], the text gets a
    second offset appended and no longer parses.  The same instant written
    with [+05:00] is reported alive. *)
Theorem negative_offset_reported_expired :
  let w := quiet_world T0 in
  fromisoformat "2999-01-01T00:00:00-05:00"
  = Some (mk_datetime 94607740800000000 (Some (-18000000000)))
  /\ utc_instant (now_of w) < 94607740800000000 - (-18000000000)
  /\ normalize_expiry "2999-01-01T00:00:00-05:00" = "2999-01-01T00:00:00-05:00+00:00"
  /\ fromisoformat "2999-01-01T00:00:00-05:00+00:00" = None
  /\ fst (is_expired (Some "2999-01-01T00:00:00-05:00") w) = Ok true
  /\ fst (is_expired (Some "2999-01-01T00:00:00+05:00") w) = Ok false.
Proof. vm_compute. repeat split; reflexivity. Qed.

(* ===================================================================== *)
(** ** The store calls *)
(* ===================================================================== *)

Lemma run_eta {A} (m : M A) (w : World) : m w = (fst (m w), snd (m w)).
Proof. apply surjective_pairing. Qed.

Lemma new_calls_app (w w' : World) (evs : list StoreEvent) :
  trace w' = trace w ++ evs -> new_calls w w' = evs.
Proof. intros H. unfold new_calls. rewrite H. apply drop_app_length. Qed.

Lemma handle_client_error_run {A} (error : ClientError) (operation : string)
    (w : World) :
  @_handle_client_error A error operation w
  = (Raise (client_error_exn error operation), w).
Proof.
  unfold _handle_client_error, client_error_exn.
  destruct (String.eqb _ "ConditionalCheckFailedException"); [reflexivity|].
  destruct (String.eqb _ "ResourceNotFoundException"); reflexivity.
Qed.

Lemma class_of_client_error (err : ClientError) (op : string) :
  class_of (client_error_exn err op)
  = if conflict_coded err then CConflictError
    else if String.eqb (default "Unknown" (Code err)) "ResourceNotFoundException"
    then CNotFoundError else CDatabaseError.
Proof.
  unfold client_error_exn, conflict_coded.
  destruct (String.eqb _ "ConditionalCheckFailedException"); [reflexivity|].
  destruct (String.eqb _ "ResourceNotFoundException"); reflexivity.
Qed.

Lemma client_error_conflict (err : ClientError) (op : string) :
  conflict_coded err = true ->
  client_error_exn err op
  = ConflictError "Resource already exists or condition not met".
Proof. unfold client_error_exn, conflict_coded. now intros ->. Qed.

Lemma put_item_run (item : Item) (w : World) :
  Table.put_item item w
  = (match put_answer w item with
     | None => Ok tt
     | Some e => Raise (BotoClientError e)
     end, after_put w item).
Proof.
  unfold Table.put_item, after_put, put_answer, put_event. msimpl.
  cbn [table pop_fault faults].
  destruct (mjoin (head (faults w))) as [e|]; [reflexivity|].
  destruct (table w !! shortId item); reflexivity.
Qed.

Lemma after_put_facts (w : World) (it : Item) :
  trace (after_put w it) = trace w ++ [put_event it (put_answer w it)]
  /\ clock (after_put w it) = clock w
  /\ ticks (after_put w it) = ticks w
  /\ table (after_put w it)
     = match put_answer w it with
       | None => <[shortId it := it]> (table w)
       | Some _ => table w
       end.
Proof. unfold after_put. destruct (put_answer w it); repeat split. Qed.

Lemma get_url_by_short_id_run (short_id : string) (w : World) :
  get_url_by_short_id short_id w
  = if table_configured w then
      (match get_answer w with
       | Some e => Raise (client_error_exn e "get_item")
       | None => Ok (table w !! short_id)
       end,
       log_call (mk_StoreEvent (GetItem short_id) (get_answer w)) (pop_fault w))
    else (Raise (DatabaseError "DynamoDB table not configured" None), w).
Proof.
  unfold get_url_by_short_id, table_not_configured, get_answer.
  unfold mbind at 1, M_bind at 1, bind at 1, is_configured.
  destruct (table_configured w); [|reflexivity]. cbn [negb].
  unfold Table.get_item. msimpl.
  destruct (mjoin (head (faults w))) as [e|]; [|reflexivity].
  cbn [on_client_error]. now rewrite handle_client_error_run.
Qed.

Lemma create_url_mapping_run (short_id long_url expiry_date : string) (ttl : Z)
    (w : World) :
  create_url_mapping short_id long_url expiry_date ttl 0 w
  = if table_configured w then
      let item :=
        new_item short_id long_url (isoformat (now_of w)) expiry_date ttl in
      (match put_answer (tick w) item with
       | None => Ok item
       | Some e => Raise (client_error_exn e "create_url_mapping")
       end, after_put (tick w) item)
    else (Raise (DatabaseError "DynamoDB table not configured" None), w).
Proof.
  unfold create_url_mapping, table_not_configured.
  unfold mbind at 1, M_bind at 1, bind at 1, is_configured.
  destruct (table_configured w) eqn:Hc; [|reflexivity]. cbn [negb].
  msimpl. rewrite put_item_run.
  fold (new_item short_id long_url (isoformat (now_of w)) expiry_date ttl).
  cbv zeta.
  destruct (put_answer _ _) as [e|]; [|reflexivity].
  cbn [on_client_error]. now rewrite handle_client_error_run.
Qed.

(* ===================================================================== *)
(** ** The creation orchestrator *)
(* ===================================================================== *)

Import getOrCreateShortURL.

Lemma now_of_at_tick (w : World) : now_of w = at_tick (clock w) (ticks w).
Proof. reflexivity. Qed.

Lemma iter_tick_facts (n : nat) (w : World) :
  trace (Nat.iter n tick w) = trace w
  /\ clock (Nat.iter n tick w) = clock w
  /\ ticks (Nat.iter n tick w) = (n + ticks w)%nat
  /\ table (Nat.iter n tick w) = table w
  /\ table_configured (Nat.iter n tick w) = table_configured w.
Proof.
  induction n as [|n IH]; [now repeat split|].
  rewrite Nat.iter_succ. destruct IH as (H1 & H2 & H3 & H4 & H5).
  cbn [tick trace clock ticks table table_configured].
  repeat split; try assumption.
  now rewrite H3.
Qed.

Lemma next_short_id_run (attempt : nat) (long_url : string)
    (custom_suffix : option string) (w : World) :
  next_short_id attempt long_url custom_suffix w
  = if truthy_opt custom_suffix && (attempt =? 0)%nat then
      generate_short_url long_url custom_suffix w
    else if (0 <? attempt)%nat then
      (Ok (generated_code
             (long_url +:+ "_" +:+ decimal (Z.of_nat attempt) +:+ "_"
              +:+ isoformat (now_of w))
             (now_of (tick w))),
       tick (tick w))
    else (Ok (generated_code long_url (now_of w)), tick w).
Proof.
  unfold next_short_id.
  destruct (truthy_opt custom_suffix && (attempt =? 0)%nat); [reflexivity|].
  unfold mbind at 1, M_bind at 1, bind at 1.
  destruct (0 <? attempt)%nat.
  - msimpl. now rewrite generate_short_url_generated.
  - msimpl. rewrite app_empty_r. now rewrite generate_short_url_generated.
Qed.

(** The candidate of an attempt: found after [candidate_ticks] readings of
    the clock, unless the custom suffix is refused. *)
Lemma next_short_id_cases (a : nat) (l : string) (s : option string) (w : World) :
  (next_short_id a l s w
   = (Ok (candidate_of (clock w) l s a (ticks w)),
      Nat.iter (candidate_ticks s a) tick w))
  \/ (a = 0%nat /\ truthy_opt s = true
      /\ _is_valid_custom_suffix (default "" s) = false
      /\ next_short_id a l s w
         = (Raise (ValueError
                     ("Custom suffix must be 3-20 alphanumeric characters, got: '"
                      +:+ default "" s +:+ "'")), w)).
Proof.
  rewrite next_short_id_run. unfold candidate_of, candidate_ticks.
  destruct (truthy_opt s && (a =? 0)%nat) eqn:Hc.
  - apply andb_true_iff in Hc as [Hs Ha]. apply Nat.eqb_eq in Ha.
    unfold generate_short_url. rewrite Hs.
    destruct (_is_valid_custom_suffix (default "" s)) eqn:Hv.
    + left. reflexivity.
    + right. now repeat split.
  - left. destruct (0 <? a)%nat; reflexivity.
Qed.

(** One pass of the loop, spelled out. *)
Lemma attempt_loop_step (attempt : nat) (rest : list nat) (long_url : string)
    (custom_suffix : option string) (expiry_date : string) (ttl : Z) (w : World) :
  attempt_loop (attempt :: rest) long_url custom_suffix expiry_date ttl w
  = match next_short_id attempt long_url custom_suffix w with
    | (Raise ex, w1) => (Raise ex, w1)
    | (Ok short_id, w1) =>
        match create_url_mapping short_id long_url expiry_date ttl 0 w1 with
        | (Ok item, w2) => (Ok (short_id, item), w2)
        | (Raise ex, w2) =>
            match class_of ex with
            | CConflictError =>
                if truthy_opt custom_suffix then (Raise ex, w2)
                else if (attempt =? 2)%nat then
                  (Raise (DatabaseError
                            "Unable to generate unique short URL after multiple attempts"
                            None), w2)
                else attempt_loop rest long_url custom_suffix expiry_date ttl
                                  (log_metric "ShortIdCollision" w2)
            | _ => (Raise ex, w2)
            end
        end
    end.
Proof.
  cbn [attempt_loop]. unfold mbind at 1, M_bind at 1, bind at 1.
  destruct (next_short_id attempt long_url custom_suffix w) as [[short_id|ex] w1];
    [|reflexivity].
  msimpl.
  destruct (create_url_mapping short_id long_url expiry_date ttl 0 w1)
    as [[item|ex] w2]; [reflexivity|].
  destruct (class_of ex); try reflexivity.
  destruct (truthy_opt custom_suffix); [reflexivity|].
  change (MAX_COLLISION_RETRIES - 1)%nat with 2%nat.
  destruct (attempt =? 2)%nat; reflexivity.
Qed.

(** The loop invariant: every run of the loop from attempt [a] on is one of
    the [outcome]s, adds exactly its store calls to the trace, and changes
    the table only by the one item it returns. *)
Lemma attempt_loop_outcome (l : string) (s : option string) (e : string) (ttl : Z)
    (n : nat) :
  forall (a : nat) (w : World) (r : result (string * Item)) (w' : World),
    (a + n = 3)%nat ->
    attempt_loop (seq a n) l s e ttl w = (r, w') ->
    exists evs : list StoreEvent,
      trace w' = trace w ++ evs
      /\ outcome (clock w) l s e ttl a (ticks w) evs r
      /\ table w' = match r with
                    | Ok (_, it) => <[shortId it := it]> (table w)
                    | Raise _ => table w
                    end.
Proof.
  induction n as [|n IH]; intros a w r w' Han Hrun.
  - assert (a = 3%nat) as -> by lia. cbn in Hrun. injection Hrun as <- <-.
    exists []. rewrite app_nil_r. repeat split. constructor.
  - cbn [seq] in Hrun. rewrite attempt_loop_step in Hrun.
    destruct (next_short_id_cases a l s w) as [Hid | (-> & Hs & Hv & Hid)];
      rewrite Hid in Hrun.
    2:{ injection Hrun as <- <-. exists []. rewrite app_nil_r. repeat split.
        now constructor. }
    destruct (iter_tick_facts (candidate_ticks s a) w) as (Ht & Hc & Hk & Htb & Hcf).
    set (w1 := Nat.iter (candidate_ticks s a) tick w) in *.
    rewrite create_url_mapping_run in Hrun.
    destruct (table_configured w1).
    2:{ injection Hrun as <- <-. exists []. rewrite app_nil_r, Ht.
        repeat split; [|exact Htb]. constructor. }
    cbv zeta in Hrun.
    assert (Hitem : new_item (candidate_of (clock w) l s a (ticks w)) l
                             (isoformat (now_of w1)) e ttl
                    = attempt_item (clock w) l s e ttl a (ticks w)).
    { unfold attempt_item. now rewrite now_of_at_tick, Hc, Hk. }
    rewrite Hitem in Hrun.
    set (it := attempt_item (clock w) l s e ttl a (ticks w)) in *.
    destruct (after_put_facts (tick w1) it) as (Hpt & Hpc & Hpk & Hptb).
    cbn [tick trace clock ticks table] in Hpt, Hpc, Hpk, Hptb.
    rewrite Ht in Hpt. rewrite Hc in Hpc. rewrite Hk in Hpk. rewrite Htb in Hptb.
    destruct (put_answer (tick w1) it) as [err|] eqn:Hans.
    + rewrite class_of_client_error in Hrun.
      destruct (conflict_coded err) eqn:Hcc.
      * rewrite (client_error_conflict err _ Hcc) in Hrun.
        destruct (truthy_opt s) eqn:Hs.
        { injection Hrun as <- <-. exists [put_event it (Some err)].
          repeat split; try assumption. now constructor. }
        destruct (a =? 2)%nat eqn:Ha2.
        { apply Nat.eqb_eq in Ha2 as ->. injection Hrun as <- <-.
          exists [put_event it (Some err)]. repeat split; try assumption.
          now constructor. }
        apply Nat.eqb_neq in Ha2.
        apply IH in Hrun; [|lia].
        destruct Hrun as (evs & Htr & Hout & Htab).
        cbn [log_metric trace clock ticks table] in Htr, Hout, Htab.
        exists (put_event it (Some err) :: evs). split; [|split].
        -- rewrite Htr, Hpt. now rewrite <- app_assoc.
        -- rewrite Hpc, Hpk in Hout. now constructor.
        -- now rewrite Htab, Hptb.
      * destruct (String.eqb _ "ResourceNotFoundException");
          injection Hrun as <- <-; exists [put_event it (Some err)];
          (repeat split; try assumption); now constructor.
    + injection Hrun as <- <-. exists [put_event it None].
      repeat split; try assumption. constructor.
Qed.

(** Before the loop: the expiry date is computed once; should that fail, no
    store call is made. *)
Lemma create_short_url_with_retry_run (l : string) (s : option string)
    (w : World) (r : result (string * Item)) (w' : World) :
  create_short_url_with_retry l s w = (r, w') ->
  (trace w' = trace w /\ table w' = table w
   /\ exists ex, r = Raise ex
                 /\ (class_of ex = COverflowError \/ class_of ex = CValueError))
  \/ exists (e : string) (ttl : Z),
       attempt_loop (seq 0 3) l s e ttl (tick w) = (r, w').
Proof.
  unfold create_short_url_with_retry, calculate_expiry_date.
  change (DEFAULT_EXPIRY_DAYS <=? 0) with false. cbv iota. msimpl.
  destruct (add_days (now_of w) DEFAULT_EXPIRY_DAYS) as [d|]; msimpl.
  2:{ intros [= <- <-]. left. repeat split. eexists. split; [reflexivity|]. now left. }
  destruct (fromisoformat _) as [dt|]; msimpl.
  2:{ intros [= <- <-]. left. repeat split. eexists. split; [reflexivity|]. now right. }
  intros Hrun. right. eauto.
Qed.

(** Every run of the orchestrator is an [outcome] of the loop started at
    attempt 0, or made no store call at all. *)
Lemma orchestrator_outcome (l : string) (s : option string)
    (w : World) (r : result (string * Item)) (w' : World) :
  create_short_url_with_retry l s w = (r, w') ->
  (new_calls w w' = [] /\ table w' = table w /\ exists ex, r = Raise ex)
  \/ exists (e : string) (ttl : Z),
       outcome (clock w) l s e ttl 0 (S (ticks w)) (new_calls w w') r
       /\ table w' = match r with
                     | Ok (_, it) => <[shortId it := it]> (table w)
                     | Raise _ => table w
                     end.
Proof.
  intros Hrun.
  apply create_short_url_with_retry_run in Hrun
    as [(Htr & Htab & ex & Hr & _) | (e & ttl & Hloop)].
  - left. split; [|split; [exact Htab | now exists ex]].
    apply new_calls_app. now rewrite app_nil_r.
  - right. exists e, ttl.
    apply attempt_loop_outcome in Hloop; [|reflexivity].
    destruct Hloop as (evs & Htr & Hout & Htab).
    cbn [tick trace clock ticks table] in Htr, Hout, Htab.
    rewrite (new_calls_app w w' evs Htr). now split.
Qed.


(** Case analysis on one [outcome], against what is known of the verdicts. *)
Ltac outcome_cases Hout Hv :=
  inversion Hout; subst; clear Hout; cbn in Hv;
  try discriminate; try congruence;
  try match goal with
      | Hc : conflict_coded _ = _ |- _ => rewrite Hc in Hv; clear Hc
      end;
  try discriminate.

(** The run that follows a rejected insert. *)
Ltac next_outcome H :=
  match goal with
  | Hout : outcome _ _ _ _ _ _ _ _ _ |- _ => rename Hout into H
  end.



(** C5: with a caller-supplied custom suffix, when the store answers the
    conditional insert with "already exists", the run consists of that one
    store call, for the suffix itself, and ends in [ConflictError] (status
    409); no other code is tried and the table is unchanged. *)
Theorem custom_suffix_conflict_no_retry (long_url : string)
    (custom_suffix : option string) (w : World)
    (r : result (string * Item)) (w' : World) :
  truthy_opt custom_suffix = true ->
  create_short_url_with_retry long_url custom_suffix w = (r, w') ->
  head (put_verdicts (new_calls w w')) = Some AlreadyExists ->
  exists (it : Item) (err : ClientError),
    new_calls w w' = [put_event it (Some err)]
    /\ shortId it = default "" custom_suffix
    /\ r = Raise (ConflictError "Resource already exists or condition not met")
    /\ status_code (ConflictError "Resource already exists or condition not met")
       = Some HTTP_STATUS_CONFLICT
    /\ table w' = table w.
Proof.
  intros Hs Hrun Hv.
  apply orchestrator_outcome in Hrun as [(Hnone & _) | (e & ttl & Hout & Htab)].
  { rewrite Hnone in Hv. discriminate. }
  set (evs := new_calls w w') in *. clearbody evs.
  outcome_cases Hout Hv.
  eexists _, _. split; [reflexivity|].
  repeat split; try assumption.
  cbn [attempt_item new_item shortId]. unfold candidate_of. now rewrite Hs.
Qed.

Lemma custom_suffix_conflict_no_retry_witness :
  let w := scripted_world T0 [already_exists] in
  let run := create_short_url_with_retry "https://example.com" (Some "my-link") w in
  fst run = Raise (ConflictError "Resource already exists or condition not met")
  /\ length (new_calls w (snd run)) = 1%nat.
Proof.
  intros w run.
  destruct (custom_suffix_conflict_no_retry "https://example.com" (Some "my-link") w
              (fst run) (snd run) eq_refl (run_eta _ w) ltac:(vm_compute; reflexivity))
    as (it & err & Hcalls & Hid & Hr & _ & _).
  rewrite Hr, Hcalls. split; reflexivity.
Defined.

(** C3, as the code has it: without a custom suffix, when the store answers
    all three conditional inserts with "already exists", the orchestrator
    raises [DatabaseError] with the message "Unable to generate unique short
    URL after multiple attempts", after exactly three store calls and with
    the table unchanged; and [DatabaseError], status 500, is also what
    [_handle_client_error] makes of any storage failure that is neither
    "already exists" nor "resource not found". *)
Theorem exhaustion_raises_database_error (long_url : string)
    (custom_suffix : option string) (w : World)
    (r : result (string * Item)) (w' : World) :
  truthy_opt custom_suffix = false ->
  create_short_url_with_retry long_url custom_suffix w = (r, w') ->
  put_verdicts (new_calls w w') = [AlreadyExists; AlreadyExists; AlreadyExists] ->
  r = Raise (DatabaseError
               "Unable to generate unique short URL after multiple attempts" None)
  /\ class_of (DatabaseError
                 "Unable to generate unique short URL after multiple attempts" None)
     = CDatabaseError
  /\ length (new_calls w w') = 3%nat
  /\ table w' = table w
  /\ forall (fault : ClientError) (w0 : World),
       verdict_of (Some fault) = Failed ->
       Code fault <> Some "ResourceNotFoundException" ->
       exists ex : exn,
         @_handle_client_error Item fault "create_url_mapping" w0 = (Raise ex, w0)
         /\ class_of ex = CDatabaseError
         /\ status_code ex = Some 500.
Proof.
  intros Hs Hrun Hv.
  apply orchestrator_outcome in Hrun as [(Hnone & _) | (e & ttl & Hout & Htab)].
  { rewrite Hnone in Hv. discriminate. }
  set (evs := new_calls w w') in *. clearbody evs.
  outcome_cases Hout Hv. next_outcome Hout1.
  outcome_cases Hout1 Hv. next_outcome Hout2.
  outcome_cases Hout2 Hv.
  split; [reflexivity|]. split; [reflexivity|]. split; [reflexivity|].
  split; [exact Htab|].
  intros fault w0 Hf Hnf.
  unfold verdict_of in Hf. destruct (conflict_coded fault) eqn:Hcc; [discriminate|].
  assert (Hne : String.eqb (default "Unknown" (Code fault)) "ResourceNotFoundException"
                = false).
  { destruct (String.eqb_spec (default "Unknown" (Code fault))
                              "ResourceNotFoundException") as [E|E]; [|reflexivity].
    exfalso. apply Hnf. destruct (Code fault); cbn in E; [now subst | discriminate]. }
  exists (client_error_exn fault "create_url_mapping").
  split; [apply handle_client_error_run|]. split.
  - rewrite class_of_client_error, Hcc, Hne. reflexivity.
  - unfold client_error_exn. unfold conflict_coded in Hcc. rewrite Hcc, Hne.
    reflexivity.
Qed.

Lemma exhaustion_raises_database_error_witness :
  let w := scripted_world T0 [already_exists; already_exists; already_exists] in
  let run := create_short_url_with_retry "https://example.com" None w in
  fst run = Raise (DatabaseError
                     "Unable to generate unique short URL after multiple attempts"
                     None)
  /\ length (new_calls w (snd run)) = 3%nat.
Proof.
  intros w run.
  destruct (exhaustion_raises_database_error "https://example.com" None w
              (fst run) (snd run) eq_refl (run_eta _ w) ltac:(vm_compute; reflexivity))
    as (Hr & _ & Hlen & _).
  split; [exact Hr | exact Hlen].
Defined.

(** C3 as stated fails: a run that exhausts its three attempts on "already
    exists" and a run whose insert meets a throttled store both end in the
    class [DatabaseError] with status 500, and the handler answers the two
    requests with the same response. *)
Lemma exhaustion_not_distinct_from_store_failure :
  let exhausted :=
    create_short_url_with_retry "https://example.com" None
      (scripted_world T0 [already_exists; already_exists; already_exists]) in
  let failed :=
    create_short_url_with_retry "https://example.com" None
      (scripted_world T0 [Some throttled]) in
  put_verdicts (trace (snd exhausted)) = [AlreadyExists; AlreadyExists; AlreadyExists]
  /\ put_verdicts (trace (snd failed)) = [Failed]
  /\ (exists e1 e2 : exn,
        fst exhausted = Raise e1 /\ fst failed = Raise e2
        /\ class_of e1 = class_of e2
        /\ status_code e1 = status_code e2)
  /\ fst (lambda_handler (create_event "https://example.com" None)
            (scripted_world T0
               [None; already_exists; already_exists; already_exists]))
     = fst (lambda_handler (create_event "https://example.com" None)
              (scripted_world T0 [None; Some throttled])).
Proof.
  vm_compute. split; [reflexivity|]. split; [reflexivity|].
  split; [|reflexivity]. eexists _, _. repeat split.
Qed.

(** C2 (the code departs from it): a create-or-get request for a valid URL
    with the malformed suffix ["ab"] is answered 500 "Internal server error"
    under the metric [UnexpectedErrors]: [generate_short_url] raises
    [ValueError], which no clause of the handler but the last catches.  No
    conditional insert is made. *)
Theorem malformed_suffix_is_internal_error :
  let w := scripted_world T0 [] in
  let run := lambda_handler (create_event "https://example.com" (Some "ab")) w in
  _is_valid_custom_suffix "ab" = false
  /\ is_valid_url "https://example.com" = true
  /\ fst (create_short_url_with_retry "https://example.com" (Some "ab") w)
     = Raise (ValueError
                "Custom suffix must be 3-20 alphanumeric characters, got: 'ab'")
  /\ fst run = Ok (create_json_response HTTP_STATUS_INTERNAL_ERROR
                     [("error", JStr "Internal server error")])
  /\ metrics (snd run) = ["UnexpectedErrors"]
  /\ put_verdicts (trace (snd run)) = [].
Proof. vm_compute. repeat split. Qed.

(* ===================================================================== *)
(** ** The resolve path and the deduplication lookup *)
(* ===================================================================== *)

(** C9: a resolve of a code whose mapping the store holds and whose expiry
    the evaluator reports as passed, as it does whenever the [expiryDate]
    parses to an instant before the clock's reading, is answered 410 Gone,
    whereas a code the store does not hold is answered 404; in the Gone case
    the only store call of the run is the lookup, so no counter update is
    attempted and the table, with the mapping's click count and last access,
    is as before. *)
Theorem expired_mapping_is_gone (event : Event) (short_id : string) (w : World) :
  path_short_id event = Some short_id ->
  truthy short_id = true ->
  table_configured w = true ->
  get_answer w = None ->
  let run := redirectURL.lambda_handler event w in
  (table w !! short_id = None ->
   exists resp, fst run = Ok resp /\ statusCode resp = HTTP_STATUS_NOT_FOUND)
  /\ (forall item : Item,
        table w !! short_id = Some item ->
        expired_at (utc_instant (now_of w)) (expiryDate item) = true ->
        exists resp,
          fst run = Ok resp
          /\ statusCode resp = HTTP_STATUS_GONE
          /\ new_calls w (snd run) = [mk_StoreEvent (GetItem short_id) None]
          /\ table (snd run) = table w
          /\ metrics (snd run) = metrics w ++ ["UrlExpired"])
  /\ (forall (item : Item) (t : Z),
        expiry_instant (expiryDate item) = Some t ->
        t < utc_instant (now_of w) ->
        expired_at (utc_instant (now_of w)) (expiryDate item) = true).
Proof.
  intros Hev Hs Hc Hf run.
  assert (Hrun : run
                 = try_except
                     (item ← (fun w0 => (Ok (table w !! short_id),
                                         log_call (mk_StoreEvent (GetItem short_id) None)
                                                  (pop_fault w)));
                      redirectURL.resolve_item short_id item)
                     redirectURL.on_error w).
  { subst run. unfold redirectURL.lambda_handler. rewrite Hev.
    cbn [truthy_opt default from_option id]. rewrite Hs. cbn [negb].
    unfold try_except, mbind at 1, M_bind at 1, bind at 1.
    rewrite get_url_by_short_id_run, Hc, Hf. reflexivity. }
  rewrite Hrun. clear Hrun run. split; [|split].
  - intros Hit. msimpl. rewrite Hit. unfold redirectURL.resolve_item. msimpl.
    eexists. split; reflexivity.
  - intros item Hit Hexp.
    set (w1 := log_call (mk_StoreEvent (GetItem short_id) None) (pop_fault w)).
    match goal with
    | |- context [fst ?m] =>
        assert (Hres : exists w2,
                   m = (Ok (create_json_response HTTP_STATUS_GONE
                              [ ("error", JStr "URL expired");
                                ("message",
                                 JStr "This short URL has expired and is no longer valid.");
                                ("shortId", JStr short_id);
                                ("expiredAt", JOpt (expiryDate item)) ]),
                        log_metric "UrlExpired" w2)
                   /\ (w2 = w1 \/ w2 = tick w1))
    end.
    { msimpl. rewrite Hit. unfold redirectURL.resolve_item.
      unfold mbind at 1, M_bind at 1, bind at 1.
      rewrite is_expired_run. fold w1.
      unfold expired_at in Hexp.
      destruct (expiry_instant (expiryDate item)) as [t|].
      - change (now_of w1) with (now_of w). rewrite Hexp.
        exists (tick w1). split; [reflexivity | now right].
      - exists w1. split; [reflexivity | now left]. }
    destruct Hres as (w2 & -> & Hw2).
    eexists. split; [reflexivity|].
    cbn [snd fst statusCode create_json_response log_metric trace table metrics].
    split; [reflexivity|].
    destruct Hw2 as [-> | ->];
      (split; [apply new_calls_app; reflexivity | split; reflexivity]).
  - intros item t Ht Hlt. unfold expired_at. rewrite Ht. now apply Z.ltb_lt.
Qed.

Lemma expired_mapping_is_gone_witness :
  let w := mk_World (fun _ => T0) 0 true {["MDco7R" := lapsed_mapping]} [] [] [] in
  let run := redirectURL.lambda_handler (mk_Event (Some "MDco7R") BodyMissing "") w in
  exists resp,
    fst run = Ok resp /\ statusCode resp = 410
    /\ table (snd run) !! "MDco7R" = Some lapsed_mapping.
Proof.
  intros w run.
  destruct (expired_mapping_is_gone (mk_Event (Some "MDco7R") BodyMissing "") "MDco7R" w
              eq_refl eq_refl eq_refl eq_refl) as (_ & Hgone & Hpast).
  destruct (Hgone lapsed_mapping ltac:(apply lookup_singleton_eq)
              (Hpast lapsed_mapping 63876470400000000
                     ltac:(vm_compute; reflexivity) ltac:(vm_compute; reflexivity)))
    as (resp & Hr & Hst & _ & Htab & _).
  exists resp. split; [exact Hr|]. split; [exact Hst|].
  fold run in Htab. rewrite Htab. apply lookup_singleton_eq.
Defined.

Lemma resolve_alive_spec (t : Z) (m : Item) (l : string) :
  longUrl m = Some l -> truthy (shortId m) = true ->
  resolve_alive t m = negb (expired_at t (expiryDate m)).
Proof.
  intros Hl Hs.
  unfold resolve_alive, redirectURL.lambda_handler, redirectURL.resolve_item.
  cbn [path_short_id truthy_opt default from_option id]. rewrite Hs. cbn [negb].
  unfold try_except, mbind at 1, M_bind at 1, bind at 1.
  rewrite get_url_by_short_id_run.
  change (table_configured (single_world t m)) with true.
  change (get_answer (single_world t m)) with (@None ClientError).
  change (table (single_world t m)) with ({[shortId m := m]} : gmap string Item).
  rewrite lookup_singleton_eq. cbv beta iota.
  unfold mbind at 1, M_bind at 1, bind at 1.
  rewrite is_expired_run. unfold expired_at.
  destruct (expiry_instant (expiryDate m)) as [x|]; [|reflexivity].
  change (utc_instant (now_of _)) with (t - 0).
  rewrite Z.sub_0_r.
  destruct (x <? t); [reflexivity|].
  rewrite Hl. unfold update_click_count, Table.update_item. msimpl.
  reflexivity.
Qed.

Lemma dedup_alive_spec (t : Z) (m : Item) (l : string) :
  longUrl m = Some l ->
  dedup_alive t m
  = Table.query_keeps l (int_timestamp (mk_datetime t (Some 0))) m
    && negb (expired_at t (expiryDate m)).
Proof.
  intros Hl. unfold dedup_alive. rewrite Hl.
  unfold find_existing_url, Table.query. msimpl.
  change (table_configured (single_world t m)) with true. cbn [negb].
  change (mjoin (head (faults (tick (single_world t m))))) with (@None ClientError).
  change (now_of (single_world t m)) with (mk_datetime t (Some 0)).
  cbv beta iota.
  change (table (log_call _ _)) with ({[shortId m := m]} : gmap string Item).
  rewrite map_to_list_singleton.
  cbn [fmap list_fmap snd List.filter].
  destruct (Table.query_keeps l _ m); cbn [first_not_expired andb].
  2:{ reflexivity. }
  msimpl. rewrite is_expired_run, expiry_instant_default. unfold expired_at.
  destruct (expiry_instant (expiryDate m)) as [x|]; [|reflexivity].
  change (utc_instant (now_of _)) with (t - 0).
  rewrite Z.sub_0_r. destruct (x <? t); reflexivity.
Qed.

(** C4, as the code has it: at one instant, the resolve path takes a stored
    mapping for alive exactly when [is_expired] answers false for its
    [expiryDate]; the deduplication lookup takes it for alive exactly when,
    besides, the store's filter keeps it, that is when its [ttlTimestamp]
    exists and is greater than the current whole second.  So a mapping alive
    for deduplication is alive for resolve, and the two agree on every
    mapping the filter keeps. *)
Theorem dedup_alive_needs_ttl (t : Z) (m : Item) (l : string) :
  longUrl m = Some l ->
  truthy (shortId m) = true ->
  resolve_alive t m
  = negb (match fst (is_expired (expiryDate m) (single_world t m)) with
          | Ok b => b
          | Raise _ => true
          end)
  /\ dedup_alive t m
     = Table.query_keeps l (int_timestamp (mk_datetime t (Some 0))) m
       && resolve_alive t m
  /\ (dedup_alive t m = true -> resolve_alive t m = true)
  /\ (Table.query_keeps l (int_timestamp (mk_datetime t (Some 0))) m = true ->
      dedup_alive t m = resolve_alive t m).
Proof.
  intros Hl Hs.
  rewrite (dedup_alive_spec t m l Hl), (resolve_alive_spec t m l Hl Hs).
  split; [|split; [|split]].
  - rewrite is_expired_run. unfold expired_at.
    destruct (expiry_instant (expiryDate m)) as [x|]; [|reflexivity].
    cbn [fst]. change (utc_instant (now_of _)) with (t - 0). now rewrite Z.sub_0_r.
  - reflexivity.
  - intros H. now apply andb_true_iff in H.
  - now intros ->.
Qed.

Lemma dedup_alive_needs_ttl_witness :
  dedup_alive T1 stale_ttl_mapping
  = Table.query_keeps "https://example.com" (int_timestamp (mk_datetime T1 (Some 0)))
                      stale_ttl_mapping
    && resolve_alive T1 stale_ttl_mapping.
Proof.
  exact (proj1 (proj2 (dedup_alive_needs_ttl T1 stale_ttl_mapping "https://example.com"
                         eq_refl eq_refl))).
Defined.

(** C4 as stated fails: two tenths of a second past 2026-01-28T08:00:00, a
    mapping that expires at 08:00:00.5 and carries that instant cut to whole
    seconds as [ttlTimestamp] is still redirected to by the resolve path but
    is no longer found by the deduplication lookup. *)
Lemma dedup_and_resolve_disagree :
  isoformat (mk_datetime T1 (Some 0)) = "2026-01-28T08:00:00.200000+00:00"
  /\ (int_timestamp <$> fromisoformat "2026-01-28T08:00:00.500000+00:00")
     = Some 1769587200
  /\ dedup_alive T1 stale_ttl_mapping = false
  /\ resolve_alive T1 stale_ttl_mapping = true.
Proof. vm_compute. repeat split. Qed.

(* ===================================================================== *)
(** * Further properties of the code *)
(* ===================================================================== *)

(* ===================================================================== *)
(** ** The calendar: [isoformat] and [fromisoformat] *)
(* ===================================================================== *)

Lemma all_from_spec (fuel : nat) (P : Z -> bool) :
  forall i, all_from fuel i P = true ->
  forall j, i <= j < i + Z.of_nat fuel -> P j = true.
Proof.
  induction fuel as [|f IH]; intros i H j Hj; [lia|].
  cbn [all_from] in H. apply andb_true_iff in H as [Hi Hrest].
  destruct (Z.eq_dec j i) as [->|Hne]; [exact Hi|].
  apply (IH (i + 1) Hrest). lia.
Qed.

(** The 146097 days of the first four hundred years, one by one. *)
Lemma first_cycle_ok : all_from (Z.to_nat 146097) 1 date_ok = true.
Proof. vm_compute. reflexivity. Qed.

Lemma is_leap_period (y q : Z) : is_leap (y + 400 * q) = is_leap y.
Proof.
  unfold is_leap.
  replace (y + 400 * q) with (y + (100 * q) * 4) at 1 by lia.
  replace (y + 400 * q) with (y + (4 * q) * 100) at 1 by lia.
  replace (y + 400 * q) with (y + q * 400) by lia.
  now rewrite !Z.mod_add by lia.
Qed.

Lemma days_in_month_period (y q m : Z) :
  days_in_month (y + 400 * q) m = days_in_month y m.
Proof. unfold days_in_month. now rewrite is_leap_period. Qed.

Lemma ymd2ord_period (y q m d : Z) :
  ymd2ord (y + 400 * q) m d = ymd2ord y m d + 146097 * q.
Proof.
  unfold ymd2ord, days_before_month, days_before_year.
  rewrite is_leap_period. cbv zeta.
  replace (y + 400 * q - 1) with (y - 1 + (100 * q) * 4) at 2 by lia.
  replace (y + 400 * q - 1) with (y - 1 + (4 * q) * 100) at 2 by lia.
  replace (y + 400 * q - 1) with (y - 1 + q * 400) at 2 by lia.
  rewrite !Z.div_add by lia. lia.
Qed.

Lemma ord2ymd_period (r q : Z) :
  0 <= r < 146097 ->
  ord2ymd (r + 1 + 146097 * q)
  = let '(y, m, d) := ord2ymd (r + 1) in (y + 400 * q, m, d).
Proof.
  intros Hr. unfold ord2ymd.
  change DI400Y with 146097.
  replace (r + 1 + 146097 * q - 1) with (r + q * 146097) by lia.
  replace (r + 1 - 1) with r by lia.
  rewrite Z.div_add, Z.mod_add by lia.
  rewrite (Z.div_small r 146097), (Z.mod_small r 146097) by lia.
  cbv zeta.
  destruct ((_ =? 4) || (_ =? 4)); [f_equal; f_equal; lia|].
  destruct (_ <? _); f_equal; f_equal; lia.
Qed.

(** [ord2ymd] answers a date the constructor accepts, and [ymd2ord] leads
    back. *)
Lemma ord2ymd_valid (n : Z) :
  1 <= n <= MAX_ORDINAL ->
  let '(y, m, d) := ord2ymd n in
  MINYEAR <= y <= MAXYEAR /\ 1 <= m <= 12 /\ 1 <= d <= days_in_month y m
  /\ ymd2ord y m d = n.
Proof.
  intros Hn. change MAX_ORDINAL with 3652059 in Hn.
  set (q := (n - 1) / 146097). set (r := (n - 1) mod 146097).
  assert (Hr : 0 <= r < 146097) by (apply Z.mod_pos_bound; lia).
  assert (Hq : 0 <= q <= 24).
  { unfold q. split; [apply Z.div_pos; lia|].
    apply Z.lt_succ_r, Z.div_lt_upper_bound; lia. }
  assert (En : n = r + 1 + 146097 * q).
  { unfold q, r. pose proof (Z.div_mod (n - 1) 146097). lia. }
  rewrite En, (ord2ymd_period r q Hr).
  assert (Hok : date_ok (r + 1) = true).
  { apply (all_from_spec _ _ _ first_cycle_ok (r + 1)).
    rewrite Z2Nat.id; lia. }
  unfold date_ok in Hok.
  destruct (ord2ymd (r + 1)) as [[y m] d].
  repeat (apply andb_true_iff in Hok as [Hok ?]).
  rewrite days_in_month_period, ymd2ord_period.
  unfold MINYEAR, MAXYEAR.
  repeat match goal with
         | H : (_ <=? _) = true |- _ => apply Z.leb_le in H
         | H : (_ =? _) = true |- _ => apply Z.eqb_eq in H
         end.
  match goal with
  | H : _ || _ = true |- _ =>
      apply orb_true_iff in H as [H | H];
      [apply Z.ltb_lt in H | apply Z.leb_le in H]
  end; repeat split; lia.
Qed.

Lemma chars_app (a b : string) : chars (a +:+ b) = chars a ++ chars b.
Proof.
  induction a as [|c a IH]; [reflexivity|].
  change (chars (String c (a +:+ b)) = c :: (chars a ++ chars b)).
  unfold chars in *. cbn [list_ascii_of_string]. now rewrite IH.
Qed.

(** A property of the ten digits holds below ten. *)
Lemma below_ten (P : Z -> Prop) :
  (forall k : nat, (k < 10)%nat -> P (Z.of_nat k)) ->
  forall n : Z, 0 <= n < 10 -> P n.
Proof.
  intros H n Hn. rewrite <- (Z2Nat.id n) by lia. apply H. lia.
Qed.

Lemma digit_value_digit (n : Z) :
  0 <= n < 10 -> digit_value (ascii_of_N (Z.to_N (48 + n))) = Some n.
Proof.
  revert n. apply below_ten. intros k Hk.
  do 10 (destruct k as [|k]; [reflexivity|]). lia.
Qed.

Lemma parse_digits_snoc (n : nat) :
  forall (acc : Z) (l : list ascii),
    parse_digits (S n) acc l
    = '(v, l') ← parse_digits n acc l;
      match l' with
      | c :: t => d ← digit_value c; Some (v * 10 + d, t)
      | [] => None
      end.
Proof.
  induction n as [|n IH]; intros acc l.
  - destruct l as [|c t]; [reflexivity|]. cbn.
    destruct (digit_value c); reflexivity.
  - change (parse_digits (S (S n)) acc l)
      with (match l with
            | c :: t => d ← digit_value c; parse_digits (S n) (acc * 10 + d) t
            | [] => None
            end).
    destruct l as [|c t]; [reflexivity|].
    change (parse_digits (S n) acc (c :: t))
      with (d ← digit_value c; parse_digits n (acc * 10 + d) t).
    destruct (digit_value c) as [d|]; [|reflexivity].
    cbn [mbind option_bind]. apply IH.
Qed.

Lemma parse_pad (n : nat) :
  forall (acc x : Z) (rest : list ascii),
    0 <= x < 10 ^ Z.of_nat n ->
    parse_digits n acc (pad_digits n x ++ rest)
    = Some (acc * 10 ^ Z.of_nat n + x, rest).
Proof.
  induction n as [|n IH]; intros acc x rest Hx.
  - cbn. f_equal. f_equal. change (10 ^ Z.of_nat 0) with 1 in *. lia.
  - rewrite Nat2Z.inj_succ, Z.pow_succ_r in * by lia.
    rewrite parse_digits_snoc.
    cbn [pad_digits]. rewrite <- app_assoc.
    rewrite IH.
    2:{ split; [apply Z.div_pos; lia|]. apply Z.div_lt_upper_bound; lia. }
    cbn [mbind option_bind app].
    rewrite digit_value_digit by (apply Z.mod_pos_bound; lia).
    cbn [mbind option_bind]. f_equal. f_equal.
    pose proof (Z.div_mod x 10). lia.
Qed.

Lemma pad_digits_length (n : nat) (x : Z) : length (pad_digits n x) = n.
Proof.
  revert x. induction n as [|n IH]; intros x; [reflexivity|].
  cbn [pad_digits]. rewrite length_app, IH. cbn. lia.
Qed.

Lemma pad_digits_no_sign (n : nat) (x : Z) :
  Forall (fun c => is_sign c = false) (pad_digits n x).
Proof.
  revert x. induction n as [|n IH]; intros x; [constructor|].
  cbn [pad_digits]. apply Forall_app. split; [apply IH|].
  constructor; [|constructor].
  pose proof (Z.mod_pos_bound x 10 ltac:(lia)) as Hm.
  revert Hm. generalize (x mod 10). apply below_ten. intros k Hk.
  do 10 (destruct k as [|k]; [reflexivity|]). lia.
Qed.

Lemma split_tz_app (a b : list ascii) :
  Forall (fun c => is_sign c = false) a ->
  split_tz (a ++ b) = (a ++ fst (split_tz b), snd (split_tz b)).
Proof.
  induction 1 as [|c a Hc _ IH]; [cbn; now destruct (split_tz b)|].
  cbn [app split_tz]. rewrite Hc, IH. reflexivity.
Qed.

Lemma isoformat_chars (w : Z) :
  chars (isoformat (mk_datetime w (Some 0)))
  = let days := w / US_PER_DAY in
    let rest := w mod US_PER_DAY in
    let '(year, month, day) := ord2ymd (days + 1) in
    let secs := rest / US_PER_SECOND in
    let us := rest mod US_PER_SECOND in
    pad_digits 4 year ++ "-"%char :: pad_digits 2 month ++ "-"%char
      :: pad_digits 2 day ++ "T"%char
      :: pad_digits 2 (secs / 3600) ++ ":"%char
      :: pad_digits 2 (secs / 60 mod 60) ++ ":"%char
      :: pad_digits 2 (secs mod 60)
      ++ (if us =? 0 then [] else "."%char :: pad_digits 6 us)
      ++ chars "+00:00".
Proof.
  unfold isoformat. cbn [wall utcoffset]. cbv zeta.
  destruct (ord2ymd (w / US_PER_DAY + 1)) as [[y m] d].
  change (isoformat_offset 0) with "+00:00"%string.
  rewrite !chars_app, !chars_str.
  destruct (_ =? 0).
  - reflexivity.
  - rewrite chars_app, chars_str. reflexivity.
Qed.

Lemma isoformat_chars_any (d : datetime) :
  chars (isoformat d)
  = let days := wall d / US_PER_DAY in
    let rest := wall d mod US_PER_DAY in
    let '(year, month, day) := ord2ymd (days + 1) in
    let secs := rest / US_PER_SECOND in
    let us := rest mod US_PER_SECOND in
    (pad_digits 4 year ++ "-"%char :: pad_digits 2 month ++ "-"%char
       :: pad_digits 2 day)
    ++ "T"%char
    :: (pad_digits 2 (secs / 3600) ++ ":"%char
          :: pad_digits 2 (secs / 60 mod 60) ++ ":"%char
          :: pad_digits 2 (secs mod 60)
          ++ (if us =? 0 then [] else "."%char :: pad_digits 6 us))
    ++ chars (match utcoffset d with
              | None => ""
              | Some off => isoformat_offset off
              end).
Proof.
  unfold isoformat. cbv zeta.
  destruct (ord2ymd (wall d / US_PER_DAY + 1)) as [[y m] dd].
  rewrite !chars_app, !chars_str.
  change (chars "-") with ["-"%char]. change (chars ":") with [":"%char].
  change (chars "T") with ["T"%char].
  destruct (_ =? 0).
  - change (chars "") with (@nil ascii).
    repeat (rewrite <- ?app_assoc; cbn [app]). reflexivity.
  - rewrite chars_app, chars_str. change (chars ".") with ["."%char].
    repeat (rewrite <- ?app_assoc; cbn [app]). reflexivity.
Qed.

Lemma no_sign_of_time (hh mm ss us : Z) :
  Forall (fun c => is_sign c = false)
         (pad_digits 2 hh ++ ":"%char :: pad_digits 2 mm ++ ":"%char
            :: pad_digits 2 ss
            ++ (if us =? 0 then [] else "."%char :: pad_digits 6 us)).
Proof.
  destruct (us =? 0);
    repeat first [ apply pad_digits_no_sign | reflexivity
                 | apply Forall_app; split | apply Forall_cons; split
                 | apply Forall_nil ].
Qed.

(** [HH:MM:SS] and [HH:MM:SS.ffffff] are read back. *)
Lemma parse_hms (hh mm ss us : Z) :
  0 <= hh < 100 -> 0 <= mm < 100 -> 0 <= ss < 100 -> 0 <= us < 1000000 ->
  parse_hh_mm_ss_ff
    (pad_digits 2 hh ++ ":"%char :: pad_digits 2 mm ++ ":"%char
       :: pad_digits 2 ss
       ++ (if us =? 0 then [] else "."%char :: pad_digits 6 us))
  = Some (hh, mm, ss, us).
Proof.
  intros Hh Hm Hs Hu. unfold parse_hh_mm_ss_ff.
  rewrite (parse_pad 2) by (change (10 ^ Z.of_nat 2) with 100; lia).
  cbn [mbind option_bind expect Ascii.eqb Bool.eqb].
  rewrite (parse_pad 2) by (change (10 ^ Z.of_nat 2) with 100; lia).
  cbn [mbind option_bind expect Ascii.eqb Bool.eqb].
  rewrite (parse_pad 2) by (change (10 ^ Z.of_nat 2) with 100; lia).
  cbn [mbind option_bind].
  destruct (us =? 0) eqn:Hus.
  - apply Z.eqb_eq in Hus. subst us. repeat f_equal; lia.
  - cbn [expect Ascii.eqb Bool.eqb mbind option_bind].
    rewrite pad_digits_length.
    rewrite <- (app_nil_r (pad_digits 6 us)).
    rewrite (parse_pad 6) by (change (10 ^ Z.of_nat 6) with 1000000; lia).
    cbn [mbind option_bind]. repeat f_equal; lia.
Qed.

(** [HH:MM] is read back. *)
Lemma parse_hm (hh mm : Z) :
  0 <= hh < 100 -> 0 <= mm < 100 ->
  parse_hh_mm_ss_ff (pad_digits 2 hh ++ ":"%char :: pad_digits 2 mm)
  = Some (hh, mm, 0, 0).
Proof.
  intros Hh Hm. unfold parse_hh_mm_ss_ff.
  rewrite (parse_pad 2) by (change (10 ^ Z.of_nat 2) with 100; lia).
  cbn [mbind option_bind expect Ascii.eqb Bool.eqb].
  rewrite <- (app_nil_r (pad_digits 2 mm)).
  rewrite (parse_pad 2) by (change (10 ^ Z.of_nat 2) with 100; lia).
  cbn [mbind option_bind]. repeat f_equal; lia.
Qed.

(** An offset of UTC or east of it, as [isoformat] writes it: the sign and
    5, 8 or 15 characters that read back as the offset. *)
Lemma isoformat_offset_east (off : Z) :
  0 <= off < US_PER_DAY ->
  exists (body : list ascii) (th tm ts tf : Z),
    chars (isoformat_offset off) = "+"%char :: body
    /\ (length body = 5 \/ length body = 8 \/ length body = 15)%nat
    /\ parse_hh_mm_ss_ff body = Some (th, tm, ts, tf)
    /\ (th * 3600 + tm * 60 + ts) * US_PER_SECOND + tf = off.
Proof.
  change US_PER_DAY with 86400000000. change US_PER_SECOND with 1000000.
  intros Hoff. unfold isoformat_offset. cbv zeta.
  change US_PER_SECOND with 1000000.
  rewrite (proj2 (Z.ltb_ge off 0)) by lia. rewrite (Z.abs_eq off) by lia.
  set (secs := off / 1000000). set (us := off mod 1000000).
  assert (Hus : 0 <= us < 1000000) by (apply Z.mod_pos_bound; lia).
  assert (Hsecs : 0 <= secs < 86400).
  { unfold secs. split; [apply Z.div_pos; lia|].
    apply Z.div_lt_upper_bound; lia. }
  assert (Eoff : off = secs * 1000000 + us).
  { unfold secs, us. pose proof (Z.div_mod off 1000000). lia. }
  assert (Hhh : 0 <= secs / 3600 < 24).
  { split; [apply Z.div_pos; lia|]. apply Z.div_lt_upper_bound; lia. }
  assert (Hmm : 0 <= secs / 60 mod 60 < 60) by (apply Z.mod_pos_bound; lia).
  assert (Hss : 0 <= secs mod 60 < 60) by (apply Z.mod_pos_bound; lia).
  assert (Esecs : secs = (secs / 3600) * 3600 + (secs / 60 mod 60) * 60 + secs mod 60).
  { pose proof (Z.div_mod secs 60 ltac:(lia)).
    pose proof (Z.div_mod (secs / 60) 60 ltac:(lia)).
    assert (E3600 : secs / 3600 = secs / 60 / 60).
    { rewrite Z.div_div by lia. reflexivity. }
    rewrite E3600. lia. }
  rewrite !chars_app, !chars_str.
  change (chars "+") with ["+"%char]. change (chars ":") with [":"%char].
  cbn [app].
  destruct ((secs mod 60 =? 0) && (us =? 0)) eqn:Hzero.
  - apply andb_true_iff in Hzero as [Hs0 Hu0].
    apply Z.eqb_eq in Hs0, Hu0.
    change (chars "") with (@nil ascii). rewrite app_nil_r.
    eexists. exists (secs / 3600), (secs / 60 mod 60), 0, 0.
    split; [reflexivity|]. split.
    { left. do 3 (rewrite ?length_app; cbn [length]).
      rewrite !pad_digits_length. reflexivity. }
    split; [apply parse_hm; lia | lia].
  - rewrite !chars_app, chars_str. change (chars ":") with [":"%char].
    cbn [app].
    eexists. exists (secs / 3600), (secs / 60 mod 60), (secs mod 60), us.
    split; [reflexivity|]. split; [|split; [|lia]].
    + destruct (us =? 0).
      * right. left. change (chars "") with (@nil ascii).
        do 4 (rewrite ?length_app; cbn [length]).
        rewrite !pad_digits_length. reflexivity.
      * right. right. rewrite chars_app, chars_str.
        change (chars ".") with ["."%char].
        do 5 (rewrite ?length_app; cbn [length]).
        rewrite !pad_digits_length. reflexivity.
    + rewrite <- (parse_hms (secs / 3600) (secs / 60 mod 60) (secs mod 60) us)
        by lia.
      f_equal. destruct (us =? 0).
      * reflexivity.
      * now rewrite chars_app, chars_str.
Qed.

(** A time of day and such an offset are read back. *)
Lemma parse_time_east (hh mm ss us off : Z) :
  0 <= hh < 100 -> 0 <= mm < 100 -> 0 <= ss < 100 -> 0 <= us < 1000000 ->
  0 <= off < US_PER_DAY ->
  parse_isoformat_time
    ((pad_digits 2 hh ++ ":"%char :: pad_digits 2 mm ++ ":"%char
        :: pad_digits 2 ss
        ++ (if us =? 0 then [] else "."%char :: pad_digits 6 us))
     ++ chars (isoformat_offset off))
  = Some (hh, mm, ss, us, Some off).
Proof.
  intros Hh Hm Hs Hu Hoff. unfold parse_isoformat_time.
  destruct (isoformat_offset_east off Hoff)
    as (body & th & tm & ts & tf & -> & Hlen & Hbody & Eoff).
  rewrite (split_tz_app _ _ (no_sign_of_time hh mm ss us)).
  cbn [split_tz is_sign Ascii.eqb Bool.eqb orb fst snd]. rewrite app_nil_r.
  rewrite parse_hms by assumption. cbn [mbind option_bind].
  replace (bool_decide (length body = 5%nat) || bool_decide (length body = 8%nat)
           || bool_decide (length body = 15%nat)) with true.
  2:{ symmetry. destruct Hlen as [-> | [-> | ->]]; reflexivity. }
  rewrite Hbody. cbn [mbind option_bind Ascii.eqb Bool.eqb]. rewrite Eoff.
  rewrite (proj2 (Z.ltb_lt (- US_PER_DAY) off)) by lia.
  rewrite (proj2 (Z.ltb_lt off US_PER_DAY)) by lia.
  reflexivity.
Qed.

(** [fromisoformat] reads back what [isoformat] writes for an instant of the
    calendar with an offset of UTC or east of it. *)
Lemma fromisoformat_isoformat_east (w off : Z) :
  0 <= w < MAX_ORDINAL * US_PER_DAY -> 0 <= off < US_PER_DAY ->
  fromisoformat (isoformat (mk_datetime w (Some off)))
  = Some (mk_datetime w (Some off)).
Proof.
  intros Hw Hoff. unfold fromisoformat. rewrite isoformat_chars_any.
  cbn [wall utcoffset]. cbv zeta.
  change US_PER_DAY with 86400000000 in *.
  change US_PER_SECOND with 1000000 in *.
  set (days := w / 86400000000). set (rest := w mod 86400000000).
  assert (Hrest : 0 <= rest < 86400000000) by (apply Z.mod_pos_bound; lia).
  assert (Hdays : 0 <= days < MAX_ORDINAL).
  { unfold days. split; [apply Z.div_pos; lia|].
    apply Z.div_lt_upper_bound; lia. }
  assert (Ew : w = days * 86400000000 + rest).
  { unfold days, rest. pose proof (Z.div_mod w 86400000000). lia. }
  pose proof (ord2ymd_valid (days + 1) ltac:(lia)) as Hdate.
  destruct (ord2ymd (days + 1)) as [[y m] d].
  destruct Hdate as (Hy & Hm & Hd & Hord).
  unfold MINYEAR, MAXYEAR in Hy.
  set (secs := rest / 1000000). set (us := rest mod 1000000).
  assert (Hus : 0 <= us < 1000000) by (apply Z.mod_pos_bound; lia).
  assert (Hsecs : 0 <= secs < 86400).
  { unfold secs. split; [apply Z.div_pos; lia|].
    apply Z.div_lt_upper_bound; lia. }
  assert (Er : rest = secs * 1000000 + us).
  { unfold secs, us. pose proof (Z.div_mod rest 1000000). lia. }
  assert (Hhh : 0 <= secs / 3600 < 24).
  { split; [apply Z.div_pos; lia|]. apply Z.div_lt_upper_bound; lia. }
  assert (Hmm : 0 <= secs / 60 mod 60 < 60) by (apply Z.mod_pos_bound; lia).
  assert (Hss : 0 <= secs mod 60 < 60) by (apply Z.mod_pos_bound; lia).
  assert (Hdim : days_in_month y m <= 31).
  { unfold days_in_month. repeat destruct (_ =? _); cbn; try destruct (is_leap y); lia. }
  rewrite <- !app_assoc. cbn [app]. rewrite <- !app_assoc. cbn [app].
  rewrite (parse_pad 4) by (change (10 ^ Z.of_nat 4) with 10000; lia).
  cbn [mbind option_bind expect Ascii.eqb Bool.eqb].
  rewrite (parse_pad 2) by (change (10 ^ Z.of_nat 2) with 100; lia).
  cbn [mbind option_bind expect Ascii.eqb Bool.eqb].
  rewrite (parse_pad 2) by (change (10 ^ Z.of_nat 2) with 100; lia).
  cbn [mbind option_bind].
  pose proof (parse_time_east (secs / 3600) (secs / 60 mod 60) (secs mod 60) us off
                ltac:(lia) ltac:(lia) ltac:(lia) Hus Hoff) as Htime.
  match goal with
  | |- context [parse_isoformat_time ?t] =>
      replace (parse_isoformat_time t)
        with (Some (secs / 3600, secs / 60 mod 60, secs mod 60, us, Some off))
        by exact (eq_sym Htime)
  end.
  cbn [mbind option_bind].
  unfold of_fields, MINYEAR, MAXYEAR.
  change US_PER_SECOND with 1000000.
  replace (0 * 10 ^ Z.of_nat 4 + y) with y by lia.
  replace (0 * 10 ^ Z.of_nat 2 + m) with m by lia.
  replace (0 * 10 ^ Z.of_nat 2 + d) with d by lia.
  rewrite Hord.
  repeat match goal with
         | |- context [?a <=? ?b] =>
             rewrite (proj2 (Z.leb_le a b)) by lia
         end.
  cbn [andb mbind option_bind]. f_equal. f_equal.
  pose proof (Z.div_mod secs 60 ltac:(lia)).
  pose proof (Z.div_mod (secs / 60) 60 ltac:(lia)).
  assert (E3600 : secs / 3600 = secs / 60 / 60).
  { rewrite Z.div_div by lia. reflexivity. }
  rewrite E3600 in *. lia.
Qed.

(** In particular, what it writes for a UTC instant. *)
Lemma fromisoformat_isoformat (w : Z) :
  0 <= w < MAX_ORDINAL * US_PER_DAY ->
  fromisoformat (isoformat (mk_datetime w (Some 0)))
  = Some (mk_datetime w (Some 0)).
Proof.
  intros Hw. apply fromisoformat_isoformat_east; [exact Hw|].
  change US_PER_DAY with 86400000000. lia.
Qed.

(* ===================================================================== *)
(** ** Expiry dates written by the code *)
(* ===================================================================== *)

(** What [isoformat] writes for a UTC instant ends in [+00:00]. *)
Lemma isoformat_utc_suffix (w : Z) :
  exists l : list ascii,
    chars (isoformat (mk_datetime w (Some 0))) = l ++ chars "+00:00".
Proof.
  rewrite isoformat_chars. cbv zeta.
  destruct (ord2ymd (w / US_PER_DAY + 1)) as [[y m] d].
  eexists. cbn [app].
  repeat (rewrite ?app_comm_cons, ?app_assoc). reflexivity.
Qed.

Lemma normalize_expiry_isoformat (w : Z) :
  normalize_expiry (isoformat (mk_datetime w (Some 0)))
  = isoformat (mk_datetime w (Some 0)).
Proof.
  destruct (isoformat_utc_suffix w) as [l Hl].
  unfold normalize_expiry, endswith, contains. rewrite Hl.
  replace (last (l ++ chars "+00:00")) with (Some "0"%char).
  2:{ change (chars "+00:00") with (chars "+00:0" ++ ["0"%char]).
      now rewrite app_assoc, last_snoc. }
  cbn [Ascii.eqb Bool.eqb]. cbv iota.
  rewrite existsb_app.
  replace (existsb (Ascii.eqb "+") (chars "+00:00")) with true by reflexivity.
  now rewrite orb_true_r.
Qed.

Lemma truthy_isoformat (w : Z) : truthy (isoformat (mk_datetime w (Some 0))) = true.
Proof.
  destruct (isoformat_utc_suffix w) as [l Hl].
  destruct (isoformat (mk_datetime w (Some 0))); [|reflexivity].
  destruct l; discriminate Hl.
Qed.

(** The instant [is_expired] compares the clock with, for a text the code
    wrote itself. *)
Lemma expiry_instant_isoformat (w : Z) :
  in_range w ->
  expiry_instant (Some (isoformat (mk_datetime w (Some 0)))) = Some w.
Proof.
  intros Hw. unfold expiry_instant.
  rewrite truthy_isoformat, normalize_expiry_isoformat.
  rewrite fromisoformat_isoformat by exact Hw.
  cbn. f_equal. unfold utc_instant. cbn. lia.
Qed.

Lemma calculate_expiry_date_run (days : Z) (w : World) :
  0 < days ->
  in_range (clock w (ticks w) + days * US_PER_DAY) ->
  calculate_expiry_date days w
  = (Ok (isoformat (mk_datetime (clock w (ticks w) + days * US_PER_DAY) (Some 0))),
     tick w).
Proof.
  intros Hd Hr. unfold calculate_expiry_date.
  rewrite (proj2 (Z.leb_gt days 0)) by lia.
  msimpl. unfold add_days, now_of. cbn [wall utcoffset].
  destruct Hr as [H0 H1]. fold MAX_ORDINAL.
  rewrite (proj2 (Z.leb_le 0 _) H0), (proj2 (Z.ltb_lt _ _) H1).
  reflexivity.
Qed.

(** X1.  [calculate_expiry_date] refuses a non-positive number of days before
    it reads the clock; for a positive number that keeps within the calendar
    it reads the clock once, and what it writes is read back by
    [fromisoformat] as the instant that many days after the reading, in UTC. *)
Theorem calculate_expiry_date_round_trip (days : Z) (w : World) :
  (days <= 0 ->
   exists msg, calculate_expiry_date days w = (Raise (ValueError msg), w))
  /\ (0 < days ->
      in_range (clock w (ticks w) + days * US_PER_DAY) ->
      exists text,
        calculate_expiry_date days w = (Ok text, tick w)
        /\ fromisoformat text
           = Some (mk_datetime (clock w (ticks w) + days * US_PER_DAY) (Some 0))).
Proof.
  split.
  - intros Hd. unfold calculate_expiry_date.
    rewrite (proj2 (Z.leb_le days 0) Hd). eexists. reflexivity.
  - intros Hd Hr. eexists. split; [apply calculate_expiry_date_run; assumption|].
    apply fromisoformat_isoformat, Hr.
Qed.

Lemma calculate_expiry_date_round_trip_witness :
  (exists msg,
     calculate_expiry_date 0 (quiet_world T0) = (Raise (ValueError msg), quiet_world T0))
  /\ exists text,
       calculate_expiry_date 60 (quiet_world T0) = (Ok text, tick (quiet_world T0))
       /\ fromisoformat text = Some (mk_datetime (T0 + 60 * US_PER_DAY) (Some 0)).
Proof.
  split.
  - apply (proj1 (calculate_expiry_date_round_trip 0 (quiet_world T0))). lia.
  - apply (proj2 (calculate_expiry_date_round_trip 60 (quiet_world T0))).
    + lia.
    + vm_compute. split; [discriminate | reflexivity].
Defined.

(** X2.  A mapping lives for the days it was given: the text
    [calculate_expiry_date] writes is reported alive by [is_expired] at every
    reading of the clock up to the instant [days] days after the creation
    reading, that instant included, and expired at every later one. *)
Theorem expiry_date_expires_after_days (days : Z) (w w' : World) (text : string) :
  0 < days ->
  in_range (clock w (ticks w) + days * US_PER_DAY) ->
  fst (calculate_expiry_date days w) = Ok text ->
  is_expired (Some text) w'
  = (Ok (clock w (ticks w) + days * US_PER_DAY <? clock w' (ticks w')), tick w').
Proof.
  intros Hd Hr Hrun.
  rewrite calculate_expiry_date_run in Hrun by assumption.
  cbn [fst] in Hrun. injection Hrun as <-.
  rewrite is_expired_run, expiry_instant_isoformat by exact Hr.
  unfold utc_instant, now_of. cbn [wall utcoffset default from_option id].
  now rewrite Z.sub_0_r.
Qed.

Lemma expiry_date_expires_after_days_witness :
  is_expired (Some "2026-01-28T08:00:00+00:00") (quiet_world (T0 + 60 * US_PER_DAY))
  = (Ok false, tick (quiet_world (T0 + 60 * US_PER_DAY))).
Proof.
  apply (expiry_date_expires_after_days 60 (quiet_world T0)
           (quiet_world (T0 + 60 * US_PER_DAY)) "2026-01-28T08:00:00+00:00").
  - lia.
  - vm_compute. split; [discriminate | reflexivity].
  - vm_compute. reflexivity.
Defined.

(* ===================================================================== *)
(** ** The store calls, one by one *)
(* ===================================================================== *)

Lemma later_refl (w : World) : later w w.
Proof. now exists 0%nat. Qed.

Lemma later_tick (w w' : World) : later (tick w) w' -> later w w'.
Proof.
  intros [n ->]. exists (S n). rewrite Nat.iter_succ_r. reflexivity.
Qed.

Lemma later_facts (w w' : World) :
  later w w' ->
  clock w' = clock w /\ (ticks w <= ticks w')%nat /\ table w' = table w
  /\ trace w' = trace w /\ faults w' = faults w /\ metrics w' = metrics w
  /\ table_configured w' = table_configured w.
Proof.
  intros [n ->]. induction n as [|n IH]; [now repeat split|].
  rewrite Nat.iter_succ. destruct IH as (? & ? & ? & ? & ? & ? & ?).
  cbn [tick clock ticks table trace faults metrics table_configured].
  repeat split; try assumption. lia.
Qed.

Lemma update_click_count_run (short_id : string) (w : World) :
  update_click_count short_id w
  = if table_configured w then
      (Ok (match get_answer w with None => true | Some _ => false end),
       after_click w short_id)
    else (Ok false, w).
Proof.
  unfold update_click_count, after_click, get_answer.
  unfold mbind at 1, M_bind at 1, bind at 1, is_configured.
  destruct (table_configured w); [|reflexivity]. cbn [negb].
  unfold Table.update_item. msimpl.
  cbn [tick faults table pop_fault].
  destruct (mjoin (head (faults w))) as [e|]; reflexivity.
Qed.

(** The scan of the items a query found never raises and touches nothing
    but the clock; an item it answers is one of the items and was alive at
    one of the readings made. *)
Lemma first_not_expired_run (items : list Item) :
  forall w : World,
    exists (o : option Item) (w' : World),
      first_not_expired items w = (Ok o, w')
      /\ later w w'
      /\ match o with
         | Some it =>
             In it items
             /\ exists k : nat,
                  (ticks w <= k < ticks w')%nat
                  /\ expired_at (clock w k) (expiryDate it) = false
         | None =>
             forall it, In it items ->
               exists k : nat,
                 (ticks w <= k <= ticks w')%nat
                 /\ expired_at (clock w k) (expiryDate it) = true
         end.
Proof.
  induction items as [|it rest IH]; intros w.
  - exists None, w. repeat split; [apply later_refl | intros it []].
  - cbn [first_not_expired]. unfold mbind at 1, M_bind at 1, bind at 1.
    rewrite is_expired_run, expiry_instant_default.
    destruct (expiry_instant (expiryDate it)) as [x|] eqn:Hx.
    + unfold utc_instant, now_of. cbn [wall utcoffset default from_option id].
      rewrite Z.sub_0_r.
      destruct (x <? clock w (ticks w)) eqn:Hlt; cbn [negb].
      * destruct (IH (tick w)) as (o & w' & Hrun & Hl & Ho).
        exists o, w'. split; [exact Hrun|]. split; [now apply later_tick|].
        destruct (later_facts _ _ Hl) as (_ & Hk & _). cbn [tick ticks clock] in *.
        destruct o as [it'|].
        -- destruct Ho as (Hin & k & Hk' & He). split; [now right|].
           exists k. split; [lia | exact He].
        -- intros it' [<- | Hin].
           ++ exists (ticks w). split; [lia|]. unfold expired_at. now rewrite Hx.
           ++ destruct (Ho it' Hin) as (k & Hk' & He). exists k. split; [lia | exact He].
      * exists (Some it), (tick w). split; [reflexivity|].
        split; [now exists 1%nat|]. split; [now left|].
        exists (ticks w). cbn [tick ticks]. split; [lia|].
        unfold expired_at. now rewrite Hx.
    + cbn [negb]. destruct (IH w) as (o & w' & Hrun & Hl & Ho).
      exists o, w'. split; [exact Hrun|]. split; [exact Hl|].
      destruct (later_facts _ _ Hl) as (_ & Hk & _).
      destruct o as [it'|].
      * destruct Ho as (Hin & k & Hk' & He). split; [now right|]. now exists k.
      * intros it' [<- | Hin]; [|now apply Ho].
        exists (ticks w). split; [lia|]. unfold expired_at. now rewrite Hx.
Qed.

Lemma find_existing_url_run (long_url : string) (w : World) :
  find_existing_url long_url w
  = if table_configured w then
      match get_answer w with
      | Some e =>
          (Raise (client_error_exn e "query_existing_url"), after_query w long_url)
      | None => first_not_expired (query_items w long_url) (after_query w long_url)
      end
    else (Raise (DatabaseError "DynamoDB table not configured" None), w).
Proof.
  unfold find_existing_url, table_not_configured, after_query, query_items, get_answer.
  unfold mbind at 1, M_bind at 1, bind at 1, is_configured.
  destruct (table_configured w); [|reflexivity]. cbn [negb].
  unfold Table.query. unfold try_except.
  unfold mbind at 1, M_bind at 1, bind at 1, datetime_now.
  unfold mbind at 1, M_bind at 1, bind at 1.
  unfold mbind at 1, M_bind at 1, bind at 1, next_fault.
  unfold mbind at 1, M_bind at 1, bind at 1, record_call.
  cbn [tick faults].
  destruct (mjoin (head (faults w))) as [e|].
  - unfold raise. cbn [on_client_error]. now rewrite handle_client_error_run.
  - unfold mbind at 1, M_bind at 1, bind at 1, get_table.
    unfold mret, M_ret, ret. cbv beta iota.
    cbn [log_call pop_fault tick table].
    match goal with
    | |- context [first_not_expired ?i ?v] =>
        destruct (first_not_expired_run i v) as (o & w' & -> & _)
    end.
    reflexivity.
Qed.

(* ===================================================================== *)
(** ** What a creation leaves in the table *)
(* ===================================================================== *)

Lemma put_answer_none (w : World) (it : Item) :
  put_answer w it = None -> table w !! shortId it = None.
Proof.
  unfold put_answer. destruct (mjoin (head (faults w))); [discriminate|].
  now destruct (table w !! shortId it).
Qed.

Lemma put_answer_present (w : World) (it old : Item) :
  table w !! shortId it = Some old -> put_answer w it <> None.
Proof.
  intros Hold Hnone. apply put_answer_none in Hnone. congruence.
Qed.

(** A run of the attempt loop that answers a mapping has inserted it under a
    key that was free, with the attributes the loop was given; a run that
    raises leaves the table as it was. *)
Lemma attempt_loop_fresh (l : string) (s : option string) (e : string) (ttl : Z)
    (attempts : list nat) :
  forall (w : World) (r : result (string * Item)) (w' : World),
    attempt_loop attempts l s e ttl w = (r, w') ->
    match r with
    | Ok (id, it) =>
        table w !! id = None /\ table w' = <[id := it]> (table w)
        /\ exists (a k k' : nat),
             id = candidate_of (clock w) l s a k
             /\ it = new_item id l (isoformat (at_tick (clock w) k')) e ttl
             /\ (truthy_opt s = true ->
                 head attempts = Some a
                 /\ (a = 0%nat -> _is_valid_custom_suffix (default "" s) = true))
    | Raise _ => table w' = table w
    end.
Proof.
  induction attempts as [|a rest IH]; intros w r w' Hrun.
  - cbn in Hrun. now injection Hrun as <- <-.
  - rewrite attempt_loop_step in Hrun.
    destruct (next_short_id_cases a l s w) as [Hid | (-> & Hs & Hv & Hid)];
      rewrite Hid in Hrun.
    2:{ now injection Hrun as <- <-. }
    destruct (iter_tick_facts (candidate_ticks s a) w) as (Ht & Hc & Hk & Htb & Hcf).
    set (w1 := Nat.iter (candidate_ticks s a) tick w) in *.
    rewrite create_url_mapping_run in Hrun.
    destruct (table_configured w1).
    2:{ injection Hrun as <- <-. exact Htb. }
    cbv zeta in Hrun.
    set (id := candidate_of (clock w) l s a (ticks w)) in *.
    set (it := new_item id l (isoformat (now_of w1)) e ttl) in *.
    destruct (after_put_facts (tick w1) it) as (Hpt & Hpc & Hpk & Hptb).
    cbn [tick trace clock ticks table] in Hpt, Hpc, Hpk, Hptb.
    rewrite Htb in Hptb.
    destruct (put_answer (tick w1) it) as [err|] eqn:Hans.
    + rewrite class_of_client_error in Hrun.
      destruct (conflict_coded err) eqn:Hcc.
      * destruct (truthy_opt s) eqn:Hs; [now injection Hrun as <- <-|].
        destruct (a =? 2)%nat; [now injection Hrun as <- <-|].
        apply IH in Hrun. cbn [log_metric table clock] in Hrun.
        rewrite Hptb, Hpc, Hc in Hrun.
        destruct r as [[id' it']|]; [|exact Hrun].
        destruct Hrun as (H1 & H2 & a' & k & k' & H3 & H4 & _).
        split; [exact H1|]. split; [exact H2|].
        exists a', k, k'. split; [exact H3|]. split; [exact H4 | discriminate].
      * destruct (String.eqb _ "ResourceNotFoundException");
          now injection Hrun as <- <-.
    + injection Hrun as <- <-.
      apply put_answer_none in Hans. cbn [tick table] in Hans.
      rewrite Htb in Hans. change (shortId it) with id in Hans, Hptb.
      split; [exact Hans|]. split; [exact Hptb|].
      exists a, (ticks w), (ticks w1). split; [reflexivity|].
      split; [unfold it; now rewrite now_of_at_tick, Hc|].
      intros Hs. split; [reflexivity|]. intros ->.
      rewrite next_short_id_run, Hs in Hid. cbn [andb Nat.eqb] in Hid.
      unfold generate_short_url in Hid. rewrite Hs in Hid.
      destruct (_is_valid_custom_suffix (default "" s)); [reflexivity|].
      discriminate Hid.
Qed.




Lemma candidate_of_shape (clk : nat -> Z) (l : string) (s : option string)
    (a k : nat) :
  (truthy_opt s = true /\ a = 0%nat /\ candidate_of clk l s a k = default "" s)
  \/ (String.length (candidate_of clk l s a k) = 6%nat
      /\ Forall in_charset (chars (candidate_of clk l s a k))).
Proof.
  unfold candidate_of.
  destruct (truthy_opt s && (a =? 0)%nat) eqn:Hc.
  - left. apply andb_true_iff in Hc as [Hs Ha]. apply Nat.eqb_eq in Ha. now subst.
  - right. destruct (0 <? a)%nat; apply generated_code_shape.
Qed.

(* ===================================================================== *)
(** ** The store operations: what they keep and what they change *)
(* ===================================================================== *)

Lemma create_url_mapping_any_run (short_id long_url expiry_date : string)
    (ttl click_count : Z) (w : World) :
  create_url_mapping short_id long_url expiry_date ttl click_count w
  = if table_configured w then
      let item :=
        mk_Item short_id (Some long_url) (Some (isoformat (now_of w)))
                (Some expiry_date) (Some ttl) (Some click_count) None in
      (match put_answer (tick w) item with
       | None => Ok item
       | Some e => Raise (client_error_exn e "create_url_mapping")
       end, after_put (tick w) item)
    else (Raise (DatabaseError "DynamoDB table not configured" None), w).
Proof.
  unfold create_url_mapping, table_not_configured.
  unfold mbind at 1, M_bind at 1, bind at 1, is_configured.
  destruct (table_configured w) eqn:Hc; [|reflexivity]. cbn [negb].
  msimpl. rewrite put_item_run. cbv zeta.
  destruct (put_answer _ _) as [e|]; [|reflexivity].
  cbn [on_client_error]. now rewrite handle_client_error_run.
Qed.

(** X3.  [create_url_mapping] never overwrites: whatever the store does,
    every mapping that was in the table is there unchanged afterwards; when
    the key is taken the call raises, and it raises [ConflictError] when the
    table is configured and the store itself does not fail. *)
Theorem create_url_mapping_never_overwrites (short_id long_url expiry_date : string)
    (ttl click_count : Z) (w : World) :
  let run := create_url_mapping short_id long_url expiry_date ttl click_count w in
  (forall (key : string) (old : Item),
     table w !! key = Some old -> table (snd run) !! key = Some old)
  /\ (forall old : Item,
        table w !! short_id = Some old ->
        table (snd run) = table w
        /\ (exists ex, fst run = Raise ex)
        /\ (table_configured w = true -> get_answer w = None ->
            fst run
            = Raise (ConflictError "Resource already exists or condition not met"))).
Proof.
  intros run. unfold run. rewrite create_url_mapping_any_run.
  destruct (table_configured w) eqn:Hc.
  2:{ split; [intros key old H; exact H|]. intros old _.
      split; [reflexivity|]. split; [eexists; reflexivity | discriminate]. }
  cbv zeta.
  set (item := mk_Item short_id _ _ _ _ _ _).
  destruct (after_put_facts (tick w) item) as (_ & _ & _ & Htab).
  cbn [tick table] in Htab. cbn [fst snd]. split.
  - intros key old Hold. rewrite Htab.
    destruct (put_answer (tick w) item) eqn:Hans; [exact Hold|].
    apply put_answer_none in Hans. cbn [tick table] in Hans.
    destruct (decide (key = shortId item)) as [-> | Hne]; [congruence|].
    now rewrite lookup_insert_ne.
  - intros old Hold.
    assert (Hans : put_answer (tick w) item <> None).
    { apply (put_answer_present _ _ old). exact Hold. }
    destruct (put_answer (tick w) item) as [err|] eqn:Herr; [|congruence].
    split; [exact Htab|]. split; [eexists; reflexivity|].
    intros _ Hget. unfold put_answer in Herr. unfold get_answer in Hget.
    cbn [tick faults table] in Herr. rewrite Hget in Herr.
    change (shortId item) with short_id in Herr. rewrite Hold in Herr.
    injection Herr as <-. reflexivity.
Qed.

Lemma create_url_mapping_never_overwrites_witness :
  let w := single_world T0 lapsed_mapping in
  let run := create_url_mapping "MDco7R" "https://other.example"
               "2026-01-28T08:00:00+00:00" 1769587200 0 w in
  fst run = Raise (ConflictError "Resource already exists or condition not met")
  /\ table (snd run) = table w.
Proof.
  intros w run.
  destruct (proj2 (create_url_mapping_never_overwrites "MDco7R"
                     "https://other.example" "2026-01-28T08:00:00+00:00"
                     1769587200 0 w)
                  lapsed_mapping ltac:(apply lookup_singleton_eq))
    as (Htab & _ & Hconflict).
  split; [apply Hconflict; reflexivity | exact Htab].
Defined.

(** X4.  Insert and look up: a mapping [create_url_mapping] has answered is
    what [get_url_by_short_id] finds under its key in the world the creation
    left, unless the store fails the read; it carries the arguments of the
    creation, the creation's clock reading as [createdAt], and no
    [lastAccessedAt]. *)
Theorem created_mapping_is_found (short_id long_url expiry_date : string)
    (ttl click_count : Z) (w w' : World) (item : Item) :
  create_url_mapping short_id long_url expiry_date ttl click_count w = (Ok item, w') ->
  get_answer w' = None ->
  fst (get_url_by_short_id short_id w') = Ok (Some item)
  /\ item = mk_Item short_id (Some long_url) (Some (isoformat (now_of w)))
                    (Some expiry_date) (Some ttl) (Some click_count) None
  /\ new_calls w w' = [put_event item None].
Proof.
  intros Hrun Hget. rewrite create_url_mapping_any_run in Hrun.
  destruct (table_configured w) eqn:Hc; [|discriminate]. cbv zeta in Hrun.
  set (it := mk_Item short_id _ _ _ _ _ _) in *.
  destruct (after_put_facts (tick w) it) as (Htr & _ & _ & Htab).
  destruct (put_answer (tick w) it) eqn:Hans; [discriminate|].
  injection Hrun as <- <-.
  assert (Hcfg : table_configured (after_put (tick w) it) = true).
  { unfold after_put. rewrite Hans. exact Hc. }
  rewrite get_url_by_short_id_run, Hcfg, Hget, Htab. cbn [fst].
  change (shortId it) with short_id. rewrite lookup_insert_eq.
  split; [reflexivity|]. split; [reflexivity|].
  apply new_calls_app. exact Htr.
Qed.

Lemma created_mapping_is_found_witness :
  let run := create_url_mapping "abc123" "https://example.com"
               "2026-01-28T08:00:00+00:00" 1769587200 0 (quiet_world T0) in
  exists item,
    fst run = Ok item
    /\ fst (get_url_by_short_id "abc123" (snd run)) = Ok (Some item).
Proof.
  intros run.
  exists (mk_Item "abc123" (Some "https://example.com")
                  (Some "2025-11-29T08:00:00+00:00")
                  (Some "2026-01-28T08:00:00+00:00") (Some 1769587200) (Some 0) None).
  split; [vm_compute; reflexivity|].
  apply (created_mapping_is_found "abc123" "https://example.com"
           "2026-01-28T08:00:00+00:00" 1769587200 0 (quiet_world T0) (snd run)).
  - vm_compute. reflexivity.
  - vm_compute. reflexivity.
Defined.

(** X5.  [update_click_count] never raises.  When it answers [True] the
    mapping under the key has its counter raised by one (from zero when it
    had none), the clock reading as [lastAccessedAt] and every other
    attribute as before; when it answers [False] the table is as it was.
    Either way no other key is touched. *)
Theorem update_click_count_effect (short_id : string) (w : World) :
  let run := update_click_count short_id w in
  let old := table w !! short_id in
  exists updated : bool,
    fst run = Ok updated
    /\ (updated = false -> table (snd run) = table w)
    /\ (updated = true ->
        exists it : Item,
          table (snd run) !! short_id = Some it
          /\ shortId it = short_id
          /\ clickCount it = Some (default 0 (old ≫= clickCount) + 1)
          /\ lastAccessedAt it = Some (isoformat (now_of w))
          /\ longUrl it = old ≫= longUrl
          /\ createdAt it = old ≫= createdAt
          /\ expiryDate it = old ≫= expiryDate
          /\ ttlTimestamp it = old ≫= ttlTimestamp)
    /\ (forall key : string,
          key <> short_id -> table (snd run) !! key = table w !! key).
Proof.
  intros run old. unfold run. rewrite update_click_count_run.
  destruct (table_configured w).
  2:{ exists false. cbn [fst snd]. repeat split; try discriminate. }
  unfold after_click. cbn [fst snd].
  destruct (get_answer w) as [e|].
  - exists false. repeat split; try discriminate.
  - exists true. split; [reflexivity|]. split; [discriminate|].
    cbn [with_table table]. split.
    + intros _. eexists. split; [apply lookup_insert_eq|].
      unfold clicked_item. fold old. cbn [shortId clickCount lastAccessedAt longUrl
        createdAt expiryDate ttlTimestamp].
      destruct old as [o|]; repeat split; reflexivity.
    + intros key Hne. now rewrite lookup_insert_ne.
Qed.

Lemma update_click_count_effect_witness :
  let w := single_world T0 lapsed_mapping in
  exists it : Item,
    table (snd (update_click_count "MDco7R" w)) !! "MDco7R" = Some it
    /\ clickCount it = Some 4
    /\ longUrl it = Some "https://example.com".
Proof.
  intros w.
  destruct (update_click_count_effect "MDco7R" w)
    as (updated & Hrun & _ & Hdone & _).
  assert (Hup : updated = true).
  { assert (H : fst (update_click_count "MDco7R" w) = Ok true)
      by (vm_compute; reflexivity).
    rewrite H in Hrun. now injection Hrun. }
  destruct (Hdone Hup) as (it & Hit & _ & Hcount & _ & Hlong & _).
  exists it. split; [exact Hit|].
  change (table w !! "MDco7R") with (Some lapsed_mapping) in Hcount, Hlong.
  split; [exact Hcount | exact Hlong].
Defined.

(** X6.  What the deduplication lookup answers.  A mapping
    [find_existing_url] returns is in the table, has the URL asked for,
    carries a [ttlTimestamp] beyond the whole second of the query's clock
    reading, and was alive by its [expiryDate] at a later reading made during
    the call.  When the lookup answers [None], every mapping of the table
    with that URL has failed one of the two tests.  Either way the lookup is
    one query and leaves the table alone. *)
Theorem find_existing_url_sound (long_url : string) (w w' : World)
    (found : option Item) :
  find_existing_url long_url w = (Ok found, w') ->
  table w' = table w
  /\ new_calls w w'
     = [mk_StoreEvent (Query long_url (int_timestamp (now_of w))) None]
  /\ match found with
     | Some it =>
         (exists key, table w !! key = Some it)
         /\ longUrl it = Some long_url
         /\ (exists ttl, ttlTimestamp it = Some ttl /\ int_timestamp (now_of w) < ttl)
         /\ exists k : nat,
              (ticks w < k < ticks w')%nat
              /\ expired_at (clock w k) (expiryDate it) = false
     | None =>
         forall (key : string) (it : Item),
           table w !! key = Some it -> longUrl it = Some long_url ->
           Table.query_keeps long_url (int_timestamp (now_of w)) it = false
           \/ exists k : nat,
                (ticks w < k <= ticks w')%nat
                /\ expired_at (clock w k) (expiryDate it) = true
     end.
Proof.
  intros Hrun. rewrite find_existing_url_run in Hrun.
  destruct (table_configured w); [|discriminate].
  destruct (get_answer w) eqn:Hget; [discriminate|].
  destruct (first_not_expired_run (query_items w long_url) (after_query w long_url))
    as (o & w1 & Hscan & Hl & Ho).
  rewrite Hscan in Hrun. injection Hrun as -> ->.
  destruct (later_facts _ _ Hl) as (Hclk & Hk & Htab & Htr & _).
  unfold after_query in Hclk, Hk, Htab, Htr.
  cbn [log_call pop_fault tick clock ticks table trace] in Hclk, Hk, Htab, Htr.
  split; [exact Htab|]. split.
  { apply new_calls_app. rewrite Htr, Hget. reflexivity. }
  assert (Hmem : forall it, In it (query_items w long_url) <->
            (exists key, table w !! key = Some it)
            /\ Table.query_keeps long_url (int_timestamp (now_of w)) it = true).
  { intros it. unfold query_items. rewrite filter_In, <- list_elem_of_In.
    rewrite list_elem_of_fmap. split.
    - intros [([key it'] & -> & Hin) Hq]. apply elem_of_map_to_list in Hin.
      split; [now exists key | exact Hq].
    - intros [[key Hkey] Hq]. split; [|exact Hq].
      exists (key, it). split; [reflexivity|]. now apply elem_of_map_to_list. }
  unfold after_query in Ho. cbn [log_call pop_fault tick clock ticks] in Ho.
  destruct found as [it|].
  - destruct Ho as (Hin & k & Hk' & He). apply Hmem in Hin as [Hkey Hq].
    split; [exact Hkey|].
    unfold Table.query_keeps in Hq. apply andb_true_iff in Hq as [Hurl Httl].
    apply bool_decide_eq_true in Hurl. split; [exact Hurl|].
    destruct (ttlTimestamp it) as [ttl|]; [|discriminate].
    apply Z.ltb_lt in Httl. split; [now exists ttl|].
    exists k. split; [lia | exact He].
  - intros key it Hkey Hurl.
    destruct (Table.query_keeps long_url (int_timestamp (now_of w)) it) eqn:Hq;
      [right | now left].
    destruct (Ho it) as (k & Hk' & He).
    { apply Hmem. split; [now exists key | exact Hq]. }
    exists k. split; [lia | exact He].
Qed.

Lemma find_existing_url_sound_witness :
  let w := single_world T0 stale_ttl_mapping in
  let run := find_existing_url "https://example.com" w in
  fst run = Ok (Some stale_ttl_mapping) /\ table (snd run) = table w.
Proof.
  intros w run. split; [vm_compute; reflexivity|].
  apply (find_existing_url_sound "https://example.com" w (snd run)
           (Some stale_ttl_mapping)).
  vm_compute. reflexivity.
Defined.

(* ===================================================================== *)
(** ** The two handlers, case by case *)
(* ===================================================================== *)

(** The create handler, one case per way through it. *)
Lemma create_handler_run (event : Event) (w : World) :
  lambda_handler event w
  = let failed (e : exn) (w' : World) :=
      (Ok (fst (create_failure e)), log_metric (snd (create_failure e)) w') in
    match event_body event with
    | BodyMissing => failed (ValueError "Request body is required") w
    | BodyNotJson => failed (JSONDecodeError "Invalid JSON in request body") w
    | BodyObject long_url custom_suffix =>
        if negb (truthy_opt long_url) then
          failed (ValidationError "Missing required field: longUrl") w
        else if negb (is_valid_url (default "" long_url)) then
          failed (ValidationError "Invalid URL format") w
        else
          match find_existing_url (default "" long_url) w with
          | (Raise e, w1) => failed e w1
          | (Ok (Some existing), w1) =>
              let w2 := log_metric "ExistingUrlReturned" w1 in
              match longUrl existing, expiryDate existing with
              | Some l, Some x =>
                  (Ok (create_json_response HTTP_STATUS_OK
                         (created_body (base_url event) (shortId existing) l x false)),
                   w2)
              | None, _ => failed (KeyError "longUrl") w2
              | Some _, None => failed (KeyError "expiryDate") w2
              end
          | (Ok None, w1) =>
              match create_short_url_with_retry (default "" long_url)
                                                custom_suffix w1 with
              | (Raise e, w2) => failed e w2
              | (Ok (short_id, created), w2) =>
                  let w3 := log_metric "NewUrlCreated" w2 in
                  match expiryDate created with
                  | Some x =>
                      (Ok (create_json_response HTTP_STATUS_CREATED
                             (created_body (base_url event) short_id
                                           (default "" long_url) x true)),
                       w3)
                  | None => failed (KeyError "expiryDate") w3
                  end
              end
          end
    end.
Proof.
  cbv zeta. unfold lambda_handler, parse_request_body, try_except.
  unfold mbind at 1, M_bind at 1, bind at 1.
  destruct (event_body event) as [| |long_url custom_suffix]; try reflexivity.
  unfold mret at 1, M_ret at 1, ret at 1. cbv beta iota.
  destruct (truthy_opt long_url); cbn [negb]; [|reflexivity].
  destruct (is_valid_url (default "" long_url)); cbn [negb]; [|reflexivity].
  unfold mbind at 1, M_bind at 1, bind at 1.
  destruct (find_existing_url (default "" long_url) w) as [[[existing|]|e] w1].
  - unfold subscript. msimpl.
    destruct (longUrl existing) as [l|]; [|reflexivity].
    destruct (expiryDate existing) as [x|]; reflexivity.
  - unfold mbind at 1, M_bind at 1, bind at 1.
    destruct (create_short_url_with_retry (default "" long_url) custom_suffix w1)
      as [[[short_id created]|e] w2].
    + unfold subscript. msimpl.
      destruct (expiryDate created) as [x|]; reflexivity.
    + unfold create_failure. destruct (class_of e); reflexivity.
  - unfold create_failure. destruct (class_of e); reflexivity.
Qed.

(** The resolve handler, one case per way through it. *)
Lemma redirect_handler_run (event : Event) (w : World) :
  redirectURL.lambda_handler event w
  = let failed (e : exn) (w' : World) :=
      (Ok (fst (redirect_failure e)), log_metric (snd (redirect_failure e)) w') in
    let short_id := default "" (path_short_id event) in
    if negb (truthy_opt (path_short_id event)) then
      failed (ValidationError "Missing short URL identifier") w
    else
      match get_url_by_short_id short_id w with
      | (Raise e, w1) => failed e w1
      | (Ok None, w1) =>
          (Ok (create_json_response HTTP_STATUS_NOT_FOUND
                 [ ("error", JStr "URL not found");
                   ("message",
                    JStr "The short URL you're looking for doesn't exist.");
                   ("shortId", JStr short_id) ]),
           log_metric "UrlNotFound" w1)
      | (Ok (Some item), w1) =>
          if expired_at (utc_instant (now_of w1)) (expiryDate item) then
            (Ok (create_json_response HTTP_STATUS_GONE
                   [ ("error", JStr "URL expired");
                     ("message",
                      JStr "This short URL has expired and is no longer valid.");
                     ("shortId", JStr short_id);
                     ("expiredAt", JOpt (expiryDate item)) ]),
             log_metric "UrlExpired"
               (match expiry_instant (expiryDate item) with
                | Some _ => tick w1
                | None => w1
                end))
          else
            let w2 := snd (update_click_count short_id (tick w1)) in
            match longUrl item with
            | Some l =>
                (Ok (create_redirect_response l), log_metric "SuccessfulRedirects" w2)
            | None =>
                failed (TypeError "'NoneType' object is not subscriptable") w2
            end
      end.
Proof.
  cbv zeta. unfold redirectURL.lambda_handler, try_except.
  destruct (truthy_opt (path_short_id event)); cbn [negb]; [|reflexivity].
  unfold mbind at 1, M_bind at 1, bind at 1.
  destruct (get_url_by_short_id (default "" (path_short_id event)) w)
    as [[[item|]|e] w1].
  - unfold redirectURL.resolve_item.
    unfold mbind at 1, M_bind at 1, bind at 1.
    rewrite is_expired_run. unfold expired_at.
    destruct (expiry_instant (expiryDate item)) as [x|]; [|reflexivity].
    destruct (x <? utc_instant (now_of w1)); [reflexivity|].
    unfold mbind at 1, M_bind at 1, bind at 1.
    rewrite update_click_count_run.
    destruct (table_configured (tick w1)); cbn [snd];
      (destruct (longUrl item) as [l|]; reflexivity).
  - reflexivity.
  - unfold redirectURL.on_error, redirect_failure.
    destruct (class_of e); reflexivity.
Qed.



Lemma redirect_failure_status (e : exn) :
  In (statusCode (fst (redirect_failure e))) [400; 500]
  /\ location (fst (redirect_failure e)) = None.
Proof. destruct e; cbn; auto 6. Qed.


Lemma after_click_table (w : World) (short_id : string) :
  table (after_click w short_id)
  = match get_answer w with
    | None =>
        <[short_id := clicked_item short_id (isoformat (now_of w))
                                   (table w !! short_id)]> (table w)
    | Some _ => table w
    end.
Proof. unfold after_click. now destruct (get_answer w). Qed.

(** What a click may change in the table: nothing under another key, and
    under the key itself neither the target nor the dates. *)
Lemma click_frame (w : World) (short_id : string) :
  let w' := snd (update_click_count short_id w) in
  (forall key : string, key <> short_id -> table w' !! key = table w !! key)
  /\ (forall old : Item,
        table w !! short_id = Some old ->
        exists it : Item,
          table w' !! short_id = Some it
          /\ longUrl it = longUrl old /\ expiryDate it = expiryDate old
          /\ createdAt it = createdAt old /\ ttlTimestamp it = ttlTimestamp old
          /\ (clickCount it = clickCount old
              \/ clickCount it = Some (default 0 (clickCount old) + 1))).
Proof.
  cbv zeta. rewrite update_click_count_run.
  destruct (table_configured w); cbn [snd].
  2:{ split; [reflexivity|]. intros old Hold. exists old. repeat split; auto. }
  rewrite after_click_table. destruct (get_answer w).
  { split; [reflexivity|]. intros old Hold. exists old. repeat split; auto. }
  split; [intros key Hne; now rewrite lookup_insert_ne|].
  intros old Hold. rewrite Hold, lookup_insert_eq. eexists. split; [reflexivity|].
  cbn. repeat split; auto.
Qed.

(** X8.  The resolve handler never raises: it answers 302, 400, 404, 410 or
    500, with a [Location] exactly when it answers 302, and then the
    [Location] is the [longUrl] stored under the requested key.  It leaves
    every other key of the table alone, changes nothing at all when it
    answers 400, 404 or 410, and under the requested key never changes the
    target, the dates or the time-to-live: at most the click counter goes up
    by one. *)
Theorem redirect_handler_answers (event : Event) (w : World) :
  let run := redirectURL.lambda_handler event w in
  let short_id := default "" (path_short_id event) in
  exists resp : Response,
    fst run = Ok resp
    /\ In (statusCode resp) [302; 400; 404; 410; 500]
    /\ (statusCode resp = 302 <-> location resp <> None)
    /\ (statusCode resp = 302 ->
        exists item : Item,
          table w !! short_id = Some item /\ location resp = longUrl item)
    /\ (In (statusCode resp) [400; 404; 410] -> table (snd run) = table w)
    /\ (forall key : string,
          key <> short_id -> table (snd run) !! key = table w !! key)
    /\ (forall old : Item,
          table w !! short_id = Some old ->
          exists it : Item,
            table (snd run) !! short_id = Some it
            /\ longUrl it = longUrl old /\ expiryDate it = expiryDate old
            /\ createdAt it = createdAt old /\ ttlTimestamp it = ttlTimestamp old
            /\ (clickCount it = clickCount old
                \/ clickCount it = Some (default 0 (clickCount old) + 1))).
Proof.
  intros run short_id. unfold run. rewrite redirect_handler_run. cbv zeta.
  fold short_id.
  assert (Hsame : forall (resp : Response) (w' : World),
            table w' = table w ->
            In (statusCode resp) [400; 404; 410; 500] ->
            location resp = None ->
            exists resp0 : Response,
              fst (Ok resp, w') = Ok resp0
              /\ In (statusCode resp0) [302; 400; 404; 410; 500]
              /\ (statusCode resp0 = 302 <-> location resp0 <> None)
              /\ (statusCode resp0 = 302 ->
                  exists item : Item,
                    table w !! short_id = Some item
                    /\ location resp0 = longUrl item)
              /\ (In (statusCode resp0) [400; 404; 410] ->
                  table (snd (Ok resp, w')) = table w)
              /\ (forall key : string,
                    key <> short_id ->
                    table (snd (Ok resp, w')) !! key = table w !! key)
              /\ (forall old : Item,
                    table w !! short_id = Some old ->
                    exists it : Item,
                      table (snd (Ok resp, w')) !! short_id = Some it
                      /\ longUrl it = longUrl old /\ expiryDate it = expiryDate old
                      /\ createdAt it = createdAt old
                      /\ ttlTimestamp it = ttlTimestamp old
                      /\ (clickCount it = clickCount old
                          \/ clickCount it
                             = Some (default 0 (clickCount old) + 1)))).
  { intros resp w' Htab Hst Hloc. exists resp. cbn [fst snd]. rewrite Htab.
    assert (Hne : statusCode resp <> 302).
    { intros H. rewrite H in Hst. cbn in Hst. intuition discriminate. }
    split; [reflexivity|]. split; [cbn in Hst |- *; intuition|].
    split; [split; [intros H; now destruct Hne | intros H; now destruct H]|].
    split; [intros H; now destruct Hne|]. split; [reflexivity|].
    split; [reflexivity|]. intros old Hold. exists old. repeat split; auto. }
  assert (Hfail : forall (e : exn) (w' : World),
            table w' = table w ->
            table (log_metric (snd (redirect_failure e)) w') = table w
            /\ In (statusCode (fst (redirect_failure e))) [400; 404; 410; 500]
            /\ location (fst (redirect_failure e)) = None).
  { intros e w' Htab. destruct (redirect_failure_status e) as [Hst Hloc].
    split; [exact Htab|]. split; [cbn in Hst |- *; intuition | exact Hloc]. }
  destruct (truthy_opt (path_short_id event)); cbn [negb].
  2:{ destruct (Hfail (ValidationError "Missing short URL identifier") w eq_refl)
        as (H1 & H2 & H3). now apply Hsame. }
  rewrite get_url_by_short_id_run.
  destruct (table_configured w).
  2:{ destruct (Hfail (DatabaseError "DynamoDB table not configured" None) w eq_refl)
        as (H1 & H2 & H3). now apply Hsame. }
  set (w1 := log_call _ (pop_fault w)).
  assert (Hw1 : table w1 = table w) by reflexivity.
  destruct (get_answer w) as [err|].
  { destruct (Hfail (client_error_exn err "get_item") w1 Hw1) as (H1 & H2 & H3).
    now apply Hsame. }
  destruct (table w !! short_id) as [item|] eqn:Hitem.
  2:{ apply Hsame; [exact Hw1 | cbn; auto | reflexivity]. }
  destruct (expired_at (utc_instant (now_of w1)) (expiryDate item)).
  { apply Hsame; [|cbn; auto | reflexivity].
    cbn [log_metric table]. now destruct (expiry_instant (expiryDate item)). }
  destruct (click_frame (tick w1) short_id) as [Hother Hkey].
  cbn [tick table] in Hother, Hkey. rewrite Hw1 in Hother, Hkey.
  set (w2 := snd (update_click_count short_id (tick w1))) in *.
  destruct (longUrl item) as [l|] eqn:Hlong.
  - eexists. cbn [fst snd log_metric table]. split; [reflexivity|].
    cbn [create_redirect_response statusCode location].
    split; [cbn; auto|]. split; [split; [discriminate | reflexivity]|].
    split; [intros _; exists item; now rewrite Hlong|].
    split; [cbn; intuition discriminate|]. split; [exact Hother|].
    intros old [= <-]. destruct (Hkey item Hitem) as (it & H & Hs).
    exists it. split; assumption.
  - eexists. cbn [fst snd log_metric table]. split; [reflexivity|].
    cbn [redirect_failure class_of create_json_response statusCode location fst].
    split; [cbn; auto 6|].
    split; [split; [discriminate | intros H; now destruct H]|].
    split; [discriminate|]. split; [cbn; intuition discriminate|].
    split; [exact Hother|].
    intros old [= <-]. destruct (Hkey item Hitem) as (it & H & Hs).
    exists it. split; assumption.
Qed.

(** X9.  A live mapping is redirected to, and the click is counted as far as
    the store allows.  With the table configured and the read served, a
    request for a key whose mapping has a [longUrl] and is not expired at the
    first clock reading is answered 302 to that [longUrl] after exactly two
    store calls, the read and the counter update stamped with the second
    reading; when the store fails the update, the answer is the same and the
    table is as it was. *)
Theorem redirect_counts_best_effort (event : Event) (short_id l : string)
    (item : Item) (w : World) :
  path_short_id event = Some short_id -> truthy short_id = true ->
  table_configured w = true -> get_answer w = None ->
  table w !! short_id = Some item -> longUrl item = Some l ->
  expired_at (clock w (ticks w)) (expiryDate item) = false ->
  let run := redirectURL.lambda_handler event w in
  let timestamp := isoformat (at_tick (clock w) (S (ticks w))) in
  let counted := get_answer (pop_fault w) in
  fst run = Ok (create_redirect_response l)
  /\ new_calls w (snd run)
     = [ mk_StoreEvent (GetItem short_id) None;
         mk_StoreEvent (UpdateItem short_id timestamp) counted ]
  /\ metrics (snd run) = metrics w ++ ["SuccessfulRedirects"]
  /\ ticks (snd run) = (2 + ticks w)%nat
  /\ table (snd run)
     = match counted with
       | None =>
           <[short_id := clicked_item short_id timestamp (Some item)]> (table w)
       | Some _ => table w
       end.
Proof.
  intros Hpath Hid Hcfg Hget Hitem Hlong Halive run timestamp counted.
  unfold run. rewrite redirect_handler_run. cbv zeta.
  rewrite Hpath. cbn [truthy_opt default from_option id]. rewrite Hid. cbn [negb].
  rewrite get_url_by_short_id_run, Hcfg, Hget, Hitem.
  set (w1 := log_call _ (pop_fault w)).
  change (utc_instant (now_of w1)) with (clock w (ticks w) - 0).
  rewrite Z.sub_0_r, Halive, Hlong. cbn [fst snd].
  rewrite update_click_count_run.
  change (table_configured (tick w1)) with (table_configured w). rewrite Hcfg.
  cbn [snd]. unfold after_click.
  change (get_answer (tick w1)) with counted.
  change (isoformat (now_of (tick w1))) with timestamp.
  change (table (tick w1) !! short_id) with (table w !! short_id). rewrite Hitem.
  split; [reflexivity|]. split.
  { apply new_calls_app.
    destruct counted; cbn [trace log_metric log_call with_table pop_fault tick w1];
      now rewrite <- app_assoc. }
  destruct counted; repeat split; reflexivity.
Qed.

Lemma redirect_counts_best_effort_witness :
  let w := mk_World (fun n => T0 + Z.of_nat n) 0 true
                    {["MDco7R" := stale_ttl_mapping]} [None; Some throttled] [] [] in
  let run := redirectURL.lambda_handler (resolve_event "MDco7R") w in
  fst run = Ok (create_redirect_response "https://example.com")
  /\ table (snd run) = table w.
Proof.
  intros w run.
  destruct (redirect_counts_best_effort (resolve_event "MDco7R") "MDco7R"
              "https://example.com" stale_ttl_mapping w
              eq_refl eq_refl eq_refl eq_refl
              ltac:(apply lookup_singleton_eq) eq_refl
              ltac:(vm_compute; reflexivity))
    as (Hresp & _ & _ & _ & Htab).
  split; [exact Hresp | exact Htab].
Defined.

(* ===================================================================== *)
(** ** What the orchestrator writes *)
(* ===================================================================== *)


(** X10.  The orchestrator writes under free keys only.  A run that answers
    a mapping has inserted exactly that mapping, under a key the table did
    not hold, for the URL it was given, with a click count of zero; the key
    is the custom suffix, which then is a valid one, when the request brought
    a non-empty one, and otherwise a generated code of six characters of
    [A-Za-z0-9_-].  A run that raises leaves the table as it was. *)
Theorem orchestrator_inserts_under_free_key (l : string) (s : option string)
    (w : World) (r : result (string * Item)) (w' : World) :
  create_short_url_with_retry l s w = (r, w') ->
  match r with
  | Ok (id, it) =>
      table w !! id = None
      /\ table w' = <[id := it]> (table w)
      /\ shortId it = id /\ longUrl it = Some l
      /\ clickCount it = Some 0 /\ lastAccessedAt it = None
      /\ (if truthy_opt s
          then id = default "" s /\ _is_valid_custom_suffix id = true
          else String.length id = 6%nat /\ Forall in_charset (chars id))
  | Raise _ => table w' = table w
  end.
Proof.
  intros Hrun.
  apply create_short_url_with_retry_run in Hrun
    as [(_ & Htab & ex & -> & _) | (e & ttl & Hloop)]; [exact Htab|].
  apply attempt_loop_fresh in Hloop. destruct r as [[id it]|]; [|exact Hloop].
  destruct Hloop as (Hfree & Htab & a & k & k' & Hid & Hit & Hsuffix).
  cbn [tick table] in Hfree, Htab.
  split; [exact Hfree|]. split; [exact Htab|]. rewrite Hit.
  cbn [new_item shortId longUrl clickCount lastAccessedAt].
  do 4 (split; [reflexivity|]).
  destruct (truthy_opt s) eqn:Hs.
  - destruct (Hsuffix eq_refl) as [Hhead Hvalid]. cbn in Hhead.
    injection Hhead as <-. rewrite Hid. unfold candidate_of. rewrite Hs.
    cbn [andb Nat.eqb]. split; [reflexivity | now apply Hvalid].
  - rewrite Hid.
    destruct (candidate_of_shape (clock (tick w)) l s a k)
      as [(Hs' & _) | Hshape]; [congruence | exact Hshape].
Qed.

Lemma orchestrator_inserts_under_free_key_witness :
  let run := create_short_url_with_retry "https://example.com" (Some "my-link")
               (quiet_world T0) in
  exists it : Item,
    fst run = Ok ("my-link", it)
    /\ table (snd run) = <["my-link" := it]> (table (quiet_world T0)).
Proof.
  intros run.
  pose proof (orchestrator_inserts_under_free_key "https://example.com"
                (Some "my-link") (quiet_world T0) (fst run) (snd run)
                ltac:(vm_compute; reflexivity)) as H.
  assert (Hr : exists it, fst run = Ok ("my-link", it))
    by (vm_compute; eexists; reflexivity).
  destruct Hr as [it Hr]. rewrite Hr in H. exists it.
  split; [exact Hr | exact (proj1 (proj2 H))].
Defined.



(* ===================================================================== *)
(** ** From a creation to the requests that follow it *)
(* ===================================================================== *)













(* ===================================================================== *)
(** ** The patterns: what [accepts] decides *)
(* ===================================================================== *)

Import Re.

Lemma lang_void_inv (l : list ascii) : ~ lang Void l.
Proof. intros H. inversion H. Qed.

Lemma lang_eps_inv (l : list ascii) : lang Eps l -> l = [].
Proof. intros H. now inversion H. Qed.

Lemma lang_class_inv (p : ascii -> bool) (l : list ascii) :
  lang (Class p) l -> exists c, l = [c] /\ p c = true.
Proof. intros H. inversion H; subst. now exists c. Qed.

Lemma lang_cat_inv (a b : re) (l : list ascii) :
  lang (Cat a b) l -> exists l1 l2, l = l1 ++ l2 /\ lang a l1 /\ lang b l2.
Proof. intros H. inversion H; subst. now exists l1, l2. Qed.

Lemma lang_alt_inv (a b : re) (l : list ascii) :
  lang (Alt a b) l -> lang a l \/ lang b l.
Proof. intros H. inversion H; subst; auto. Qed.

(** A non-empty text of [a*] starts with a non-empty text of [a]. *)
Lemma lang_star_cons_inv (a : re) (c : ascii) (l : list ascii) :
  lang (Star a) (c :: l) ->
  exists l1 l2, l = l1 ++ l2 /\ lang a (c :: l1) /\ lang (Star a) l2.
Proof.
  intros H. remember (Star a) as r eqn:Hr. remember (c :: l) as t eqn:Ht.
  revert c l Ht.
  induction H as [| | | | | |a' l1 l2 H1 _ H2 IH2]; try discriminate.
  injection Hr as ->. intros c l Ht.
  destruct l1 as [|d l1].
  - cbn in Ht. now apply IH2.
  - cbn in Ht. injection Ht as -> <-. now exists l1, l2.
Qed.

Lemma nullable_lang (r : re) : nullable r = true <-> lang r [].
Proof.
  induction r as [| |p|a IHa b IHb|a IHa b IHb|a IHa]; cbn.
  - split; [discriminate | intros H; inversion H].
  - split; [constructor | reflexivity].
  - split; [discriminate | intros H; inversion H].
  - rewrite andb_true_iff, IHa, IHb. split.
    + intros [Ha Hb]. now apply (lang_cat a b [] []).
    + intros H. apply lang_cat_inv in H as (l1 & l2 & Hl & Ha & Hb).
      symmetry in Hl. apply app_eq_nil in Hl as [-> ->]. now split.
  - rewrite orb_true_iff, IHa, IHb. split.
    + intros [Ha | Hb]; [now apply lang_alt_l | now apply lang_alt_r].
    + apply lang_alt_inv.
  - split; [constructor | reflexivity].
Qed.

Lemma deriv_lang (c : ascii) (r : re) :
  forall l, lang (deriv c r) l <-> lang r (c :: l).
Proof.
  induction r as [| |p|a IHa b IHb|a IHa b IHb|a IHa]; intros l;
    cbn [deriv].
  - split; intros H; inversion H.
  - split; intros H; inversion H.
  - destruct (p c) eqn:Hp; split; intros H.
    + apply lang_eps_inv in H as ->. now constructor.
    + apply lang_class_inv in H as (d & [= <- ->] & _). constructor.
    + inversion H.
    + apply lang_class_inv in H as (d & [= <- ->] & Hd). congruence.
  - assert (Hcat : lang (Cat (deriv c a) b) l
                   <-> exists l1 l2, l = l1 ++ l2 /\ lang a (c :: l1) /\ lang b l2).
    { split.
      - intros H. apply lang_cat_inv in H as (l1 & l2 & -> & Ha & Hb).
        exists l1, l2. split; [reflexivity|]. split; [now apply IHa | exact Hb].
      - intros (l1 & l2 & -> & Ha & Hb). constructor; [now apply IHa | exact Hb]. }
    assert (Hsplit : lang (Cat a b) (c :: l)
                     <-> (exists l1 l2, l = l1 ++ l2 /\ lang a (c :: l1) /\ lang b l2)
                         \/ (lang a [] /\ lang b (c :: l))).
    { split.
      - intros H. apply lang_cat_inv in H as (l1 & l2 & Hl & Ha & Hb).
        destruct l1 as [|d l1].
        + cbn in Hl. subst l2. now right.
        + cbn in Hl. injection Hl as <- ->. left. now exists l1, l2.
      - intros [(l1 & l2 & -> & Ha & Hb) | [Ha Hb]].
        + now apply (lang_cat a b (c :: l1) l2).
        + now apply (lang_cat a b [] (c :: l)). }
    rewrite Hsplit. destruct (nullable a) eqn:Hn.
    + split.
      * intros H. apply lang_alt_inv in H as [H | H].
        -- left. now apply Hcat.
        -- right. split; [now apply nullable_lang | now apply IHb].
      * intros [H | [_ Hb]].
        -- apply lang_alt_l. now apply Hcat.
        -- apply lang_alt_r. now apply IHb.
    + rewrite Hcat. split; [now left|]. intros [H | [Ha _]]; [exact H|].
      apply nullable_lang in Ha. congruence.
  - split.
    + intros H. apply lang_alt_inv in H as [H | H].
      * apply lang_alt_l. now apply IHa.
      * apply lang_alt_r. now apply IHb.
    + intros H. apply lang_alt_inv in H as [H | H].
      * apply lang_alt_l. now apply IHa.
      * apply lang_alt_r. now apply IHb.
  - split.
    + intros H. apply lang_cat_inv in H as (l1 & l2 & -> & Ha & Hs).
      apply (lang_star_cons a (c :: l1) l2); [now apply IHa | exact Hs].
    + intros H. apply lang_star_cons_inv in H as (l1 & l2 & -> & Ha & Hs).
      constructor; [now apply IHa | exact Hs].
Qed.

Lemma lang_cat_eps_l (b : re) (l : list ascii) : lang (Cat Eps b) l <-> lang b l.
Proof.
  split.
  - intros H. apply lang_cat_inv in H as (l1 & l2 & -> & H1 & H2).
    now apply lang_eps_inv in H1 as ->.
  - intros H. apply (lang_cat Eps b [] l); [constructor | exact H].
Qed.

Lemma lang_cat_eps_r (a : re) (l : list ascii) : lang (Cat a Eps) l <-> lang a l.
Proof.
  split.
  - intros H. apply lang_cat_inv in H as (l1 & l2 & -> & H1 & H2).
    apply lang_eps_inv in H2 as ->. now rewrite app_nil_r.
  - intros H. rewrite <- (app_nil_r l). apply lang_cat; [exact H | constructor].
Qed.

Lemma lang_cat_congr (a a' b b' : re) :
  (forall l, lang a' l <-> lang a l) -> (forall l, lang b' l <-> lang b l) ->
  forall l, lang (Cat a' b') l <-> lang (Cat a b) l.
Proof.
  intros Ha Hb l. split; intros H;
    apply lang_cat_inv in H as (l1 & l2 & -> & H1 & H2);
    (constructor; [now apply Ha | now apply Hb]).
Qed.

Lemma lang_alt_congr (a a' b b' : re) :
  (forall l, lang a' l <-> lang a l) -> (forall l, lang b' l <-> lang b l) ->
  forall l, lang (Alt a' b') l <-> lang (Alt a b) l.
Proof.
  intros Ha Hb l. split; intros H; apply lang_alt_inv in H as [H | H];
    solve [apply lang_alt_l; now apply Ha | apply lang_alt_r; now apply Hb].
Qed.

Lemma simp_lang (r : re) : forall l, lang (simp r) l <-> lang r l.
Proof.
  induction r as [| |p|a IHa b IHb|a IHa b IHb|a IHa]; intros l;
    try reflexivity.
  - rewrite <- (lang_cat_congr a (simp a) b (simp b) IHa IHb l).
    cbn [simp].
    destruct (simp a) eqn:Ea; destruct (simp b) eqn:Eb;
      try reflexivity;
      try (split; [intros H; now inversion H
                  | intros H; apply lang_cat_inv in H as (? & ? & _ & H1 & H2);
                    solve [inversion H1 | inversion H2]]);
      try (symmetry; apply lang_cat_eps_l);
      try (symmetry; apply lang_cat_eps_r).
  - rewrite <- (lang_alt_congr a (simp a) b (simp b) IHa IHb l).
    cbn [simp].
    destruct (simp a) eqn:Ea; destruct (simp b) eqn:Eb;
      try reflexivity;
      try (split; [intros H; now apply lang_alt_r
                  | intros H; apply lang_alt_inv in H as [H | H];
                    [inversion H | exact H]]);
      try (split; [intros H; now apply lang_alt_l
                  | intros H; apply lang_alt_inv in H as [H | H];
                    [exact H | inversion H]]).
Qed.

(** [accepts] decides the language of a pattern. *)
Lemma accepts_lang (l : list ascii) : forall r, accepts r l = true <-> lang r l.
Proof.
  induction l as [|c l IH]; intros r; cbn [accepts].
  - apply nullable_lang.
  - rewrite IH, simp_lang. apply deriv_lang.
Qed.

Lemma classes_within_lang (q : ascii -> bool) (r : re) (l : list ascii) :
  classes_within q r -> lang r l -> Forall (fun c => q c = true) l.
Proof.
  intros Hq H. induction H; cbn in Hq.
  - constructor.
  - constructor; [now apply Hq | constructor].
  - apply Forall_app. split; [apply IHlang1 | apply IHlang2]; tauto.
  - apply IHlang. tauto.
  - apply IHlang. tauto.
  - constructor.
  - apply Forall_app. split; [now apply IHlang1 | now apply IHlang2].
Qed.

Lemma lang_star_class (p : ascii -> bool) (l : list ascii) :
  lang (Star (Class p)) l <-> Forall (fun c => p c = true) l.
Proof.
  split.
  - apply classes_within_lang. cbn. auto.
  - induction 1 as [|c l Hc _ IH]; [constructor|].
    apply (lang_star_cons (Class p) [c] l); [now constructor | exact IH].
Qed.

Lemma lang_plus_class (p : ascii -> bool) (l : list ascii) :
  lang (Plus (Class p)) l <-> l <> [] /\ Forall (fun c => p c = true) l.
Proof.
  unfold Plus. split.
  - intros H. apply lang_cat_inv in H as (l1 & l2 & -> & H1 & H2).
    apply lang_class_inv in H1 as (c & -> & Hc). split; [discriminate|].
    constructor; [exact Hc | now apply lang_star_class].
  - intros [Hne Hall]. destruct Hall as [|c l Hc Hall]; [congruence|].
    apply (lang_cat (Class p) (Star (Class p)) [c] l);
      [now constructor | now apply lang_star_class].
Qed.

(* ===================================================================== *)
(** ** Custom suffixes and URLs: what the two validators let through *)
(* ===================================================================== *)

(** A text matched to its end is in the language of the pattern, as it is or
    without the line feed it ends with. *)
Lemma match_to_end_lang (r : re) (s : string) :
  match_to_end r s = true
  <-> lang r (chars s)
      \/ exists t : string, s = t +:+ LF /\ lang r (chars t).
Proof.
  unfold match_to_end. rewrite orb_true_iff, accepts_lang. split.
  - intros [H | H]; [now left | right].
    destruct (last (chars s)) as [c|] eqn:Hlast; [|discriminate].
    apply andb_true_iff in H as [Hc H].
    apply Ascii.eqb_eq in Hc as ->. apply accepts_lang in H.
    apply last_Some in Hlast as [l' Hl'].
    rewrite Hl', removelast_last in H.
    exists (str l'). rewrite chars_str. split; [|exact H].
    rewrite <- (str_chars s), Hl', <- (str_chars (str l' +:+ LF)), chars_app, chars_str.
    reflexivity.
  - intros [H | (t & -> & H)]; [now left | right].
    rewrite chars_app. change (chars LF) with ["010"%char].
    rewrite last_snoc, removelast_last. cbn [Ascii.eqb Bool.eqb andb].
    now apply accepts_lang.
Qed.

(** X14.  A custom suffix is accepted exactly when it has 3 to 20
    characters and either all of them are letters, digits, [_] or [-], or
    all but the last are and the last is a line feed (which the ['$'] of the
    pattern lets through). *)
Theorem custom_suffix_characterized (suffix : string) :
  _is_valid_custom_suffix suffix = true
  <-> (3 <= String.length suffix <= 20)%nat
      /\ (Forall in_charset (chars suffix)
          \/ exists t : string, suffix = t +:+ LF /\ Forall in_charset (chars t)).
Proof.
  unfold _is_valid_custom_suffix.
  change CUSTOM_SUFFIX_MIN_LENGTH with 3%nat.
  change CUSTOM_SUFFIX_MAX_LENGTH with 20%nat.
  destruct (truthy suffix) eqn:Htruthy; cbn [negb].
  2:{ destruct suffix; [|discriminate]. cbn. split; [discriminate | lia]. }
  destruct (String.length suffix <? 3)%nat eqn:Hmin.
  { apply Nat.ltb_lt in Hmin. cbn [orb]. split; [discriminate | lia]. }
  destruct (20 <? String.length suffix)%nat eqn:Hmax.
  { apply Nat.ltb_lt in Hmax. cbn [orb]. split; [discriminate | lia]. }
  apply Nat.ltb_ge in Hmin, Hmax. cbn [orb].
  rewrite match_to_end_lang, lang_plus_class. split.
  - intros H. split; [lia|].
    destruct H as [[_ H] | (t & -> & H)]; [now left | right].
    exists t. split; [reflexivity|]. now apply lang_plus_class in H.
  - intros [_ [H | (t & -> & H)]].
    + left. split; [|exact H]. destruct suffix; [discriminate Htruthy | discriminate].
    + right. exists t. split; [reflexivity|]. apply lang_plus_class.
      split; [|exact H]. intros Hnil.
      rewrite length_chars, chars_app, Hnil in Hmin. cbn in Hmin. lia.
Qed.

Lemma custom_suffix_characterized_witness :
  _is_valid_custom_suffix ("ab" +:+ LF) = true
  /\ _is_valid_custom_suffix "my link" = false.
Proof.
  split.
  - apply (proj2 (custom_suffix_characterized ("ab" +:+ LF))).
    split; [change (String.length ("ab" +:+ LF)) with 3%nat; lia|].
    right. exists "ab". split; [reflexivity|].
    repeat constructor.
  - destruct (_is_valid_custom_suffix "my link") eqn:H; [|reflexivity].
    apply (proj1 (custom_suffix_characterized "my link")) in H as [_ [H | (t & Ht & _)]].
    + apply Forall_forall with (x := " "%char) in H; [discriminate H|].
      apply list_elem_of_In. vm_compute. tauto.
    + apply (f_equal chars) in Ht. rewrite chars_app in Ht.
      apply (f_equal (@last ascii)) in Ht. change (chars LF) with ["010"%char] in Ht.
      rewrite last_snoc in Ht. discriminate Ht.
Defined.

















(* ===================================================================== *)
(** ** Path parameters *)
(* ===================================================================== *)

Lemma split_chars_nonempty (sep : ascii) (l : list ascii) : split_chars sep l <> [].
Proof.
  induction l as [|c l IH]; cbn; [discriminate|].
  destruct (Ascii.eqb sep c); [discriminate|].
  now destruct (split_chars sep l).
Qed.

(** A text without the separator is one run. *)
Lemma split_chars_segment (sep : ascii) (l : list ascii) :
  ~ In sep l -> split_chars sep l = [l].
Proof.
  induction l as [|c l IH]; intros Hnot; [reflexivity|].
  cbn. destruct (Ascii.eqb sep c) eqn:Hc.
  - apply Ascii.eqb_eq in Hc. destruct Hnot. now left.
  - rewrite IH; [reflexivity|]. intros Hin. apply Hnot. now right.
Qed.

(** Splitting after a first run without the separator. *)
Lemma split_chars_cons (sep : ascii) (a b : list ascii) :
  ~ In sep a -> split_chars sep (a ++ sep :: b) = a :: split_chars sep b.
Proof.
  induction a as [|c a IH]; intros Hnot.
  - cbn. now rewrite Ascii.eqb_refl.
  - cbn. destruct (Ascii.eqb sep c) eqn:Hc.
    + apply Ascii.eqb_eq in Hc. destruct Hnot. now left.
    + rewrite IH; [reflexivity|]. intros Hin. apply Hnot. now right.
Qed.

Lemma chars_concat_cons (sep part : string) (parts : list string) :
  parts <> [] ->
  chars (String.concat sep (part :: parts))
  = chars part ++ chars sep ++ chars (String.concat sep parts).
Proof.
  intros Hne. destruct parts as [|p parts]; [congruence|].
  change (String.concat sep (part :: p :: parts))
    with (part +:+ sep +:+ String.concat sep (p :: parts)).
  now rewrite !chars_app.
Qed.

(** Splitting what was joined gives the parts back. *)
Lemma split_concat (parts : list string) :
  parts <> [] ->
  Forall (fun part => ~ In "/"%char (chars part)) parts ->
  split "/" (String.concat "/" parts) = parts.
Proof.
  intros Hne Hall. unfold split.
  induction Hall as [|part parts Hpart Hall IH]; [congruence|].
  destruct parts as [|p parts].
  - cbn [String.concat]. rewrite split_chars_segment by exact Hpart.
    cbn. now rewrite str_chars.
  - rewrite chars_concat_cons by discriminate.
    change (chars "/") with ["/"%char]. cbn [app].
    rewrite split_chars_cons by exact Hpart.
    cbn [fmap list_fmap]. rewrite str_chars. f_equal.
    apply IH. discriminate.
Qed.

(** X18.  How a proxy path is routed.  When the [proxy] parameter is a
    ['/']-joined list of parts, only the non-empty parts count, so leading,
    trailing and doubled slashes change nothing.  One part is the short id.
    Four parts and more that read [stage/<stage>/tenant/<tenant>/...] give the
    stage and the tenant, and the last part as short id when there is a
    fifth part and it is not [shorten]; a fifth part [shorten] gives no
    short id, whatever the [shortId] parameter says.  Every other path is
    ignored: the short id is the [shortId] parameter, if any. *)
Theorem proxy_path_routing (path_params : gmap string string) (parts : list string) :
  parts <> [] ->
  Forall (fun part => ~ In "/"%char (chars part)) parts ->
  path_params !! "proxy" = Some (String.concat "/" parts) ->
  extract_path_parameters path_params
  = match List.filter truthy parts with
    | [short_id] => (Some short_id, None, None)
    | first :: stage :: third :: tenant :: more =>
        if String.eqb first "stage" && String.eqb third "tenant" then
          (match more with
           | [] => path_params !! "shortId"
           | _ =>
               let final := List.last more "" in
               if String.eqb final "shorten" then None else Some final
           end, Some stage, Some tenant)
        else (path_params !! "shortId", None, None)
    | _ => (path_params !! "shortId", None, None)
    end.
Proof.
  intros Hne Hall Hproxy. unfold extract_path_parameters.
  rewrite Hproxy, (split_concat parts Hne Hall).
  destruct (List.filter truthy parts) as [|p1 [|p2 [|p3 [|p4 more]]]];
    try reflexivity.
  cbn [length Nat.leb nth].
  destruct (String.eqb p1 "stage" && String.eqb p3 "tenant"); [|reflexivity].
  destruct more as [|p5 more]; [reflexivity|].
  cbn [length Nat.ltb Nat.leb].
  replace (default "" (last (p1 :: p2 :: p3 :: p4 :: p5 :: more)))
    with (List.last (p5 :: more) "").
  2:{ change (p1 :: p2 :: p3 :: p4 :: p5 :: more)
        with ([p1; p2; p3; p4] ++ p5 :: more).
      assert (Hl : p5 :: more <> []) by discriminate.
      revert Hl. generalize (p5 :: more). intros l Hl.
      destruct l as [|x l _] using rev_ind; [congruence|].
      rewrite List.last_last, app_assoc, last_snoc. reflexivity. }
  now destruct (String.eqb (List.last (p5 :: more) "") "shorten").
Qed.

Lemma proxy_path_routing_witness :
  extract_path_parameters
    {[ "proxy" := "/stage/prod//tenant/company1/abc123/"; "shortId" := "zzz" ]}
  = (Some "abc123", Some "prod", Some "company1").
Proof.
  rewrite (proxy_path_routing _
             [""; "stage"; "prod"; ""; "tenant"; "company1"; "abc123"; ""]).
  - reflexivity.
  - discriminate.
  - apply Forall_forall. intros part Hin. apply list_elem_of_In in Hin.
    vm_compute in Hin.
    repeat (destruct Hin as [<- | Hin]; [vm_compute; intuition discriminate|]).
    destruct Hin.
  - vm_compute. reflexivity.
Defined.

(** [test_extract_path_parameters_simple], [..._proxy_simple],
    [..._proxy_multitenant] and [..._empty]. *)
Example extract_path_parameters_tests :
  extract_path_parameters {[ "shortId" := "abc123" ]} = (Some "abc123", None, None)
  /\ extract_path_parameters {[ "proxy" := "abc123" ]} = (Some "abc123", None, None)
  /\ extract_path_parameters {[ "proxy" := "stage/prod/tenant/company1/shorten" ]}
     = (None, Some "prod", Some "company1")
  /\ extract_path_parameters ∅ = (None, None, None).
Proof. vm_compute. repeat split. Qed.

(* ===================================================================== *)
(** ** Statistics, rejected requests and the marks of UTC *)
(* ===================================================================== *)

Lemma get_url_stats_run (short_id : string) (w : World) :
  get_url_stats short_id w
  = match get_url_by_short_id short_id w with
    | (Raise e, w1) => (Raise e, w1)
    | (Ok None, w1) => (Ok None, w1)
    | (Ok (Some item), w1) =>
        (Ok (Some (mk_UrlStats (Some (shortId item)) (longUrl item)
                               (createdAt item) (expiryDate item)
                               (default 0 (clickCount item)) (lastAccessedAt item)
                               (expired_at (utc_instant (now_of w1))
                                           (expiryDate item)))),
         match expiry_instant (expiryDate item) with
         | Some _ => tick w1
         | None => w1
         end)
    end.
Proof.
  unfold get_url_stats. unfold mbind at 1, M_bind at 1, bind at 1.
  destruct (get_url_by_short_id short_id w) as [[[item|]|e] w1]; try reflexivity.
  unfold mbind at 1, M_bind at 1, bind at 1.
  rewrite is_expired_run, expiry_instant_default. unfold expired_at.
  now destruct (expiry_instant (expiryDate item)).
Qed.

(** X19.  [get_url_stats] reports a mapping as the resolve handler treats
    it.  For a stored mapping, with the read served, it answers the
    mapping's attributes, a click count of zero when the mapping has none,
    and [isExpired] true exactly when a request for the key in the same
    world is answered 410; an unknown key gives [None].  Reading the
    statistics is not a click: the table is left as it was and the only
    store call is the read. *)
Theorem get_url_stats_agrees_with_resolve (short_id : string) (w : World) :
  truthy short_id = true ->
  table_configured w = true -> get_answer w = None ->
  let run := get_url_stats short_id w in
  let resolve := redirectURL.lambda_handler (resolve_event short_id) w in
  table (snd run) = table w
  /\ new_calls w (snd run) = [mk_StoreEvent (GetItem short_id) None]
  /\ match table w !! short_id with
     | None => fst run = Ok None
     | Some item =>
         exists (stats : UrlStats) (resp : Response),
           fst run = Ok (Some stats)
           /\ fst resolve = Ok resp
           /\ (isExpired stats = true <-> statusCode resp = HTTP_STATUS_GONE)
           /\ isExpired stats = expired_at (clock w (ticks w)) (expiryDate item)
           /\ stats_shortId stats = Some (shortId item)
           /\ stats_longUrl stats = longUrl item
           /\ stats_expiryDate stats = expiryDate item
           /\ stats_clickCount stats = default 0 (clickCount item)
     end.
Proof.
  intros Hid Hcfg Hget run resolve. unfold run, resolve.
  rewrite get_url_stats_run, redirect_handler_run. cbv zeta.
  cbn [resolve_event path_short_id truthy_opt default from_option id].
  rewrite Hid. cbn [negb].
  rewrite get_url_by_short_id_run, Hcfg, Hget.
  set (w1 := log_call _ (pop_fault w)).
  assert (Hcalls : trace w1 = trace w ++ [mk_StoreEvent (GetItem short_id) None])
    by reflexivity.
  change (utc_instant (now_of w1)) with (clock w (ticks w) - 0). rewrite Z.sub_0_r.
  destruct (table w !! short_id) as [item|].
  2:{ cbn [fst snd]. split; [reflexivity|].
      split; [now apply new_calls_app | reflexivity]. }
  cbn [fst snd]. split; [now destruct (expiry_instant (expiryDate item))|].
  split.
  { apply new_calls_app. now destruct (expiry_instant (expiryDate item)). }
  destruct (expired_at (clock w (ticks w)) (expiryDate item)) eqn:Hexp.
  - eexists. eexists. split; [reflexivity|]. split; [reflexivity|].
    cbn [isExpired stats_shortId stats_longUrl stats_expiryDate stats_clickCount
           create_json_response statusCode].
    repeat split; reflexivity.
  - destruct (longUrl item) as [l|];
      (eexists; eexists; split; [reflexivity|]; split; [reflexivity|];
       cbn [isExpired stats_shortId stats_longUrl stats_expiryDate stats_clickCount
              create_json_response create_redirect_response redirect_failure
              class_of statusCode fst];
       repeat split; try reflexivity; discriminate).
Qed.

Lemma get_url_stats_agrees_with_resolve_witness :
  let w := single_world T0 lapsed_mapping in
  exists stats : UrlStats,
    fst (get_url_stats "MDco7R" w) = Ok (Some stats)
    /\ isExpired stats = true /\ stats_clickCount stats = 3
    /\ table (snd (get_url_stats "MDco7R" w)) = table w.
Proof.
  intros w.
  destruct (get_url_stats_agrees_with_resolve "MDco7R" w eq_refl eq_refl eq_refl)
    as (Htab & _ & Hstats).
  change (table w !! "MDco7R") with (Some lapsed_mapping) in Hstats.
  destruct Hstats as (stats & resp & Hrun & _ & _ & Hexp & _ & _ & _ & Hcount).
  exists stats. split; [exact Hrun|]. split; [|split; [exact Hcount | exact Htab]].
  rewrite Hexp. vm_compute. reflexivity.
Defined.



Lemma truthy_app_r (s t : string) : truthy t = true -> truthy (s +:+ t) = true.
Proof. intros Ht. destruct s; [exact Ht | reflexivity]. Qed.

Lemma normalize_expiry_Z (s : string) :
  normalize_expiry (s +:+ "Z") = s +:+ "+00:00".
Proof.
  unfold normalize_expiry, endswith, drop_last. rewrite chars_app.
  change (chars "Z") with ["Z"%char]. rewrite last_snoc, removelast_last.
  cbn [Ascii.eqb Bool.eqb]. now rewrite str_chars.
Qed.

Lemma normalize_expiry_utc (s : string) :
  normalize_expiry (s +:+ "+00:00") = s +:+ "+00:00".
Proof.
  unfold normalize_expiry, endswith, contains. rewrite chars_app.
  change (chars "+00:00") with (chars "+00:0" ++ ["0"%char]).
  rewrite app_assoc, last_snoc. cbn [Ascii.eqb Bool.eqb]. cbv iota.
  rewrite !existsb_app.
  replace (existsb (Ascii.eqb "+") (chars "+00:0")) with true by reflexivity.
  cbn [orb negb andb]. now rewrite orb_true_r.
Qed.

(** X21.  The marks of UTC.  [is_expired] reads a text that ends in [Z]
    exactly as the text with [+00:00] in place of the [Z]; and it reads a
    text with a [T], no [+] and no final [Z] exactly as the same text
    followed by [+00:00]: a time without an offset is taken as UTC. *)
Theorem expiry_marks_of_utc (s : string) (w : World) :
  is_expired (Some (s +:+ "Z")) w = is_expired (Some (s +:+ "+00:00")) w
  /\ (contains "T" s = true -> contains "+" s = false -> endswith "Z" s = false ->
      is_expired (Some s) w = is_expired (Some (s +:+ "+00:00")) w).
Proof.
  split.
  - rewrite !is_expired_run. unfold expiry_instant.
    rewrite !truthy_app_r by reflexivity.
    now rewrite normalize_expiry_Z, normalize_expiry_utc.
  - intros HT Hplus HZ. rewrite !is_expired_run. unfold expiry_instant.
    rewrite truthy_app_r by reflexivity. rewrite normalize_expiry_utc.
    assert (Hs : truthy s = true) by (destruct s; [discriminate HT | reflexivity]).
    rewrite Hs. unfold normalize_expiry. now rewrite HZ, Hplus, HT.
Qed.

Lemma expiry_marks_of_utc_witness :
  is_expired (Some "2025-11-30T08:00:00") (quiet_world T0)
  = is_expired (Some "2025-11-30T08:00:00+00:00") (quiet_world T0).
Proof.
  apply (proj2 (expiry_marks_of_utc "2025-11-30T08:00:00" (quiet_world T0)));
    reflexivity.
Defined.

(** X22.  Expiry is for good.  When [is_expired] reports a mapping expired
    at one reading of the clock, it reports it expired at every reading
    that is not earlier. *)
Theorem expired_stays_expired (expiry_date : option string) (w w' : World) :
  clock w (ticks w) <= clock w' (ticks w') ->
  fst (is_expired expiry_date w) = Ok true ->
  fst (is_expired expiry_date w') = Ok true.
Proof.
  intros Hle. rewrite !is_expired_run.
  destruct (expiry_instant expiry_date) as [x|]; [|reflexivity].
  unfold utc_instant, now_of. cbn [fst wall utcoffset default from_option id].
  intros [= H]. apply Z.ltb_lt in H. f_equal. apply Z.ltb_lt. lia.
Qed.

Lemma expired_stays_expired_witness :
  fst (is_expired (Some "2025-03-02T00:00:00+00:00") (quiet_world T1)) = Ok true.
Proof.
  apply (expired_stays_expired (Some "2025-03-02T00:00:00+00:00")
           (quiet_world T0) (quiet_world T1)).
  - vm_compute. discriminate.
  - vm_compute. reflexivity.
Defined.

(* ===================================================================== *)
(** ** Bounds: store calls and metrics *)
(* ===================================================================== *)

(** The store calls of a run of the attempt loop from attempt [a] on are
    conditional inserts for the URL, at most as many as there are attempts
    left, and a single one when the request brought a suffix. *)
Lemma outcome_calls (clk : nat -> Z) (l : string) (s : option string)
    (e : string) (ttl : Z) (a k : nat) (evs : list StoreEvent)
    (r : result (string * Item)) :
  outcome clk l s e ttl a k evs r ->
  ((a <= 2)%nat -> (length evs <= 3 - a)%nat)
  /\ (truthy_opt s = true -> (length evs <= 1)%nat)
  /\ Forall (fun ev => exists it, call ev = PutItem it /\ longUrl it = Some l) evs.
Proof.
  assert (Hput : forall a k o,
            exists it, call (put_event (attempt_item clk l s e ttl a k) o) = PutItem it
                       /\ longUrl it = Some l).
  { intros. eexists. split; reflexivity. }
  induction 1 as [a k|a k err Hs Hc|k err Hs Hc|a k err evs r Hs Hc Ha _ IH
                  |a k err Hc|k Hs Hv|a k|k];
    cbn [length]; try (repeat split; [lia | lia | repeat constructor; apply Hput]);
    try (repeat split; [lia | lia | constructor]).
  destruct IH as (Hlen & _ & Hall). split; [|split].
  - intros Hle. assert (Hn : (length evs <= 3 - S a)%nat) by (apply Hlen; lia). lia.
  - congruence.
  - constructor; [apply Hput | exact Hall].
Qed.

(** X23.  The orchestrator stops after three writes.  Whatever the store
    answers, a run of [create_short_url_with_retry] makes at most three
    store calls, at most one when the request brought a non-empty custom
    suffix, and every one of them is a conditional insert of a mapping for
    the URL it was given. *)
Theorem orchestrator_store_calls_bounded (l : string) (s : option string)
    (w : World) (r : result (string * Item)) (w' : World) :
  create_short_url_with_retry l s w = (r, w') ->
  (length (new_calls w w') <= 3)%nat
  /\ (truthy_opt s = true -> (length (new_calls w w') <= 1)%nat)
  /\ Forall (fun ev => exists it, call ev = PutItem it /\ longUrl it = Some l)
            (new_calls w w').
Proof.
  intros Hrun. apply orchestrator_outcome in Hrun
    as [(-> & _) | (e & ttl & Hout & _)].
  - cbn. repeat split; try lia. constructor.
  - apply outcome_calls in Hout as (Hlen & Hone & Hall).
    split; [apply Hlen; lia|]. now split.
Qed.

Lemma orchestrator_store_calls_bounded_witness :
  let w := scripted_world T0 (repeat already_exists 7) in
  let run := create_short_url_with_retry "https://example.com" None w in
  (length (new_calls w (snd run)) <= 3)%nat /\ faults (snd run) <> [].
Proof.
  intros w run. split.
  - apply (orchestrator_store_calls_bounded "https://example.com" None w
             (fst run) (snd run)).
    apply surjective_pairing.
  - vm_compute. discriminate.
Defined.

Lemma after_click_metrics (w : World) (short_id : string) :
  metrics (snd (update_click_count short_id w)) = metrics w.
Proof.
  rewrite update_click_count_run. destruct (table_configured w); [|reflexivity].
  unfold after_click. cbn [snd]. now destruct (get_answer w).
Qed.

(** X24.  Every request to the resolve handler counts exactly one metric,
    and the metric tells the answer: [SuccessfulRedirects] goes with 302,
    [UrlExpired] with 410, [UrlNotFound] with 404, [MissingShortId] with
    400, [DatabaseErrors] and [UnexpectedErrors] with 500. *)
Theorem redirect_counts_one_metric (event : Event) (w : World) :
  let run := redirectURL.lambda_handler event w in
  exists (resp : Response) (name : string),
    fst run = Ok resp
    /\ metrics (snd run) = metrics w ++ [name]
    /\ In (name, statusCode resp)
          [ ("SuccessfulRedirects", 302); ("UrlExpired", 410); ("UrlNotFound", 404);
            ("MissingShortId", 400); ("DatabaseErrors", 500);
            ("UnexpectedErrors", 500) ].
Proof.
  intros run. unfold run. rewrite redirect_handler_run. cbv zeta.
  assert (Hfail : forall (e : exn) (w' : World),
            metrics w' = metrics w ->
            exists (resp : Response) (name : string),
              fst (Ok (fst (redirect_failure e)),
                   log_metric (snd (redirect_failure e)) w') = Ok resp
              /\ metrics (snd (Ok (fst (redirect_failure e)),
                               log_metric (snd (redirect_failure e)) w'))
                 = metrics w ++ [name]
              /\ In (name, statusCode resp)
                    [ ("SuccessfulRedirects", 302); ("UrlExpired", 410);
                      ("UrlNotFound", 404); ("MissingShortId", 400);
                      ("DatabaseErrors", 500); ("UnexpectedErrors", 500) ]).
  { intros e w' Hm. eexists. eexists. cbn [fst snd log_metric metrics].
    rewrite Hm. split; [reflexivity|]. split; [reflexivity|].
    destruct e; vm_compute; tauto. }
  destruct (truthy_opt (path_short_id event)); cbn [negb].
  2:{ now apply Hfail. }
  rewrite get_url_by_short_id_run.
  destruct (table_configured w).
  2:{ now apply Hfail. }
  set (w1 := log_call _ (pop_fault w)).
  assert (Hw1 : metrics w1 = metrics w) by reflexivity.
  destruct (get_answer w) as [err|].
  { now apply Hfail. }
  destruct (table w !! default "" (path_short_id event)) as [item|].
  2:{ eexists. eexists. cbn [fst snd log_metric metrics]. rewrite Hw1.
      split; [reflexivity|]. split; [reflexivity|]. vm_compute. tauto. }
  destruct (expired_at (utc_instant (now_of w1)) (expiryDate item)).
  { eexists. eexists. cbn [fst snd log_metric metrics].
    split; [reflexivity|]. split.
    - destruct (expiry_instant (expiryDate item)); cbn [tick metrics];
        now rewrite Hw1.
    - vm_compute. tauto. }
  pose proof (after_click_metrics (tick w1) (default "" (path_short_id event))) as Hm.
  cbn [tick metrics] in Hm. rewrite Hw1 in Hm.
  destruct (longUrl item) as [l|].
  - eexists. eexists. cbn [fst snd log_metric metrics]. rewrite Hm.
    split; [reflexivity|]. split; [reflexivity|]. vm_compute. tauto.
  - now apply Hfail.
Qed.

(* ===================================================================== *)
(** ** Expiry texts with an offset *)
(* ===================================================================== *)

Lemma pad_digits_iso (n : nat) (x : Z) :
  Forall (fun c => iso_char c = true) (pad_digits n x).
Proof.
  revert x. induction n as [|n IH]; intros x; [constructor|].
  cbn [pad_digits]. apply Forall_app. split; [apply IH|].
  constructor; [|constructor].
  pose proof (Z.mod_pos_bound x 10 ltac:(lia)) as Hm.
  revert Hm. generalize (x mod 10). apply below_ten. intros k Hk.
  do 10 (destruct k as [|k]; [reflexivity|]). lia.
Qed.

Lemma iso_char_plain (c : ascii) :
  iso_char c = true -> Ascii.eqb "+" c = false /\ Ascii.eqb "Z" c = false.
Proof.
  destruct c as [[] [] [] [] [] [] [] []]; vm_compute; intros H;
    try discriminate H; split; reflexivity.
Qed.

(** Exactly [n] characters are read, whatever follows them. *)
Lemma parse_digits_rest (n : nat) :
  forall (acc : Z) (l rest : list ascii),
    length l = n ->
    parse_digits n acc (l ++ rest)
    = '(v, _) ← parse_digits n acc l; Some (v, rest).
Proof.
  induction n as [|n IH]; intros acc l rest Hl.
  - destruct l; [reflexivity | discriminate].
  - destruct l as [|c l]; [discriminate|]. injection Hl as Hl.
    cbn [app parse_digits]. destruct (digit_value c) as [d|]; [|reflexivity].
    cbn [mbind option_bind]. now apply IH.
Qed.

(** An offset as [isoformat] writes it: the sign, then 5, 8 or 15
    characters, digits and marks. *)
Lemma isoformat_offset_shape (off : Z) :
  exists body : list ascii,
    chars (isoformat_offset off)
    = (if off <? 0 then "-"%char else "+"%char) :: body
    /\ Forall (fun c => iso_char c = true) body
    /\ (length body = 5 \/ length body = 8 \/ length body = 15)%nat.
Proof.
  unfold isoformat_offset. cbv zeta.
  rewrite !chars_app, !chars_str.
  change (chars ":") with [":"%char].
  assert (Hsign : chars (if off <? 0 then "-" else "+")
                  = [if off <? 0 then "-"%char else "+"%char])
    by now destruct (off <? 0).
  rewrite Hsign. cbn [app]. eexists. split; [reflexivity|].
  destruct (_ && _).
  - change (chars "") with (@nil ascii). rewrite app_nil_r. split.
    + repeat first [ apply pad_digits_iso | reflexivity
                   | apply Forall_app; split | apply Forall_cons; split
                   | apply Forall_nil ].
    + left. do 3 (rewrite ?length_app; cbn [length]).
      rewrite !pad_digits_length. reflexivity.
  - rewrite !chars_app, chars_str. change (chars ":") with [":"%char].
    destruct (_ =? 0).
    + change (chars "") with (@nil ascii). rewrite app_nil_r. split.
      * repeat first [ apply pad_digits_iso | reflexivity
                     | apply Forall_app; split | apply Forall_cons; split
                     | apply Forall_nil ].
      * right. left. do 4 (rewrite ?length_app; cbn [length]).
        rewrite !pad_digits_length. reflexivity.
    + rewrite chars_app, chars_str. change (chars ".") with ["."%char]. split.
      * repeat first [ apply pad_digits_iso | reflexivity
                     | apply Forall_app; split | apply Forall_cons; split
                     | apply Forall_nil ].
      * right. right. do 5 (rewrite ?length_app; cbn [length]).
        rewrite !pad_digits_length. reflexivity.
Qed.

Lemma isoformat_offset_negative (off : Z) :
  off < 0 ->
  exists body : list ascii,
    chars (isoformat_offset off) = "-"%char :: body
    /\ Forall (fun c => iso_char c = true) body
    /\ (length body = 5 \/ length body = 8 \/ length body = 15)%nat.
Proof.
  intros Hoff. destruct (isoformat_offset_shape off) as (body & H).
  rewrite (proj2 (Z.ltb_lt off 0) Hoff) in H. now exists body.
Qed.

(** The text [isoformat] writes up to the offset. *)
Lemma isoformat_before_offset (d : datetime) :
  exists date time : list ascii,
    chars (isoformat d)
    = date ++ "T"%char :: time
      ++ chars (match utcoffset d with
                | None => ""
                | Some off => isoformat_offset off
                end)
    /\ Forall (fun c => iso_char c = true) date
    /\ Forall (fun c => iso_char c = true) time.
Proof.
  rewrite isoformat_chars_any. cbv zeta.
  destruct (ord2ymd _) as [[y m] dd]. eexists. eexists.
  split; [reflexivity|]. split.
  - repeat first [ apply pad_digits_iso | reflexivity
                 | apply Forall_app; split | apply Forall_cons; split
                 | apply Forall_nil ].
  - destruct (_ =? 0);
      repeat first [ apply pad_digits_iso | reflexivity
                   | apply Forall_app; split | apply Forall_cons; split
                   | apply Forall_nil ].
Qed.

(** A time of day followed by a negative offset and then by [+00:00] is
    not a time [fromisoformat] reads. *)
Lemma parse_time_two_offsets (time body : list ascii) :
  Forall (fun c => is_sign c = false) time ->
  (length body = 5 \/ length body = 8 \/ length body = 15)%nat ->
  parse_isoformat_time (time ++ "-"%char :: body ++ chars "+00:00") = None.
Proof.
  intros Htime Hlen. unfold parse_isoformat_time.
  rewrite (split_tz_app time _ Htime).
  cbn [split_tz is_sign Ascii.eqb Bool.eqb orb fst snd]. rewrite app_nil_r.
  destruct (parse_hh_mm_ss_ff time) as [[[[hh mm] ss] ff]|]; [|reflexivity].
  cbn [mbind option_bind].
  rewrite !bool_decide_eq_false_2; [reflexivity| | |];
    rewrite length_app; change (length (chars "+00:00")) with 6%nat; lia.
Qed.

(** What [isoformat] writes for a negative offset, followed by [+00:00], is
    not read by [fromisoformat]. *)
Lemma fromisoformat_two_offsets (w off : Z) :
  off < 0 ->
  fromisoformat (isoformat (mk_datetime w (Some off)) +:+ "+00:00") = None.
Proof.
  intros Hoff. unfold fromisoformat. rewrite chars_app, isoformat_chars_any.
  cbn [wall utcoffset]. cbv zeta.
  destruct (ord2ymd (w / US_PER_DAY + 1)) as [[y m] d].
  destruct (isoformat_offset_negative off Hoff) as (body & -> & _ & Hlen).
  repeat (progress (rewrite <- ?app_assoc; cbn [app])).
  rewrite (parse_digits_rest 4) by apply pad_digits_length.
  destruct (parse_digits 4 0 (pad_digits 4 y)) as [[vy ?]|]; [|reflexivity].
  cbn [mbind option_bind expect Ascii.eqb Bool.eqb].
  rewrite (parse_digits_rest 2) by apply pad_digits_length.
  destruct (parse_digits 2 0 (pad_digits 2 m)) as [[vm ?]|]; [|reflexivity].
  cbn [mbind option_bind expect Ascii.eqb Bool.eqb].
  rewrite (parse_digits_rest 2) by apply pad_digits_length.
  destruct (parse_digits 2 0 (pad_digits 2 d)) as [[vd ?]|]; [|reflexivity].
  cbn [mbind option_bind].
  match goal with
  | |- context [parse_isoformat_time ?t] =>
      replace (parse_isoformat_time t) with (@None (Z * Z * Z * Z * option Z))
  end; [reflexivity|].
  symmetry.
  set (secs := w mod US_PER_DAY / US_PER_SECOND).
  set (us := w mod US_PER_DAY mod US_PER_SECOND).
  pose proof (parse_time_two_offsets _ body
                (no_sign_of_time (secs / 3600) (secs / 60 mod 60) (secs mod 60) us)
                Hlen) as H.
  rewrite <- H.
  f_equal; repeat (progress (rewrite <- ?app_assoc; cbn [app])); reflexivity.
Qed.

Lemma isoformat_negative_iso (w off : Z) :
  off < 0 ->
  Forall (fun c => iso_char c = true) (chars (isoformat (mk_datetime w (Some off)))).
Proof.
  intros Hoff.
  destruct (isoformat_before_offset (mk_datetime w (Some off)))
    as (date & time & -> & Hdate & Htime).
  cbn [utcoffset].
  destruct (isoformat_offset_negative off Hoff) as (body & -> & Hbody & _).
  repeat first [ assumption | reflexivity
               | apply Forall_app; split | apply Forall_cons; split ].
Qed.

(** X25.  Every expiry text with a negative offset counts as expired.  What
    [isoformat] writes for an instant with a negative UTC offset has a [T]
    and no [+], so [is_expired] appends [+00:00] to it, [fromisoformat]
    rejects the result, and the answer is [True] whatever the clock says,
    however far in the future the instant lies; the clock is not even
    read. *)
Theorem negative_offsets_always_expired (wall_time off : Z) (w : World) :
  in_range wall_time -> - US_PER_DAY < off < 0 ->
  is_expired (Some (isoformat (mk_datetime wall_time (Some off)))) w = (Ok true, w).
Proof.
  intros _ [_ Hoff]. rewrite is_expired_run.
  set (text := isoformat (mk_datetime wall_time (Some off))).
  pose proof (isoformat_negative_iso wall_time off Hoff) as Hiso. fold text in Hiso.
  assert (Hchars : exists date rest, chars text = date ++ "T"%char :: rest).
  { unfold text. rewrite isoformat_chars_any. cbv zeta.
    destruct (ord2ymd _) as [[y m] d]. eexists. eexists. reflexivity. }
  destruct Hchars as (date & rest & Hchars).
  assert (Hnorm : normalize_expiry text = text +:+ "+00:00").
  { unfold normalize_expiry, endswith, contains.
    assert (HZ : match last (chars text) with
                 | Some c => Ascii.eqb "Z" c
                 | None => false
                 end = false).
    { destruct (last (chars text)) as [c|] eqn:Hlast; [|reflexivity].
      apply last_Some in Hlast as [l' Hl']. rewrite Hl' in Hiso.
      apply Forall_app in Hiso as [_ Hc]. apply Forall_cons in Hc as [Hc _].
      now apply iso_char_plain in Hc. }
    rewrite HZ.
    assert (Hplus : existsb (Ascii.eqb "+") (chars text) = false).
    { clear Hchars HZ. induction Hiso as [|c l Hc _ IH]; [reflexivity|].
      cbn [existsb]. apply iso_char_plain in Hc as [-> _]. exact IH. }
    rewrite Hplus, Hchars, existsb_app. cbn [existsb Ascii.eqb Bool.eqb negb andb orb].
    now rewrite orb_true_r. }
  unfold expiry_instant. rewrite Hnorm. unfold text.
  rewrite (fromisoformat_two_offsets wall_time off Hoff).
  now destruct (truthy _).
Qed.

Lemma negative_offsets_always_expired_witness :
  isoformat (mk_datetime 94607740800000000 (Some (-18000000000)))
  = "2999-01-01T00:00:00-05:00"
  /\ is_expired (Some "2999-01-01T00:00:00-05:00") (quiet_world T0)
     = (Ok true, quiet_world T0).
Proof.
  split; [vm_compute; reflexivity|].
  apply (negative_offsets_always_expired 94607740800000000 (-18000000000)
           (quiet_world T0)).
  - vm_compute. split; [discriminate | reflexivity].
  - vm_compute. split; reflexivity.
Defined.

(** X26.  An expiry text with an offset of UTC or east of it is compared by
    its instant.  What [isoformat] writes for an instant of the calendar
    with an offset from [+00:00] up to a day is read by [is_expired] as that
    very instant: the answer is whether the clock reading lies after the
    wall time less the offset. *)
Theorem east_offsets_compare_instants (wall_time off : Z) (w : World) :
  in_range wall_time -> 0 <= off < US_PER_DAY ->
  is_expired (Some (isoformat (mk_datetime wall_time (Some off)))) w
  = (Ok (wall_time - off <? clock w (ticks w)), tick w).
Proof.
  intros Hrange Hoff. rewrite is_expired_run.
  set (text := isoformat (mk_datetime wall_time (Some off))).
  destruct (isoformat_before_offset (mk_datetime wall_time (Some off)))
    as (date & time & Hchars & _ & _).
  cbn [utcoffset] in Hchars. fold text in Hchars.
  destruct (isoformat_offset_shape off) as (body & Hbody & Hiso & Hlen).
  rewrite (proj2 (Z.ltb_ge off 0)) in Hbody by lia.
  rewrite Hbody in Hchars.
  assert (Hnorm : normalize_expiry text = text).
  { unfold normalize_expiry, endswith, contains. rewrite Hchars.
    assert (HZ : match last (date ++ "T"%char :: time ++ "+"%char :: body) with
                 | Some c => Ascii.eqb "Z" c
                 | None => false
                 end = false).
    { destruct body as [|b body] using rev_ind.
      - cbn in Hlen. lia.
      - replace (date ++ "T"%char :: time ++ "+"%char :: body ++ [b])
          with ((date ++ "T"%char :: time ++ "+"%char :: body) ++ [b])
          by (repeat (rewrite <- ?app_assoc; cbn [app]); reflexivity).
        rewrite last_snoc. apply Forall_app in Hiso as [_ Hb].
        apply Forall_cons in Hb as [Hb _]. now apply iso_char_plain in Hb. }
    rewrite HZ.
    replace (existsb (Ascii.eqb "+") (date ++ "T"%char :: time ++ "+"%char :: body))
      with true; [reflexivity|].
    symmetry. rewrite existsb_app. cbn [existsb]. rewrite existsb_app.
    cbn [existsb Ascii.eqb Bool.eqb]. now rewrite !orb_true_r. }
  assert (Htruthy : truthy text = true).
  { destruct text; [destruct date; discriminate Hchars | reflexivity]. }
  unfold expiry_instant. rewrite Htruthy, Hnorm. unfold text.
  rewrite (fromisoformat_isoformat_east wall_time off Hrange Hoff).
  cbn [mbind option_bind]. unfold utc_instant, now_of.
  cbn [wall utcoffset default from_option id]. now rewrite Z.sub_0_r.
Qed.

Lemma east_offsets_compare_instants_witness :
  isoformat (mk_datetime 94607740800000000 (Some 18000000000))
  = "2999-01-01T00:00:00+05:00"
  /\ is_expired (Some "2999-01-01T00:00:00+05:00") (quiet_world T0)
     = (Ok false, tick (quiet_world T0)).
Proof.
  split; [vm_compute; reflexivity|].
  apply (east_offsets_compare_instants 94607740800000000 18000000000
           (quiet_world T0)).
  - vm_compute. split; [discriminate | reflexivity].
  - vm_compute. split; [discriminate | reflexivity].
Defined.

(* ===================================================================== *)
(** ** A table that is not configured, and requests with a custom suffix *)
(* ===================================================================== *)

(** X27.  Without a configured table neither handler goes to the store.
    When [DYNAMODB_TABLE_NAME] named no table, the create handler and the
    resolve handler answer 400 or 500 and leave the world as it was but for
    the one metric they count: no store call is made and the clock is not
    read. *)
Theorem unconfigured_table_is_never_called (event : Event) (w : World) :
  table_configured w = false ->
  (exists (resp : Response) (name : string),
     lambda_handler event w = (Ok resp, log_metric name w)
     /\ In (statusCode resp) [400; 500])
  /\ (exists (resp : Response) (name : string),
        redirectURL.lambda_handler event w = (Ok resp, log_metric name w)
        /\ In (statusCode resp) [400; 500]).
Proof.
  intros Hcfg. split.
  - rewrite create_handler_run. cbv zeta.
    destruct (event_body event) as [| |long_url suffix];
      try (eexists; eexists; split; [reflexivity | vm_compute; tauto]).
    destruct (truthy_opt long_url); cbn [negb];
      [|eexists; eexists; split; [reflexivity | vm_compute; tauto]].
    destruct (is_valid_url (default "" long_url)); cbn [negb];
      [|eexists; eexists; split; [reflexivity | vm_compute; tauto]].
    rewrite find_existing_url_run, Hcfg.
    eexists. eexists. split; [reflexivity | vm_compute; tauto].
  - rewrite redirect_handler_run. cbv zeta.
    destruct (truthy_opt (path_short_id event)); cbn [negb];
      [|eexists; eexists; split; [reflexivity | vm_compute; tauto]].
    rewrite get_url_by_short_id_run, Hcfg.
    eexists. eexists. split; [reflexivity | vm_compute; tauto].
Qed.

Lemma unconfigured_table_is_never_called_witness :
  exists resp : Response,
    lambda_handler (create_event "https://example.com" None)
                   (mk_World (fun _ => T0) 0 false ∅ [] [] [])
    = (Ok resp, mk_World (fun _ => T0) 0 false ∅ [] [] ["DatabaseErrors"])
    /\ statusCode resp = 500.
Proof.
  destruct (proj1 (unconfigured_table_is_never_called
                     (create_event "https://example.com" None)
                     (mk_World (fun _ => T0) 0 false ∅ [] [] []) eq_refl))
    as (resp & name & Hrun & _).
  exists resp. rewrite Hrun.
  assert (H : lambda_handler (create_event "https://example.com" None)
                (mk_World (fun _ => T0) 0 false ∅ [] [] [])
              = (Ok (create_json_response 500 (error_body "Database operation failed")),
                 mk_World (fun _ => T0) 0 false ∅ [] [] ["DatabaseErrors"]))
    by (vm_compute; reflexivity).
  rewrite H in Hrun. injection Hrun as <- Hw.
  split; [now rewrite Hw | reflexivity].
Defined.




